(** * batch_job_orch: the hourly event-count job of [src/main.py]

    A shallow embedding of the job's seven functions ([get_env_var],
    [list_eligible_json_files], [download_and_parse_events],
    [normalize_events], [aggregate_events], [write_hourly_csv_summaries],
    [main]) and the properties the specification states about them.

    Conventions of the model.
    - A Python [str] is a [string] holding its UTF-8 encoding; [bytes] are
      a [list byte].
    - A Python [int] is a [Z].
    - A value produced by [json.loads] is a [json]; JSON numbers with a
      fraction or an exponent (Python floats) are outside the model.
    - An exception is a value of [exn]; a function that may raise returns
      a [result].
    - Logging, downloads and uploads are effects on a [world], threaded
      by the monad [M]; what was logged or uploaded before an exception
      stays in the world.
    - The Python library functions the job calls ([bytes.decode],
      [json.loads], [datetime.fromisoformat], [int]) and the process
      environment ([os.getenv], the clock, the bucket listing) are
      variables of the section [Job]; the module [Std] gives reference
      instances used to evaluate the job on concrete inputs.

    The file has five parts: the model of the program; the reference
    instances of the library functions; the vocabulary of the statements
    and the concrete inputs; the lemmas and theorems about the stages as
    the specification describes them; further properties of the code. *)

From Stdlib Require Import ZArith List String Ascii Bool Lia Permutation.
From Stdlib.Strings Require Import Byte.
From Stdlib Require Import DecimalString DecimalZ.
Import ListNotations.

Local Open Scope string_scope.
Local Open Scope list_scope.
Local Open Scope Z_scope.

Set Warnings "-register-all".

(* ================================================================== *)
(** * Part I: the model *)

(** ** Strings *)

(** [s.endswith(suffix)]. *)
Fixpoint endswith (s suffix : string) : bool :=
  (s =? suffix)%string ||
  match s with
  | EmptyString => false
  | String _ t => endswith t suffix
  end.

(** [s.startswith(prefix)]. *)
Definition startswith (s pre : string) : bool := String.prefix pre s.

(** [s.replace(old, new)] for a one-character [old]. *)
Fixpoint replace_char (old : ascii) (new : string) (s : string) : string :=
  match s with
  | EmptyString => EmptyString
  | String c t =>
      if Ascii.eqb c old then new ++ replace_char old new t
      else String c (replace_char old new t)
  end.

(** [str(n)] for an [int]. *)
Definition str_of_int (n : Z) : string := NilZero.string_of_int (Z.to_int n).

Definition digit_char (d : Z) : ascii := ascii_of_nat (48 + Z.to_nat (d mod 10)).

(** ["%0<width>d" % n] for [0 <= n]: decimal digits, zero-padded on the
    left to at least [width] characters. *)
Fixpoint pad_digits (width : nat) (n : Z) : string :=
  match width with
  | O => EmptyString
  | S w => pad_digits w (n / 10) ++ String (digit_char n) EmptyString
  end.

Definition zero_pad (width : nat) (n : Z) : string :=
  if (0 <=? n) && (n <? 10 ^ Z.of_nat width) then pad_digits width n
  else str_of_int n.

(** ** JSON values, exceptions, results *)

(** The Python value [json.loads] returns: [None], [bool], [int], [str],
    [list], [dict].  A [dict] keeps its items in insertion order; lookup
    takes the first item with the key ([json.loads] never produces two). *)
Inductive json : Type :=
| JNull
| JBool (b : bool)
| JInt (n : Z)
| JStr (s : string)
| JArr (items : list json)
| JObj (items : list (string * json)).

Fixpoint dict_lookup (key : string) (items : list (string * json)) : option json :=
  match items with
  | [] => None
  | (k, v) :: rest => if (k =? key)%string then Some v else dict_lookup key rest
  end.

(** The exceptions the job can raise, with what identifies them.  The
    specification's error names correspond as follows:
    [ConfigurationError] is [RuntimeError_missing_env],
    [DecodingError] is [UnicodeDecodeError],
    [ParseError] is [JSONDecodeError],
    [SchemaError] is [ValueError_expected_array],
    [ValidationError] is [ValueError_invalid_timestamp]. *)
Inductive exn : Type :=
| RuntimeError_missing_env (name : string)
    (* RuntimeError(f"Missing required environment variable: {name}") *)
| ValueError_int_literal (text : string)          (* int(text) *)
| TypeError_int_none                              (* int(None) *)
| OverflowError                                   (* datetime out of range *)
| UnicodeDecodeError                              (* data.decode("utf-8") *)
| JSONDecodeError                                 (* json.loads(content) *)
| ValueError_expected_array (blob_name : string)
    (* ValueError(f"Expected JSON array in {blob.name}") *)
| ValueError_invalid_timestamp (event : json)
    (* ValueError(f"Invalid timestamp format: {event}") *)
| ValueError_isoformat                            (* datetime.fromisoformat *)
| KeyError (key : string)                         (* event[key], key absent *)
| TypeError_subscript                             (* event[key], event no dict *)
| AttributeError_replace                          (* value.replace, value no str *)
| TypeError_unhashable.                           (* a list or dict as dict key *)

Inductive result (A : Type) : Type :=
| Ok (a : A)
| Raise (e : exn).
Arguments Ok {A} a.
Arguments Raise {A} e.

Definition is_None {A} (v : option A) : bool :=
  match v with None => true | Some _ => false end.

(** ** Dates and times *)

(** A [datetime.datetime]: calendar fields and [tzinfo], the latter as its
    UTC offset in microseconds ([None] for a naive datetime). *)
Record datetime : Type := mkdt {
  dt_year : Z; dt_month : Z; dt_day : Z;
  dt_hour : Z; dt_minute : Z; dt_second : Z; dt_microsecond : Z;
  dt_tzinfo : option Z }.

Definition UTC : option Z := Some 0.

Definition is_leap (year : Z) : bool :=
  (year mod 4 =? 0) && (negb (year mod 100 =? 0) || (year mod 400 =? 0)).

Definition days_in_month (year month : Z) : Z :=
  match month with
  | 2 => if is_leap year then 29 else 28
  | 4 | 6 | 9 | 11 => 30
  | 1 | 3 | 5 | 7 | 8 | 10 | 12 => 31
  | _ => 0
  end.

Definition days_before_year (year : Z) : Z :=
  let y := year - 1 in y * 365 + y / 4 - y / 100 + y / 400.

(** The days of the year before the first of [month]. *)
Definition days_before_month (year month : Z) : Z :=
  match month with
  | 1 => 0 | 2 => 31 | 3 => 59 | 4 => 90 | 5 => 120 | 6 => 151
  | 7 => 181 | 8 => 212 | 9 => 243 | 10 => 273 | 11 => 304 | 12 => 334
  | _ => 0
  end
  + (if (2 <? month) && is_leap year then 1 else 0).

(** The proleptic Gregorian ordinal of a date, 0001-01-01 being day 1. *)
Definition ymd2ord (year month day : Z) : Z :=
  days_before_year year + days_before_month year month + day.

Definition MAXORDINAL : Z := 3652059.   (* date(9999, 12, 31).toordinal() *)

(** The invariant of every [datetime] object: the constructor's range
    checks. *)
Definition valid_datetime (d : datetime) : bool :=
  (1 <=? dt_year d) && (dt_year d <=? 9999) &&
  (1 <=? dt_month d) && (dt_month d <=? 12) &&
  (1 <=? dt_day d) && (dt_day d <=? days_in_month (dt_year d) (dt_month d)) &&
  (0 <=? dt_hour d) && (dt_hour d <=? 23) &&
  (0 <=? dt_minute d) && (dt_minute d <=? 59) &&
  (0 <=? dt_second d) && (dt_second d <=? 59) &&
  (0 <=? dt_microsecond d) && (dt_microsecond d <=? 999999) &&
  match dt_tzinfo d with
  | None => true
  | Some off => (-86400000000 <? off) && (off <? 86400000000)
  end.

(** Microseconds from day 0, 00:00 to the wall-clock reading of [d]. *)
Definition wall_micros (d : datetime) : Z :=
  ((ymd2ord (dt_year d) (dt_month d) (dt_day d) * 86400
    + dt_hour d * 3600 + dt_minute d * 60 + dt_second d) * 1000000)
  + dt_microsecond d.

(** The instant an aware datetime denotes, on the UTC time line. *)
Definition utc_micros (d : datetime) : option Z :=
  match dt_tzinfo d with
  | None => None
  | Some off => Some (wall_micros d - off)
  end.

(** [a == b] on datetimes (and the equality [dict] uses for a datetime
    key, whose hash agrees with it): two aware datetimes are equal when
    they denote the same instant, two naive ones when their fields agree,
    an aware and a naive one never. *)
Definition datetime_eqb (a b : datetime) : bool :=
  match dt_tzinfo a, dt_tzinfo b with
  | Some oa, Some ob => wall_micros a - oa =? wall_micros b - ob
  | None, None =>
      (dt_year a =? dt_year b) && (dt_month a =? dt_month b) &&
      (dt_day a =? dt_day b) && (dt_hour a =? dt_hour b) &&
      (dt_minute a =? dt_minute b) && (dt_second a =? dt_second b) &&
      (dt_microsecond a =? dt_microsecond b)
  | _, _ => false
  end.

(** [ts.replace(minute=0, second=0, microsecond=0)]. *)
Definition replace_minute_second_microsecond (ts : datetime) : datetime :=
  mkdt (dt_year ts) (dt_month ts) (dt_day ts) (dt_hour ts) 0 0 0 (dt_tzinfo ts).

(** [off] formatted as [isoformat] does: [+HH:MM], then [:SS] when the
    offset has seconds, then [.ffffff] when it has microseconds. *)
Definition format_offset (tz : option Z) : string :=
  match tz with
  | None => ""
  | Some off =>
      let sign := if off <? 0 then "-" else "+" in
      let a := Z.abs off in
      let hh := a / 3600000000 in
      let mm := (a mod 3600000000) / 60000000 in
      let ss := (a mod 60000000) / 1000000 in
      let us := a mod 1000000 in
      sign ++ zero_pad 2 hh ++ ":" ++ zero_pad 2 mm ++
      (if (ss =? 0) && (us =? 0) then ""
       else ":" ++ zero_pad 2 ss ++
            (if us =? 0 then "" else "." ++ zero_pad 6 us))
  end.

(** [d.isoformat()]. *)
Definition isoformat (d : datetime) : string :=
  zero_pad 4 (dt_year d) ++ "-" ++ zero_pad 2 (dt_month d) ++ "-" ++
  zero_pad 2 (dt_day d) ++ "T" ++ zero_pad 2 (dt_hour d) ++ ":" ++
  zero_pad 2 (dt_minute d) ++ ":" ++ zero_pad 2 (dt_second d) ++
  (if dt_microsecond d =? 0 then "" else "." ++ zero_pad 6 (dt_microsecond d)) ++
  format_offset (dt_tzinfo d).

(** [d.strftime("%Y")], [("%m")], [("%d")], [("%H")], which the C
    library formats.  Month, day and hour are two digits, zero-padded.
    The year is written in decimal without padding by glibc (Linux, where
    the job runs): [987] for the year 987, not [0987]; from the year 1000
    on it has its four digits. *)
Definition strftime_Y (d : datetime) : string := str_of_int (dt_year d).
Definition strftime_m (d : datetime) : string := zero_pad 2 (dt_month d).
Definition strftime_d (d : datetime) : string := zero_pad 2 (dt_day d).
Definition strftime_H (d : datetime) : string := zero_pad 2 (dt_hour d).

(** ** The world: log, object store *)

(** A stored object as the job sees it: [blob.name], [blob.updated] (an
    aware datetime, kept as its instant in microseconds on the scale of
    [utc_micros]) and the bytes [blob.download_as_bytes()] returns. *)
Record blob : Type := mkblob {
  blob_name : string;
  blob_updated : Z;
  blob_bytes : list byte }.

(** A hashable JSON value: what can be part of a [dict] key. *)
Inductive atom : Type :=
| KNone
| KBool (b : bool)
| KInt (n : Z)
| KStr (s : string).

(** The argument of a logging call, not yet formatted. *)
Inductive log_arg : Type :=
| LStr (s : string)
| LInt (n : Z)
| LInstant (t : Z)
| LDatetime (d : datetime)
| LAtom (a : atom).

Inductive log_level : Type := INFO | ERROR.

Record log_record : Type := mklog {
  log_level_of : log_level;
  log_format : string;
  log_args : list log_arg }.

(** One [blob.upload_from_string(data, content_type=...)]. *)
Record upload : Type := mkupload {
  up_bucket : string;
  up_path : string;
  up_data : string;
  up_content_type : string }.

Record world : Type := mkworld {
  w_log : list log_record;          (* oldest first *)
  w_downloads : list string;        (* names of the blobs downloaded *)
  w_uploads : list upload }.        (* oldest first *)

Definition M (A : Type) : Type := world -> result A * world.

Definition ret {A} (a : A) : M A := fun w => (Ok a, w).

Definition bind {A B} (c : M A) (k : A -> M B) : M B :=
  fun w => match c w with
           | (Ok a, w') => k a w'
           | (Raise e, w') => (Raise e, w')
           end.

Definition raise {A} (e : exn) : M A := fun w => (Raise e, w).

Definition lift {A} (r : result A) : M A := fun w => (r, w).

Declare Scope monad_scope.
Delimit Scope monad_scope with monad.
Notation "x <- c1 ;; c2" := (bind c1 (fun x => c2))
  (at level 61, c1 at next level, right associativity) : monad_scope.
Notation "c1 ;; c2" := (bind c1 (fun _ => c2))
  (at level 61, right associativity) : monad_scope.
Local Open Scope monad_scope.

Definition emit (r : log_record) : M unit :=
  fun w => (Ok tt, mkworld (w_log w ++ [r]) (w_downloads w) (w_uploads w)).

(** [logging.info(format, *args)] and [logging.error(format, *args)]. *)
Definition logging_info (format : string) (args : list log_arg) : M unit :=
  emit (mklog INFO format args).
Definition logging_error (format : string) (args : list log_arg) : M unit :=
  emit (mklog ERROR format args).

(** [blob.download_as_bytes()]: one read of the store. *)
Definition download_as_bytes (b : blob) : M (list byte) :=
  fun w => (Ok (blob_bytes b),
            mkworld (w_log w) (w_downloads w ++ [blob_name b]) (w_uploads w)).

(** [bucket.blob(path).upload_from_string(data, content_type=...)]. *)
Definition upload_from_string (bucket path data content_type : string) : M unit :=
  fun w => (Ok tt,
            mkworld (w_log w) (w_downloads w)
                    (w_uploads w ++ [mkupload bucket path data content_type])).

(** ** Records handed from stage to stage *)

(** [{"hour": ..., "event_type": ...}]: [event_type] is whatever value
    the raw event holds under that key. *)
Record NormalizedEvent : Type := mkne {
  ne_hour : datetime;
  ne_event_type : json }.

(** [{"hour": ..., "event_type": ..., "total_events": ...}]: [hour] and
    [event_type] come out of a [dict] key, so [event_type] is hashable. *)
Record AggregateRecord : Type := mkar {
  ar_hour : datetime;
  ar_event_type : atom;
  ar_total_events : Z }.

(** [hash(v)] succeeds: the value as a key atom, or [None] for a list or a
    dict, whose hash raises [TypeError]. *)
Definition atom_of_json (v : json) : option atom :=
  match v with
  | JNull => Some KNone
  | JBool b => Some (KBool b)
  | JInt n => Some (KInt n)
  | JStr s => Some (KStr s)
  | JArr _ | JObj _ => None
  end.

(** [a == b] on key atoms: [bool] is a subclass of [int] ([True == 1]);
    [None] and strings equal only themselves. *)
Definition atom_eqb (a b : atom) : bool :=
  match a, b with
  | KNone, KNone => true
  | KStr s, KStr t => (s =? t)%string
  | KBool x, KBool y => Bool.eqb x y
  | KInt x, KInt y => x =? y
  | KBool x, KInt y | KInt y, KBool x => (if x then 1 else 0) =? y
  | _, _ => false
  end.

(** Equality of the tuples [(hour, event_type)] used as [dict] keys. *)
Definition key_eqb (a b : datetime * atom) : bool :=
  datetime_eqb (fst a) (fst b) && atom_eqb (snd a) (snd b).

(** ** CSV output ([csv.writer] with its default dialect) *)

Definition DQUOTE : ascii := "034"%char.
Definition CR : ascii := "013"%char.
Definition LF : ascii := "010"%char.
Definition CRLF : string := String CR (String LF EmptyString).

Fixpoint contains_char (p : ascii -> bool) (s : string) : bool :=
  match s with
  | EmptyString => false
  | String c t => p c || contains_char p t
  end.

(** A field is quoted when it holds the delimiter, the quote character or
    a character of the line terminator (QUOTE_MINIMAL). *)
Definition csv_special (c : ascii) : bool :=
  Ascii.eqb c ","%char || Ascii.eqb c DQUOTE || Ascii.eqb c CR || Ascii.eqb c LF.

Definition csv_field (field : string) : string :=
  if contains_char csv_special field
  then String DQUOTE (replace_char DQUOTE (String DQUOTE (String DQUOTE EmptyString)) field)
       ++ String DQUOTE EmptyString
  else field.

(** What [writer.writerow(fields)] appends to the buffer, for a row of
    two or more fields. *)
Definition writerow (fields : list string) : string :=
  String.concat "," (map csv_field fields) ++ CRLF.

(** The text [csv.writer] writes for a value: [""] for [None], the
    string itself for a [str], [str(v)] otherwise. *)
Definition csv_text (a : atom) : string :=
  match a with
  | KNone => ""
  | KBool true => "True"
  | KBool false => "False"
  | KInt n => str_of_int n
  | KStr s => s
  end.

(** ** The job *)

Section Job.

(** *** The Python library and the process environment *)

(** [data.decode("utf-8")]; [None] stands for [UnicodeDecodeError]. *)
Variable bytes_decode_utf8 : list byte -> option string.
(** [json.loads(content)]; [None] stands for [json.JSONDecodeError].
    Any other exception of [json.loads] ([RecursionError], for a text
    nested deeper than the interpreter's recursion limit) is outside the
    model: the theorems about the parser speak of the files that decode
    or not, parse or raise [JSONDecodeError], and hold an array or
    another value. *)
Variable json_loads : string -> option json.
(** [datetime.fromisoformat(s)]; [None] stands for [ValueError]. *)
Variable datetime_fromisoformat : string -> option datetime.
(** [int(s)] on a [str]; [None] stands for [ValueError]. *)
Variable int_of_str : string -> option Z.
(** [os.getenv(name)]. *)
Variable os_getenv : string -> option string.
(** [datetime.now(timezone.utc)], as an instant. *)
Variable now_utc : Z.
(** The objects of a bucket, in listing order. *)
Variable bucket_objects : string -> list blob.

(** *** [get_env_var] (lines 13-17) *)

Definition get_env_var (name : string) (required : bool) (default : option string)
  : result (option string) :=
  let value := match os_getenv name with Some v => Some v | None => default end in
  if required && is_None value then Raise (RuntimeError_missing_env name)
  else Ok value.

(** *** [list_eligible_json_files] (lines 19-46) *)

Definition MIN_INSTANT : Z := 1 * 86400 * 1000000.
Definition MAX_INSTANT : Z := (MAXORDINAL + 1) * 86400 * 1000000 - 1.

(** [now - timedelta(hours=hours)] on an aware UTC datetime given by its
    instant: [OverflowError] when the result leaves years 1..9999. *)
Definition minus_hours (now hours : Z) : result Z :=
  let t := now - hours * 3600000000 in
  if (MIN_INSTANT <=? t) && (t <=? MAX_INSTANT) then Ok t else Raise OverflowError.

(** [bucket.list_blobs(prefix=prefix)]. *)
Definition list_blobs (bucket_name pre : string) : list blob :=
  filter (fun b => startswith (blob_name b) pre) (bucket_objects bucket_name).

(** The loop of [list_eligible_json_files] (lines 29-42). *)
Fixpoint eligible_loop (cutoff_time : Z) (blobs eligible_files : list blob)
  : M (list blob) :=
  match blobs with
  | [] => ret eligible_files
  | blob :: rest =>
      if negb (endswith (blob_name blob) ".json")
      then eligible_loop cutoff_time rest eligible_files
      else
        logging_info "Found file: %s | updated: %s"
                     [LStr (blob_name blob); LInstant (blob_updated blob)] ;;
        if cutoff_time <=? blob_updated blob
        then eligible_loop cutoff_time rest eligible_files
        else eligible_loop cutoff_time rest (eligible_files ++ [blob])
  end.

Definition list_eligible_json_files (bucket_name pre : string) (lookback_hours : Z)
  : M (list blob) :=
  logging_info "Connecting to GCS..." [] ;;
  cutoff_time <- lift (minus_hours now_utc lookback_hours) ;;
  logging_info "Filtering files updated before: %s" [LInstant cutoff_time] ;;
  eligible_files <- eligible_loop cutoff_time (list_blobs bucket_name pre) [] ;;
  logging_info "Total eligible files: %d" [LInt (Z.of_nat (List.length eligible_files))] ;;
  ret eligible_files.

(** *** [download_and_parse_events] (lines 50-85) *)

(** The loop of [download_and_parse_events] (lines 58-82). *)
Fixpoint parse_loop (blobs : list blob) (all_events : list json) : M (list json) :=
  match blobs with
  | [] => ret all_events
  | blob :: rest =>
      logging_info "Downloading file: %s" [LStr (blob_name blob)] ;;
      data <- download_as_bytes blob ;;
      match bytes_decode_utf8 data with
      | None =>
          logging_error "Failed to decode file %s as UTF-8" [LStr (blob_name blob)] ;;
          raise UnicodeDecodeError
      | Some content =>
          match json_loads content with
          | None =>
              logging_error "Invalid JSON in file %s" [LStr (blob_name blob)] ;;
              raise JSONDecodeError
          | Some (JArr events) =>
              logging_info "Parsed %d events from %s"
                           [LInt (Z.of_nat (List.length events)); LStr (blob_name blob)] ;;
              parse_loop rest
                (fold_left (fun all_events event => all_events ++ [event])
                           events all_events)
          | Some _ => raise (ValueError_expected_array (blob_name blob))
          end
      end
  end.

Definition download_and_parse_events (blobs : list blob) : M (list json) :=
  all_events <- parse_loop blobs [] ;;
  logging_info "Total events parsed across all files: %d"
               [LInt (Z.of_nat (List.length all_events))] ;;
  ret all_events.

(** *** [normalize_events] (lines 88-115) *)

(** [event[key]]. *)
Definition subscript (event : json) (key : string) : result json :=
  match event with
  | JObj items =>
      match dict_lookup key items with
      | Some v => Ok v
      | None => Raise (KeyError key)
      end
  | _ => Raise TypeError_subscript
  end.

(** The body of the [try] of [normalize_events] (lines 100-102). *)
Definition parse_event_timestamp (event : json) : result datetime :=
  match subscript event "event_timestamp" with
  | Raise e => Raise e
  | Ok (JStr s) =>
      match datetime_fromisoformat (replace_char "Z" "+00:00" s) with
      | Some ts => Ok ts
      | None => Raise ValueError_isoformat
      end
  | Ok _ => Raise AttributeError_replace
  end.

(** One turn of the loop of [normalize_events] (lines 99-112). *)
Definition normalize_event (event : json) : result NormalizedEvent :=
  match parse_event_timestamp event with
  | Raise _ => Raise (ValueError_invalid_timestamp event)    (* except Exception *)
  | Ok ts =>
      let hour_bucket := replace_minute_second_microsecond ts in
      match subscript event "event_type" with
      | Raise e => Raise e
      | Ok event_type => Ok (mkne hour_bucket event_type)
      end
  end.

(** The loop of [normalize_events] (lines 98-112). *)
Fixpoint normalize_loop (events : list json) (normalized : list NormalizedEvent)
  : result (list NormalizedEvent) :=
  match events with
  | [] => Ok normalized
  | event :: rest =>
      match normalize_event event with
      | Raise e => Raise e
      | Ok record => normalize_loop rest (normalized ++ [record])
      end
  end.

Definition normalize_events (events : list json) : M (list NormalizedEvent) :=
  normalized <- lift (normalize_loop events []) ;;
  logging_info "Normalized %d events into hourly buckets"
               [LInt (Z.of_nat (List.length normalized))] ;;
  ret normalized.

(** *** [aggregate_events] (lines 120-144) *)

(** An item of the aggregation dictionary: the key [(hour, event_type)]
    and its count. *)
Definition entry : Type := (datetime * atom) * Z.

(** [aggregation[key] += 1] on a [defaultdict(int)]: the entry whose key
    equals [key] is incremented in place; a new key is added last, with
    [0 + 1]. *)
Fixpoint increment (key : datetime * atom) (aggregation : list entry)
  : list entry :=
  match aggregation with
  | [] => [(key, 0 + 1)]
  | (k, total) :: rest =>
      if key_eqb k key then (k, total + 1) :: rest
      else (k, total) :: increment key rest
  end.

(** The loop of [aggregate_events] (lines 131-133). *)
Fixpoint aggregate_loop (normalized_events : list NormalizedEvent)
  (aggregation : list entry) : result (list entry) :=
  match normalized_events with
  | [] => Ok aggregation
  | record :: rest =>
      match atom_of_json (ne_event_type record) with
      | None => Raise TypeError_unhashable
      | Some event_type =>
          aggregate_loop rest (increment (ne_hour record, event_type) aggregation)
      end
  end.

(** The record appended for one item [(hour, event_type), total] of the
    dictionary (lines 136-141). *)
Definition record_of_entry (item : entry) : AggregateRecord :=
  mkar (fst (fst item)) (snd (fst item)) (snd item).

Definition aggregate_events (normalized_events : list NormalizedEvent)
  : M (list AggregateRecord) :=
  aggregation <- lift (aggregate_loop normalized_events []) ;;
  let results := map record_of_entry aggregation in
  logging_info "Aggregated into %d hourly records"
               [LInt (Z.of_nat (List.length results))] ;;
  ret results.

(** *** [write_hourly_csv_summaries] (lines 147-192) *)

(** An item of [records_by_hour]: an hour and the records under it. *)
Definition group : Type := datetime * list AggregateRecord.

(** [records_by_hour.setdefault(hour, []).append(record)]. *)
Fixpoint setdefault_append (hour : datetime) (record : AggregateRecord)
  (records_by_hour : list group) : list group :=
  match records_by_hour with
  | [] => [(hour, [record])]
  | (h, records) :: rest =>
      if datetime_eqb h hour then (h, records ++ [record]) :: rest
      else (h, records) :: setdefault_append hour record rest
  end.

(** One turn of the grouping loop (lines 157-159). *)
Definition group_step (records_by_hour : list group) (record : AggregateRecord)
  : list group :=
  setdefault_append (ar_hour record) record records_by_hour.

(** The grouping loop (lines 155-159). *)
Definition group_by_hour (aggregated_results : list AggregateRecord) : list group :=
  fold_left group_step aggregated_results [].

(** The path of one hour (lines 162-169). *)
Definition output_path (hour : datetime) : string :=
  "summaries/" ++ strftime_Y hour ++ "/" ++ strftime_m hour ++ "/" ++
  strftime_d hour ++ "/hour=" ++ strftime_H hour ++ "/summary.csv".

(** [writer.writerow(["hour", "event_type", "total_events"])]. *)
Definition csv_header : string := writerow ["hour"; "event_type"; "total_events"].

(** The row written for one record (lines 180-184). *)
Definition csv_data_row (r : AggregateRecord) : string :=
  writerow [isoformat (ar_hour r); csv_text (ar_event_type r);
            str_of_int (ar_total_events r)].

(** [buffer.getvalue()] after the header and the rows of one group. *)
Definition csv_document (records : list AggregateRecord) : string :=
  csv_header ++ String.concat "" (map csv_data_row records).

(** The writing loop of [write_hourly_csv_summaries] (lines 161-190). *)
Fixpoint write_loop (output_bucket : string)
  (records_by_hour : list group) : M unit :=
  match records_by_hour with
  | [] => ret tt
  | (hour, records) :: rest =>
      let output_path := output_path hour in
      logging_info "Writing CSV for hour %s to %s" [LDatetime hour; LStr output_path] ;;
      upload_from_string output_bucket output_path (csv_document records) "text/csv" ;;
      write_loop output_bucket rest
  end.

Definition write_hourly_csv_summaries (aggregated_results : list AggregateRecord)
  (output_bucket : string) : M unit :=
  write_loop output_bucket (group_by_hour aggregated_results) ;;
  logging_info "Finished writing CSV summaries" [].

(** *** [main] (lines 198-262) *)

(** [int(value)] for what [get_env_var] returned. *)
Definition int_of_value (value : option string) : result Z :=
  match value with
  | None => Raise TypeError_int_none
  | Some s =>
      match int_of_str s with
      | Some n => Ok n
      | None => Raise (ValueError_int_literal s)
      end
  end.

(** A value [get_env_var] returned, where the job uses it as a [str]
    (a required variable is never [None], see [get_env_var_required]). *)
Definition as_str (value : option string) : string :=
  match value with Some s => s | None => "None" end.

Record configuration : Type := mkconfig {
  input_bucket : string;
  output_bucket : string;
  input_prefix : string;
  lookback_hours : Z }.

(** Lines 201-204 of [main]. *)
Definition load_configuration : result configuration :=
  match get_env_var "INPUT_BUCKET" true None with
  | Raise e => Raise e
  | Ok input_bucket =>
  match get_env_var "OUTPUT_BUCKET" true None with
  | Raise e => Raise e
  | Ok output_bucket =>
  match get_env_var "INPUT_PREFIX" true (Some "events/") with
  | Raise e => Raise e
  | Ok input_prefix =>
  match get_env_var "LOOKBACK_HOURS" true (Some "24") with
  | Raise e => Raise e
  | Ok lookback =>
  match int_of_value lookback with
  | Raise e => Raise e
  | Ok lookback_hours =>
      Ok (mkconfig (as_str input_bucket) (as_str output_bucket)
                   (as_str input_prefix) lookback_hours)
  end end end end end.

(** The loop of [main] over the aggregated records (lines 242-248). *)
Fixpoint log_records (aggregated_results : list AggregateRecord) : M unit :=
  match aggregated_results with
  | [] => ret tt
  | record :: rest =>
      logging_info "Hour=%s | Type=%s | Count=%d"
                   [LDatetime (ar_hour record); LAtom (ar_event_type record);
                    LInt (ar_total_events record)] ;;
      log_records rest
  end.

Definition main : M unit :=
  logging_info "Cloud Run Job started" [] ;;
  cfg <- lift load_configuration ;;
  logging_info "Configuration loaded:" [] ;;
  logging_info "INPUT_BUCKET=%s" [LStr (input_bucket cfg)] ;;
  logging_info "OUTPUT_BUCKET=%s" [LStr (output_bucket cfg)] ;;
  logging_info "INPUT_PREFIX=%s" [LStr (input_prefix cfg)] ;;
  logging_info "LOOKBACK_HOURS=%d" [LInt (lookback_hours cfg)] ;;
  eligible_files <-
    list_eligible_json_files (input_bucket cfg) (input_prefix cfg) (lookback_hours cfg) ;;
  logging_info "Job finished file discovery phase" [] ;;
  match eligible_files with
  | [] => logging_info "No eligible files to process. Exiting job." []
  | _ :: _ =>
      events <- download_and_parse_events eligible_files ;;
      logging_info "Job finished JSON parsing phase" [] ;;
      normalized_events <- normalize_events events ;;
      logging_info "Job finished event normalization phase" [] ;;
      aggregated_results <- aggregate_events normalized_events ;;
      log_records aggregated_results ;;
      logging_info "Job finished aggregation phase" [] ;;
      write_hourly_csv_summaries aggregated_results (output_bucket cfg) ;;
      logging_info "Job finished CSV writing phase" [] ;;
      logging_info "Cloud Run Job completed successfully" []
  end.

End Job.

(* ================================================================== *)
(** * Part II: reference instances of the library functions *)

(** Executable readings of the four library functions, each for the
    inputs its comment names.  The theorems about the job hold for every
    instance; these ones serve to run the job on concrete inputs. *)

Module Std.

Definition digit_value (c : ascii) : option Z :=
  let n := Z.of_nat (nat_of_ascii c) in
  if (48 <=? n) && (n <=? 57) then Some (n - 48) else None.

(** The value of a string of ASCII digits ([None] when empty or when a
    character is no digit). *)
Fixpoint digits_value_from (acc : Z) (s : string) : option Z :=
  match s with
  | EmptyString => Some acc
  | String c t =>
      match digit_value c with
      | Some d => digits_value_from (acc * 10 + d) t
      | None => None
      end
  end.

Definition digits_value (s : string) : option Z :=
  match s with
  | EmptyString => None
  | _ => digits_value_from 0 s
  end.

(** ** [int(s)], for ASCII text: optional surrounding whitespace (space,
    tab, line feed, vertical tab, form feed, carriage return), an
    optional sign, decimal digits with single underscores between them. *)

Definition is_space (c : ascii) : bool :=
  let n := nat_of_ascii c in
  ((9 <=? n) && (n <=? 13) || (n =? 32))%nat.

Fixpoint lstrip (s : string) : string :=
  match s with
  | EmptyString => EmptyString
  | String c t => if is_space c then lstrip t else s
  end.

Definition reverse (s : string) : string :=
  string_of_list_ascii (rev (list_ascii_of_string s)).

Definition strip (s : string) : string := reverse (lstrip (reverse (lstrip s))).

(** Digits and underscores: [prev_digit] tells whether the character
    before was a digit (an underscore must stand between two digits). *)
Fixpoint int_digits (prev_digit : bool) (acc : Z) (s : string) : option Z :=
  match s with
  | EmptyString => if prev_digit then Some acc else None
  | String c t =>
      match digit_value c with
      | Some d => int_digits true (acc * 10 + d) t
      | None =>
          if Ascii.eqb c "_"%char && prev_digit
          then match t with
               | String c' _ => if is_None (digit_value c') then None
                                else int_digits false acc t
               | EmptyString => None
               end
          else None
      end
  end.

Definition int_of_str (s : string) : option Z :=
  match strip s with
  | String "-"%char t => option_map Z.opp (int_digits false 0 t)
  | String "+"%char t => int_digits false 0 t
  | t => int_digits false 0 t
  end.

(** ** [datetime.fromisoformat(s)], for the format of [isoformat()]:
    [YYYY-MM-DD[*HH[:MM[:SS[.fff[fff]]]][+HH:MM[:SS[.ffffff]]]]]
    with [*] any one character.  This is what Python 3.7 to 3.10 accept;
    from 3.11 on the function reads further ISO 8601 forms, which this
    instance does not. *)

Definition take (n : nat) (s : string) : string := substring 0 n s.
Definition drop (n : nat) (s : string) : string := substring n (String.length s - n) s.

Definition fixed_digits (n : nat) (s : string) : option Z :=
  if (String.length s =? n)%nat then digits_value s else None.

(** [HH[:MM[:SS[.fff[fff]]]]] as hour, minute, second, microsecond. *)
Definition parse_hh_mm_ss_ff (s : string) : option (Z * Z * Z * Z) :=
  let field (at_ : nat) := fixed_digits 2 (substring at_ 2 s) in
  let colon (at_ : nat) := (substring at_ 1 s =? ":")%string in
  match String.length s with
  | 2%nat =>
      match field 0%nat with Some h => Some (h, 0, 0, 0) | None => None end
  | 5%nat =>
      match field 0%nat, field 3%nat with
      | Some h, Some m => if colon 2%nat then Some (h, m, 0, 0) else None
      | _, _ => None
      end
  | 8%nat =>
      match field 0%nat, field 3%nat, field 6%nat with
      | Some h, Some m, Some sec =>
          if colon 2%nat && colon 5%nat then Some (h, m, sec, 0) else None
      | _, _, _ => None
      end
  | n =>
      if ((n =? 12) || (n =? 15))%nat
      then
        match field 0%nat, field 3%nat, field 6%nat, digits_value (drop 9 s) with
        | Some h, Some m, Some sec, Some f =>
            if colon 2%nat && colon 5%nat && (substring 8 1 s =? ".")%string
            then Some (h, m, sec, if (n =? 12)%nat then f * 1000 else f)
            else None
        | _, _, _, _ => None
        end
      else None
  end.

(** The position of the first [+] or [-], if any. *)
Fixpoint find_sign (s : string) (at_ : nat) : option (nat * bool) :=
  match s with
  | EmptyString => None
  | String c t =>
      if Ascii.eqb c "+"%char then Some (at_, false)
      else if Ascii.eqb c "-"%char then Some (at_, true)
      else find_sign t (S at_)
  end.

Definition parse_offset (negative : bool) (s : string) : option (option Z) :=
  let n := String.length s in
  if ((n =? 5) || (n =? 8) || (n =? 15))%nat
  then
    match parse_hh_mm_ss_ff s with
    | Some (h, m, sec, us) =>
        let off := ((h * 3600 + m * 60 + sec) * 1000000 + us) in
        Some (Some (if negative then - off else off))
    | None => None
    end
  else None.

Definition parse_isoformat_time (s : string) : option (Z * Z * Z * Z * option Z) :=
  match find_sign s 0 with
  | None =>
      match parse_hh_mm_ss_ff s with
      | Some t => Some (t, None)
      | None => None
      end
  | Some (at_, negative) =>
      match parse_hh_mm_ss_ff (take at_ s), parse_offset negative (drop (S at_) s) with
      | Some t, Some tz => Some (t, tz)
      | _, _ => None
      end
  end.

Definition checked (d : datetime) : option datetime :=
  if valid_datetime d then Some d else None.

Definition datetime_fromisoformat (s : string) : option datetime :=
  let date := take 10 s in
  match fixed_digits 4 (take 4 date), fixed_digits 2 (substring 5 2 date),
        fixed_digits 2 (substring 8 2 date) with
  | Some y, Some m, Some d =>
      if (substring 4 1 date =? "-")%string && (substring 7 1 date =? "-")%string
      then
        if (String.length s =? 10)%nat then checked (mkdt y m d 0 0 0 0 None)
        else
          match parse_isoformat_time (drop 11 s) with
          | Some (h, mi, sec, us, tz) => checked (mkdt y m d h mi sec us tz)
          | None => None
          end
      else None
  | _, _, _ => None
  end.

(** ** [data.decode("utf-8")]: the bytes must be well-formed UTF-8 (no
    overlong form, no surrogate, nothing above U+10FFFF); the text is
    then those bytes. *)

Definition byte_value (b : byte) : Z := Z.of_N (Byte.to_N b).

Definition continuation (b : byte) : bool :=
  (128 <=? byte_value b) && (byte_value b <=? 191).

Definition between (lo hi : Z) (b : byte) : bool :=
  (lo <=? byte_value b) && (byte_value b <=? hi).

Fixpoint utf8_well_formed (data : list byte) : bool :=
  match data with
  | [] => true
  | b0 :: rest =>
      if between 0 127 b0 then utf8_well_formed rest
      else
        match rest with
        | [] => false
        | b1 :: rest1 =>
            if between 194 223 b0 then continuation b1 && utf8_well_formed rest1
            else
              match rest1 with
              | [] => false
              | b2 :: rest2 =>
                  if between 224 239 b0 then
                    (if between 224 224 b0 then between 160 191 b1
                     else if between 237 237 b0 then between 128 159 b1
                     else continuation b1)
                    && continuation b2 && utf8_well_formed rest2
                  else
                    match rest2 with
                    | [] => false
                    | b3 :: rest3 =>
                        between 240 244 b0
                        && (if between 240 240 b0 then between 144 191 b1
                            else if between 244 244 b0 then between 128 143 b1
                            else continuation b1)
                        && continuation b2 && continuation b3
                        && utf8_well_formed rest3
                    end
              end
        end
  end.

Definition bytes_decode_utf8 (data : list byte) : option string :=
  if utf8_well_formed data then Some (string_of_list_byte data) else None.

(** ** [json.loads(content)], for JSON without floats: [null], [true],
    [false], integers, strings, arrays and objects.  A number with a
    fraction or an exponent, [NaN] and [Infinity], and a [\u] escape of a
    surrogate are outside the model and read as [None].  Nesting is read
    to any depth, where [json.loads] gives up with [RecursionError]. *)

Definition is_json_space (c : ascii) : bool :=
  Ascii.eqb c " "%char || Ascii.eqb c "009"%char || Ascii.eqb c LF || Ascii.eqb c CR.

Fixpoint skip_ws (s : string) : string :=
  match s with
  | EmptyString => EmptyString
  | String c t => if is_json_space c then skip_ws t else s
  end.

Definition hex_value (c : ascii) : option Z :=
  let n := Z.of_nat (nat_of_ascii c) in
  if (48 <=? n) && (n <=? 57) then Some (n - 48)
  else if (65 <=? n) && (n <=? 70) then Some (n - 55)
  else if (97 <=? n) && (n <=? 102) then Some (n - 87)
  else None.

Definition hex4 (s : string) : option (Z * string) :=
  match s with
  | String a (String b (String c (String d t))) =>
      match hex_value a, hex_value b, hex_value c, hex_value d with
      | Some x, Some y, Some z, Some w => Some (((x * 16 + y) * 16 + z) * 16 + w, t)
      | _, _, _, _ => None
      end
  | _ => None
  end.

Definition chr (n : Z) : ascii := ascii_of_nat (Z.to_nat n).

(** The UTF-8 encoding of a code point of the basic plane that is no
    surrogate. *)
Definition utf8_encode (cp : Z) : option string :=
  if cp <? 128 then Some (String (chr cp) EmptyString)
  else if cp <? 2048 then
    Some (String (chr (192 + cp / 64)) (String (chr (128 + cp mod 64)) EmptyString))
  else if (55296 <=? cp) && (cp <=? 57343) then None
  else
    Some (String (chr (224 + cp / 4096))
         (String (chr (128 + (cp / 64) mod 64))
         (String (chr (128 + cp mod 64)) EmptyString))).

(** The characters of a string literal after its opening quote, up to
    the closing quote; the rest of the input follows. *)
Fixpoint scan_string (fuel : nat) (s : string) (acc : string) : option (string * string) :=
  match fuel with
  | O => None
  | S fuel' =>
      match s with
      | EmptyString => None
      | String c t =>
          if Ascii.eqb c DQUOTE then Some (acc, t)
          else if Ascii.eqb c "\"%char then
            match t with
            | String e t' =>
                let simple (x : ascii) :=
                  scan_string fuel' t' (acc ++ String x EmptyString) in
                if Ascii.eqb e DQUOTE then simple DQUOTE
                else if Ascii.eqb e "\"%char then simple "\"%char
                else if Ascii.eqb e "/"%char then simple "/"%char
                else if Ascii.eqb e "b"%char then simple "008"%char
                else if Ascii.eqb e "f"%char then simple "012"%char
                else if Ascii.eqb e "n"%char then simple LF
                else if Ascii.eqb e "r"%char then simple CR
                else if Ascii.eqb e "t"%char then simple "009"%char
                else if Ascii.eqb e "u"%char then
                  match hex4 t' with
                  | Some (cp, t'') =>
                      match utf8_encode cp with
                      | Some enc => scan_string fuel' t'' (acc ++ enc)
                      | None => None
                      end
                  | None => None
                  end
                else None
            | EmptyString => None
            end
          else if (nat_of_ascii c <? 32)%nat then None
          else scan_string fuel' t (acc ++ String c EmptyString)
      end
  end.

(** The digits at the head of [s], and what follows them. *)
Fixpoint span_digits (s : string) : string * string :=
  match s with
  | EmptyString => (EmptyString, EmptyString)
  | String c t =>
      if is_None (digit_value c) then (EmptyString, s)
      else let (ds, rest) := span_digits t in (String c ds, rest)
  end.

Definition starts_float_tail (s : string) : bool :=
  match s with
  | String c _ => Ascii.eqb c "."%char || Ascii.eqb c "e"%char || Ascii.eqb c "E"%char
  | EmptyString => false
  end.

Definition scan_int (s : string) : option (Z * string) :=
  let (negative, body) :=
    match s with
    | String "-"%char t => (true, t)
    | _ => (false, s)
    end in
  let (ds, rest) := span_digits body in
  match ds with
  | EmptyString => None
  | String "0"%char (String _ _) => None          (* no leading zero *)
  | _ =>
      if starts_float_tail rest then None
      else match digits_value ds with
           | Some n => Some (if negative then - n else n, rest)
           | None => None
           end
  end.

(** [d[key] = v] on a dict under construction: a key read twice keeps
    its place and takes the later value. *)
Fixpoint dict_set (key : string) (v : json) (items : list (string * json))
  : list (string * json) :=
  match items with
  | [] => [(key, v)]
  | (k, x) :: rest =>
      if (k =? key)%string then (k, v) :: rest else (k, x) :: dict_set key v rest
  end.

Definition literal (word : string) (v : json) (s : string) : option (json * string) :=
  if String.prefix word s then Some (v, drop (String.length word) s) else None.

Fixpoint scan_value (fuel : nat) (s : string) : option (json * string) :=
  match fuel with
  | O => None
  | S fuel' =>
      match s with
      | EmptyString => None
      | String c t =>
          if Ascii.eqb c "["%char then
            match skip_ws t with
            | String "]"%char t' => Some (JArr [], t')
            | t' => scan_elements fuel' t' []
            end
          else if Ascii.eqb c "{"%char then
            match skip_ws t with
            | String "}"%char t' => Some (JObj [], t')
            | t' => scan_members fuel' t' []
            end
          else if Ascii.eqb c DQUOTE then
            match scan_string (String.length t) t EmptyString with
            | Some (text, t') => Some (JStr text, t')
            | None => None
            end
          else if Ascii.eqb c "n"%char then literal "null" JNull s
          else if Ascii.eqb c "t"%char then literal "true" (JBool true) s
          else if Ascii.eqb c "f"%char then literal "false" (JBool false) s
          else match scan_int s with
               | Some (n, t') => Some (JInt n, t')
               | None => None
               end
      end
  end

with scan_elements (fuel : nat) (s : string) (acc : list json) : option (json * string) :=
  match fuel with
  | O => None
  | S fuel' =>
      match scan_value fuel' s with
      | Some (v, t) =>
          match skip_ws t with
          | String ","%char t' => scan_elements fuel' (skip_ws t') (acc ++ [v])
          | String "]"%char t' => Some (JArr (acc ++ [v]), t')
          | _ => None
          end
      | None => None
      end
  end

with scan_members (fuel : nat) (s : string) (acc : list (string * json))
  : option (json * string) :=
  match fuel with
  | O => None
  | S fuel' =>
      match s with
      | String c t =>
          if Ascii.eqb c DQUOTE then
            match scan_string (String.length t) t EmptyString with
            | Some (key, t1) =>
                match skip_ws t1 with
                | String ":"%char t2 =>
                    match scan_value fuel' (skip_ws t2) with
                    | Some (v, t3) =>
                        match skip_ws t3 with
                        | String ","%char t4 =>
                            scan_members fuel' (skip_ws t4) (dict_set key v acc)
                        | String "}"%char t4 => Some (JObj (dict_set key v acc), t4)
                        | _ => None
                        end
                    | None => None
                    end
                | _ => None
                end
            | None => None
            end
          else None
      | EmptyString => None
      end
  end.

Definition json_loads (content : string) : option json :=
  match scan_value (2 * String.length content + 2) (skip_ws content) with
  | Some (v, rest) =>
      match skip_ws rest with
      | EmptyString => Some v
      | _ => None
      end
  | None => None
  end.

End Std.

(* ================================================================== *)
(** * Part III: the vocabulary of the statements *)

(** ** Equality of keys *)

(** Python's [==] on datetimes and on key atoms is an equivalence: each
    value has a canonical form, and two values are equal exactly when
    their canonical forms are the same. *)

Definition datetime_canon (d : datetime) : Z + (Z * Z * Z * Z * Z * Z * Z) :=
  match dt_tzinfo d with
  | Some off => inl (wall_micros d - off)
  | None => inr (dt_year d, dt_month d, dt_day d, dt_hour d, dt_minute d,
                 dt_second d, dt_microsecond d)
  end.

Definition atom_canon (a : atom) : atom :=
  match a with
  | KBool b => KInt (if b then 1 else 0)
  | _ => a
  end.

Definition key_canon (k : datetime * atom) :=
  (datetime_canon (fst k), atom_canon (snd k)).

Definition leap_day (y : Z) : Z := if is_leap y then 1 else 0.

(** ** The aggregation dictionary and its records *)

(** The totals held under keys equal to [k], added up. *)
Fixpoint total_for (k : datetime * atom) (aggregation : list entry) : Z :=
  match aggregation with
  | [] => 0
  | (k', n) :: rest => (if key_eqb k' k then n else 0) + total_for k rest
  end.

Fixpoint sum_totals (aggregation : list entry) : Z :=
  match aggregation with
  | [] => 0
  | (_, n) :: rest => n + sum_totals rest
  end.

(** No two entries have equal keys. *)
Definition distinct_keys (aggregation : list entry) : Prop :=
  ForallOrdPairs (fun a b => key_eqb (fst a) (fst b) = false) aggregation.

(** The dictionary key [aggregate_events] builds for an event, when its
    [event_type] is hashable. *)
Definition event_key (e : NormalizedEvent) : option (datetime * atom) :=
  match atom_of_json (ne_event_type e) with
  | Some a => Some (ne_hour e, a)
  | None => None
  end.

Definition hashable (v : json) : bool := negb (is_None (atom_of_json v)).

(** The event's key equals [k]. *)
Definition shares_key (k : datetime * atom) (e : NormalizedEvent) : bool :=
  match event_key e with
  | Some k' => key_eqb k' k
  | None => false
  end.

(** The number of events whose key equals [k]. *)
Definition events_with_key (k : datetime * atom) (events : list NormalizedEvent) : Z :=
  Z.of_nat (List.length (filter (shares_key k) events)).

Definition record_key (r : AggregateRecord) : datetime * atom :=
  (ar_hour r, ar_event_type r).

(** [r1 == r2] on two records (dicts with the same three keys). *)
Definition record_eqb (r1 r2 : AggregateRecord) : bool :=
  key_eqb (record_key r1) (record_key r2)
  && (ar_total_events r1 =? ar_total_events r2).

Definition sum_total_events (records : list AggregateRecord) : Z :=
  fold_right Z.add 0 (map ar_total_events records).

(** An event as the data model types it: the hour a valid UTC datetime,
    the event type a string. *)
Definition well_typed_event (e : NormalizedEvent) : Prop :=
  valid_datetime (ne_hour e) = true /\ dt_tzinfo (ne_hour e) = UTC
  /\ exists s, ne_event_type e = JStr s.

Definition well_typed_key (k : datetime * atom) : Prop :=
  valid_datetime (fst k) = true /\ dt_tzinfo (fst k) = UTC
  /\ exists s, snd k = KStr s.

(** ** The eligibility filter *)

(** The test the loop applies to one blob. *)
Definition eligible (cutoff_time : Z) (b : blob) : bool :=
  endswith (blob_name b) ".json" && (blob_updated b <? cutoff_time).

Definition found_file (b : blob) : log_record :=
  mklog INFO "Found file: %s | updated: %s" [LStr (blob_name b); LInstant (blob_updated b)].

(** ** The event parser *)

Section ParserTerms.

Variable bytes_decode_utf8 : list byte -> option string.
Variable json_loads : string -> option json.

(** What one file contributes: its array, or the exception it causes. *)
Definition parse_blob (b : blob) : result (list json) :=
  match bytes_decode_utf8 (blob_bytes b) with
  | None => Raise UnicodeDecodeError
  | Some content =>
      match json_loads content with
      | None => Raise JSONDecodeError
      | Some (JArr events) => Ok events
      | Some _ => Raise (ValueError_expected_array (blob_name b))
      end
  end.

(** The file holds a JSON array, [events]. *)
Definition holds_array (b : blob) (events : list json) : Prop :=
  exists content,
    bytes_decode_utf8 (blob_bytes b) = Some content
    /\ json_loads content = Some (JArr events).

End ParserTerms.

Section ParserOutcome.

Variable bytes_decode_utf8 : list byte -> option string.
Variable json_loads : string -> option json.

(** What a list of files contributes: the arrays one after the other, or
    the exception of the first file that does not hold an array. *)
Fixpoint parse_blobs (blobs : list blob) : result (list json) :=
  match blobs with
  | [] => Ok []
  | b :: rest =>
      match parse_blob bytes_decode_utf8 json_loads b with
      | Raise e => Raise e
      | Ok events =>
          match parse_blobs rest with
          | Raise e => Raise e
          | Ok more => Ok (events ++ more)
          end
      end
  end.

(** The files the loop downloads: all of them up to and including the
    first that does not hold an array. *)
Fixpoint files_read (blobs : list blob) : list blob :=
  match blobs with
  | [] => []
  | b :: rest =>
      b :: match parse_blob bytes_decode_utf8 json_loads b with
           | Ok _ => files_read rest
           | Raise _ => []
           end
  end.

(** The line [logging.error] writes before the exception of a file is
    raised again; a file whose JSON value is no array gets none. *)
Definition error_line (b : blob) : list log_record :=
  match bytes_decode_utf8 (blob_bytes b) with
  | None => [mklog ERROR "Failed to decode file %s as UTF-8" [LStr (blob_name b)]]
  | Some content =>
      match json_loads content with
      | None => [mklog ERROR "Invalid JSON in file %s" [LStr (blob_name b)]]
      | Some _ => []
      end
  end.

End ParserOutcome.

(** ** The partitioned writer *)

(** [records_by_hour.get(hour, [])]. *)
Fixpoint records_for (hour : datetime) (records_by_hour : list group)
  : list AggregateRecord :=
  match records_by_hour with
  | [] => []
  | (h, records) :: rest =>
      if datetime_eqb h hour then records else records_for hour rest
  end.

Definition hours_distinct (records_by_hour : list group) : Prop :=
  ForallOrdPairs (fun g1 g2 => datetime_eqb (fst g1) (fst g2) = false) records_by_hour.

Definition upload_of_group (output_bucket : string) (g : group) : upload :=
  mkupload output_bucket (output_path (fst g)) (csv_document (snd g)) "text/csv".

Definition writing_csv (g : group) : log_record :=
  mklog INFO "Writing CSV for hour %s to %s"
        [LDatetime (fst g); LStr (output_path (fst g))].


(** The character that separates the parts of a path. *)
Definition is_slash (c : ascii) : bool := Ascii.eqb c "/"%char.


(** The hours have the same calendar date and the same hour of the day. *)
Definition same_clock_hour (h1 h2 : datetime) : Prop :=
  dt_year h1 = dt_year h2 /\ dt_month h1 = dt_month h2
  /\ dt_day h1 = dt_day h2 /\ dt_hour h1 = dt_hour h2.

(** ** Configuration and the run *)

(** The text [int] is applied to: the variable [LOOKBACK_HOURS], or the
    default ["24"]. *)
Definition lookback_text (os_getenv : string -> option string) : string :=
  match os_getenv "LOOKBACK_HOURS" with Some text => text | None => "24" end.

(** The log lines only the stages after discovery write. *)
Definition later_stage_formats : list string :=
  [ "Downloading file: %s"; "Failed to decode file %s as UTF-8";
    "Invalid JSON in file %s"; "Parsed %d events from %s";
    "Total events parsed across all files: %d"; "Job finished JSON parsing phase";
    "Normalized %d events into hourly buckets";
    "Job finished event normalization phase";
    "Aggregated into %d hourly records"; "Hour=%s | Type=%s | Count=%d";
    "Job finished aggregation phase"; "Writing CSV for hour %s to %s";
    "Finished writing CSV summaries"; "Job finished CSV writing phase";
    "Cloud Run Job completed successfully" ].

Definition is_later_stage (r : log_record) : bool :=
  existsb (String.eqb (log_format r)) later_stage_formats.

(** What a computation does to the world apart from the log: it ends with
    [outcome], downloads the blobs named [read] and uploads [written]. *)
Definition effects {A} (c : M A) (w : world) (outcome : result A)
  (read : list string) (written : list upload) : Prop :=
  exists lines,
    c w = (outcome,
           mkworld (w_log w ++ lines) (w_downloads w ++ read) (w_uploads w ++ written)).

Section RunOutcome.

Variable bytes_decode_utf8 : list byte -> option string.
Variable json_loads : string -> option json.
Variable datetime_fromisoformat : string -> option datetime.
Variable now_utc : Z.
Variable bucket_objects : string -> list blob.

(** The stages of a run on a loaded configuration, without the log: the
    outcome, the files downloaded and the documents uploaded. *)
Definition run_stages (cfg : configuration)
  : result unit * list blob * list upload :=
  match minus_hours now_utc (lookback_hours cfg) with
  | Raise e => (Raise e, [], [])
  | Ok cutoff_time =>
      match filter (eligible cutoff_time)
                   (list_blobs bucket_objects (input_bucket cfg) (input_prefix cfg)) with
      | [] => (Ok tt, [], [])
      | (_ :: _) as eligible_files =>
          let read := files_read bytes_decode_utf8 json_loads eligible_files in
          match parse_blobs bytes_decode_utf8 json_loads eligible_files with
          | Raise e => (Raise e, read, [])
          | Ok events =>
              match normalize_loop datetime_fromisoformat events [] with
              | Raise e => (Raise e, read, [])
              | Ok normalized_events =>
                  match aggregate_loop normalized_events [] with
                  | Raise e => (Raise e, read, [])
                  | Ok aggregation =>
                      (Ok tt, read,
                       map (upload_of_group (output_bucket cfg))
                           (group_by_hour (map record_of_entry aggregation)))
                  end
              end
          end
      end
  end.

End RunOutcome.

(** ** Concrete inputs *)

Module Examples.

Definition w0 : world := mkworld [] [] [].

(** JSON text written with ['] for the double quote. *)
Definition json_text (s : string) : list byte :=
  list_byte_of_string (replace_char "'"%char (String DQUOTE EmptyString) s).

(** The instant of a UTC wall-clock reading. *)
Definition at_utc (year month day hour minute second : Z) : Z :=
  wall_micros (mkdt year month day hour minute second 0 UTC).

Definition now_utc : Z := at_utc 2024 3 2 12 0 0.
Definition cutoff_24h : Z := at_utc 2024 3 1 12 0 0.

Definition clicks : blob :=
  mkblob "events/clicks.json" (at_utc 2024 3 1 11 0 0)
    (json_text "[{'event_timestamp': '2024-03-01T13:47:22Z', 'event_type': 'click'},
                 {'event_timestamp': '2024-03-01T13:05:00+00:00', 'event_type': 'click'},
                 {'event_timestamp': '2024-03-01T13:59:59Z', 'event_type': 'click',
                  'user': 7}]").

Definition views : blob :=
  mkblob "events/views.json" (at_utc 2024 3 1 11 59 59)
    (json_text "[{'event_timestamp': '2024-03-01T13:10:00Z', 'event_type': 'view'},
                 {'event_timestamp': '2024-03-01T13:20:00Z', 'event_type': 'view'}]").

(** Modified exactly at the cutoff. *)
Definition at_cutoff : blob :=
  mkblob "events/at_cutoff.json" cutoff_24h
    (json_text "[{'event_timestamp': '2024-03-01T09:00:00Z', 'event_type': 'late'}]").

(** Modified after the cutoff. *)
Definition recent : blob :=
  mkblob "events/recent.json" (at_utc 2024 3 2 11 0 0)
    (json_text "[{'event_timestamp': '2024-03-02T10:00:00Z', 'event_type': 'click'}]").

Definition upper_case : blob :=
  mkblob "events/old.JSON" (at_utc 2024 2 1 0 0 0) (json_text "[]").

Definition readme : blob :=
  mkblob "events/README.txt" (at_utc 2024 2 1 0 0 0) (json_text "not json").

(** A JSON object at the top level. *)
Definition object_file : blob :=
  mkblob "events/object.json" (at_utc 2024 3 1 1 0 0)
    (json_text "{'event_timestamp': '2024-03-01T13:47:22Z', 'event_type': 'click'}").

Definition truncated_file : blob :=
  mkblob "events/truncated.json" (at_utc 2024 3 1 1 0 0) (json_text "[{'event_type': ").


Definition bucket_objects (bucket_name : string) : list blob :=
  if (bucket_name =? "raw-events")%string
  then [clicks; views; at_cutoff; recent; upper_case; readme]
  else if (bucket_name =? "quiet")%string then [at_cutoff; recent; upper_case; readme]
  else [].

Definition environ (name : string) : option string :=
  if (name =? "INPUT_BUCKET")%string then Some "raw-events"
  else if (name =? "OUTPUT_BUCKET")%string then Some "summaries-out"
  else None.

Definition environ_quiet (name : string) : option string :=
  if (name =? "INPUT_BUCKET")%string then Some "quiet"
  else if (name =? "OUTPUT_BUCKET")%string then Some "summaries-out"
  else if (name =? "LOOKBACK_HOURS")%string then Some "24"
  else None.

Definition environ_negative (name : string) : option string :=
  if (name =? "LOOKBACK_HOURS")%string then Some "-5" else environ name.

Definition click_event (timestamp : string) : json :=
  JObj [("event_timestamp", JStr timestamp); ("event_type", JStr "click")].

(** An event with a timestamp and nothing else. *)
Definition no_event_type : json := JObj [("event_timestamp", JStr "2024-03-01T13:47:22Z")].

Definition hour13 : datetime := mkdt 2024 3 1 13 0 0 0 UTC.
Definition hour14 : datetime := mkdt 2024 3 1 14 0 0 0 UTC.

Definition normalized : list NormalizedEvent :=
  [mkne hour13 (JStr "click"); mkne hour13 (JStr "view");
   mkne hour14 (JStr "click"); mkne hour13 (JStr "click")].

Definition normalized_reordered : list NormalizedEvent :=
  [mkne hour13 (JStr "view"); mkne hour13 (JStr "click");
   mkne hour13 (JStr "click"); mkne hour14 (JStr "click")].

Definition aggregated : list AggregateRecord :=
  [mkar hour13 (KStr "click") 5; mkar hour14 (KStr "click") 2].

Definition run_job (env : string -> option string) : result unit * world :=
  main Std.bytes_decode_utf8 Std.json_loads Std.datetime_fromisoformat Std.int_of_str
       env now_utc bucket_objects w0.

(** An event whose timestamp is no ISO-8601 text. *)
Definition bad_timestamp : json :=
  JObj [("event_timestamp", JStr "yesterday"); ("event_type", JStr "click")].

(** A file that holds the empty array. *)
Definition empty_array : blob :=
  mkblob "events/empty.json" (at_utc 2024 2 1 0 0 0) (json_text "[]").

(** Two more buckets: one whose only eligible file holds no event, and
    one with a file that holds a JSON object between two good files. *)
Definition spare_buckets (bucket_name : string) : list blob :=
  if (bucket_name =? "idle")%string then [empty_array; readme]
  else if (bucket_name =? "broken")%string then [clicks; object_file; views]
  else [].

Definition environ_idle (name : string) : option string :=
  if (name =? "INPUT_BUCKET")%string then Some "idle"
  else if (name =? "OUTPUT_BUCKET")%string then Some "summaries-out"
  else None.

Definition environ_broken (name : string) : option string :=
  if (name =? "INPUT_BUCKET")%string then Some "broken"
  else if (name =? "OUTPUT_BUCKET")%string then Some "summaries-out"
  else None.

Definition run_job_in (buckets : string -> list blob) (env : string -> option string)
  : result unit * world :=
  main Std.bytes_decode_utf8 Std.json_loads Std.datetime_fromisoformat Std.int_of_str
       env now_utc buckets w0.

(** The events of [clicks] and [views], parsed and normalized. *)
Definition parsed : list json :=
  Eval vm_compute in
    match fst (download_and_parse_events Std.bytes_decode_utf8 Std.json_loads
                 [clicks; views] w0) with
    | Ok events => events
    | Raise _ => []
    end.

Definition parsed_normalized : list NormalizedEvent :=
  Eval vm_compute in
    match fst (normalize_events Std.datetime_fromisoformat parsed w0) with
    | Ok normalized_events => normalized_events
    | Raise _ => []
    end.

(** 13:00 on the wall clock, 05:30 ahead of UTC: the instant 07:30 UTC. *)
Definition hour13_ahead : datetime := mkdt 2024 3 1 13 0 0 0 (Some 19800000000).


End Examples.

(* ================================================================== *)
(** * Part IV: lemmas and theorems *)

(** ** The model and the reference instances on examples *)

Example isoformat_example :
  isoformat (mkdt 2024 3 1 13 0 0 0 UTC) = "2024-03-01T13:00:00+00:00"
  /\ isoformat (mkdt 2024 3 1 13 0 0 0 (Some 19800000000)) = "2024-03-01T13:00:00+05:30"
  /\ isoformat (mkdt 987 12 31 23 59 7 1500 None) = "0987-12-31T23:59:07.001500"
  /\ ymd2ord 9999 12 31 = MAXORDINAL
  /\ ymd2ord 1 1 1 = 1.
Proof. repeat split; reflexivity. Qed.

Example endswith_is_case_sensitive :
  endswith "events/a.json" ".json" = true
  /\ endswith "events/a.JSON" ".json" = false
  /\ endswith "events/a.json.gz" ".json" = false
  /\ endswith ".json" ".json" = true.
Proof. repeat split; reflexivity. Qed.

Example std_fromisoformat_examples :
  Std.datetime_fromisoformat "2024-03-01T13:47:22+00:00"
  = Some (mkdt 2024 3 1 13 47 22 0 UTC)
  /\ Std.datetime_fromisoformat "2024-03-01T13:47:22+05:30"
     = Some (mkdt 2024 3 1 13 47 22 0 (Some 19800000000))
  /\ Std.datetime_fromisoformat "2024-03-01 13:47:22.250-08:00"
     = Some (mkdt 2024 3 1 13 47 22 250000 (Some (-28800000000)))
  /\ Std.datetime_fromisoformat "2024-03-01T13:47" = Some (mkdt 2024 3 1 13 47 0 0 None)
  /\ Std.datetime_fromisoformat "2024-03-01" = Some (mkdt 2024 3 1 0 0 0 0 None)
  /\ Std.datetime_fromisoformat "2024-02-30T00:00:00" = None
  /\ Std.datetime_fromisoformat "2024-03-01T13:47:22Z" = None
  /\ Std.datetime_fromisoformat "yesterday" = None.
Proof. repeat split; reflexivity. Qed.

Example std_int_of_str_examples :
  Std.int_of_str "24" = Some 24 /\ Std.int_of_str "-5" = Some (-5)
  /\ Std.int_of_str " +1_000 " = Some 1000 /\ Std.int_of_str "0024" = Some 24
  /\ Std.int_of_str "" = None /\ Std.int_of_str "2.5" = None /\ Std.int_of_str "1__0" = None
  /\ Std.int_of_str "- 5" = None /\ Std.int_of_str "12h" = None.
Proof. repeat split; reflexivity. Qed.

Example std_json_loads_examples :
  Std.json_loads "[]" = Some (JArr [])
  /\ Std.json_loads " [1, -20, true, null] "
     = Some (JArr [JInt 1; JInt (-20); JBool true; JNull])
  /\ Std.json_loads "{'a': [{'b': 'x\ny'}], 'a': 2}"%string = None
  /\ Std.json_loads "[1, 2" = None
  /\ Std.json_loads "[1, 2] 3" = None
  /\ Std.json_loads "[01]" = None
  /\ Std.json_loads "" = None.
Proof. repeat split; reflexivity. Qed.

(** ** Equality of keys *)

Lemma datetime_eqb_canon a b :
  datetime_eqb a b = true <-> datetime_canon a = datetime_canon b.
Proof.
  unfold datetime_eqb, datetime_canon.
  destruct (dt_tzinfo a), (dt_tzinfo b); try (split; congruence).
  - rewrite Z.eqb_eq. split; congruence.
  - rewrite !andb_true_iff, !Z.eqb_eq. split.
    + intros [[[[[[-> ->] ->] ->] ->] ->] ->]. reflexivity.
    + intros H. inversion H. repeat split; assumption.
Qed.

Lemma atom_eqb_canon a b : atom_eqb a b = true <-> atom_canon a = atom_canon b.
Proof.
  destruct a as [|[]|x|s], b as [|[]|y|t]; cbn [atom_eqb atom_canon Bool.eqb];
    rewrite ?Z.eqb_eq, ?String.eqb_eq; split; intros H;
    try discriminate; try reflexivity; try congruence; try (inversion H; lia).
Qed.

Lemma key_eqb_canon a b : key_eqb a b = true <-> key_canon a = key_canon b.
Proof.
  unfold key_eqb, key_canon.
  rewrite andb_true_iff, datetime_eqb_canon, atom_eqb_canon.
  split; [intros [-> ->]; reflexivity | intros H; injection H; auto].
Qed.

Lemma key_eqb_refl a : key_eqb a a = true.
Proof. apply key_eqb_canon. reflexivity. Qed.

Lemma key_eqb_sym a b : key_eqb a b = key_eqb b a.
Proof.
  destruct (key_eqb a b) eqn:E, (key_eqb b a) eqn:F; try reflexivity.
  - apply key_eqb_canon in E. symmetry in E. apply key_eqb_canon in E. congruence.
  - apply key_eqb_canon in F. symmetry in F. apply key_eqb_canon in F. congruence.
Qed.

Lemma key_eqb_trans a b c :
  key_eqb a b = true -> key_eqb b c = true -> key_eqb a c = true.
Proof. rewrite !key_eqb_canon. congruence. Qed.

(** Equal keys are interchangeable on either side of [key_eqb]. *)
Lemma key_eqb_compat a b c : key_eqb a b = true -> key_eqb a c = key_eqb b c.
Proof.
  intros H. destruct (key_eqb b c) eqn:E.
  - eapply key_eqb_trans; eassumption.
  - destruct (key_eqb a c) eqn:F; [|reflexivity].
    rewrite key_eqb_sym in H. rewrite (key_eqb_trans _ _ _ H F) in E. discriminate.
Qed.

Lemma datetime_eqb_refl a : datetime_eqb a a = true.
Proof. apply datetime_eqb_canon. reflexivity. Qed.

Lemma datetime_eqb_trans a b c :
  datetime_eqb a b = true -> datetime_eqb b c = true -> datetime_eqb a c = true.
Proof. rewrite !datetime_eqb_canon. congruence. Qed.

Lemma datetime_eqb_sym a b : datetime_eqb a b = datetime_eqb b a.
Proof.
  destruct (datetime_eqb a b) eqn:E, (datetime_eqb b a) eqn:F; try reflexivity.
  - apply datetime_eqb_canon in E. symmetry in E. apply datetime_eqb_canon in E. congruence.
  - apply datetime_eqb_canon in F. symmetry in F. apply datetime_eqb_canon in F. congruence.
Qed.

Lemma datetime_eqb_compat a b c :
  datetime_eqb a b = true -> datetime_eqb a c = datetime_eqb b c.
Proof.
  intros H. destruct (datetime_eqb b c) eqn:E.
  - eapply datetime_eqb_trans; eassumption.
  - destruct (datetime_eqb a c) eqn:F; [|reflexivity].
    rewrite datetime_eqb_sym in H. rewrite (datetime_eqb_trans _ _ _ H F) in E.
    discriminate.
Qed.

(** ** The calendar: equal instants, equal datetimes *)

Lemma month_cases m :
  1 <= m <= 12 ->
  m = 1 \/ m = 2 \/ m = 3 \/ m = 4 \/ m = 5 \/ m = 6 \/
  m = 7 \/ m = 8 \/ m = 9 \/ m = 10 \/ m = 11 \/ m = 12.
Proof. lia. Qed.

Ltac each_month m H :=
  destruct (month_cases m H) as [->|[->|[->|[->|[->|[->|[->|[->|[->|[->|[->| ->]]]]]]]]]]].

Lemma day_of_year_bounds y m d :
  1 <= m <= 12 -> 1 <= d <= days_in_month y m ->
  1 <= days_before_month y m + d <= 365 + leap_day y.
Proof.
  intros Hm. unfold days_in_month, days_before_month, leap_day.
  each_month m Hm; destruct (is_leap y); cbn -[Z.add]; lia.
Qed.

Lemma days_before_year_succ y :
  days_before_year (y + 1) = days_before_year y + 365 + leap_day y.
Proof.
  unfold days_before_year, leap_day, is_leap.
  replace (y + 1 - 1) with y by lia.
  destruct (y mod 4 =? 0) eqn:E4, (y mod 100 =? 0) eqn:E100, (y mod 400 =? 0) eqn:E400;
    cbn [andb orb negb];
    rewrite ?Z.eqb_eq, ?Z.eqb_neq in *; Z.div_mod_to_equations; lia.
Qed.

Lemma days_before_year_mono y1 y2 :
  y1 <= y2 -> days_before_year y1 <= days_before_year y2.
Proof. unfold days_before_year. intros H. Z.div_mod_to_equations. lia. Qed.

(** Two valid dates with the same ordinal are the same date. *)
Lemma ymd2ord_inj y1 m1 d1 y2 m2 d2 :
  1 <= m1 <= 12 -> 1 <= d1 <= days_in_month y1 m1 ->
  1 <= m2 <= 12 -> 1 <= d2 <= days_in_month y2 m2 ->
  ymd2ord y1 m1 d1 = ymd2ord y2 m2 d2 -> y1 = y2 /\ m1 = m2 /\ d1 = d2.
Proof.
  intros Hm1 Hd1 Hm2 Hd2 H. unfold ymd2ord in H.
  pose proof (day_of_year_bounds y1 m1 d1 Hm1 Hd1) as B1.
  pose proof (day_of_year_bounds y2 m2 d2 Hm2 Hd2) as B2.
  pose proof (days_before_year_succ y1) as S1.
  pose proof (days_before_year_succ y2) as S2.
  assert (y1 = y2) as ->.
  { destruct (Z.lt_trichotomy y1 y2) as [L|[E|L]]; [|exact E|].
    - pose proof (days_before_year_mono (y1 + 1) y2 ltac:(lia)). lia.
    - pose proof (days_before_year_mono (y2 + 1) y1 ltac:(lia)). lia. }
  split; [reflexivity|].
  assert (E : days_before_month y2 m1 + d1 = days_before_month y2 m2 + d2) by lia.
  clear -E Hm1 Hm2 Hd1 Hd2.
  unfold days_in_month, days_before_month in *.
  each_month m1 Hm1; each_month m2 Hm2; destruct (is_leap y2); cbn -[Z.add] in *; lia.
Qed.

(** The constructor's checks, as propositions. *)
Lemma valid_datetime_bounds d :
  valid_datetime d = true ->
  1 <= dt_year d <= 9999 /\ 1 <= dt_month d <= 12
  /\ 1 <= dt_day d <= days_in_month (dt_year d) (dt_month d)
  /\ 0 <= dt_hour d <= 23 /\ 0 <= dt_minute d <= 59 /\ 0 <= dt_second d <= 59
  /\ 0 <= dt_microsecond d <= 999999.
Proof.
  unfold valid_datetime. rewrite !andb_true_iff, !Z.leb_le. tauto.
Qed.

(** Two valid datetimes with the same wall-clock reading have the same
    fields. *)
Lemma wall_micros_inj a b :
  valid_datetime a = true -> valid_datetime b = true ->
  wall_micros a = wall_micros b ->
  dt_tzinfo a = dt_tzinfo b -> a = b.
Proof.
  intros Va Vb H Htz.
  apply valid_datetime_bounds in Va. apply valid_datetime_bounds in Vb.
  destruct a as [y1 m1 d1 h1 mi1 s1 us1 tz1], b as [y2 m2 d2 h2 mi2 s2 us2 tz2].
  unfold wall_micros in H. cbn [dt_year dt_month dt_day dt_hour dt_minute dt_second
                                dt_microsecond dt_tzinfo] in *.
  assert (Hord : ymd2ord y1 m1 d1 = ymd2ord y2 m2 d2) by lia.
  destruct (ymd2ord_inj y1 m1 d1 y2 m2 d2) as (-> & -> & ->); try tauto.
  assert (h1 = h2) by lia. assert (mi1 = mi2) by lia.
  assert (s1 = s2) by lia. assert (us1 = us2) by lia.
  subst. reflexivity.
Qed.

(** On valid datetimes with the same [tzinfo] (in particular on UTC
    ones), [==] is equality of all fields. *)
Lemma datetime_eqb_eq a b :
  valid_datetime a = true -> valid_datetime b = true ->
  dt_tzinfo a = dt_tzinfo b ->
  (datetime_eqb a b = true <-> a = b).
Proof.
  intros Va Vb Htz. split.
  - intros H. apply wall_micros_inj; try assumption.
    unfold datetime_eqb in H. rewrite Htz in H.
    destruct (dt_tzinfo b).
    + apply Z.eqb_eq in H. lia.
    + rewrite !andb_true_iff, !Z.eqb_eq in H. unfold wall_micros.
      destruct H as [[[[[[-> ->] ->] ->] ->] ->] ->]. reflexivity.
  - intros ->. apply datetime_eqb_canon. reflexivity.
Qed.

Lemma days_in_month_max y m : 1 <= m <= 12 -> days_in_month y m <= 31.
Proof.
  intros Hm. unfold days_in_month. each_month m Hm; destruct (is_leap y); lia.
Qed.

(** On well-typed keys, [==] is equality. *)
Lemma key_eqb_eq k1 k2 :
  well_typed_key k1 -> well_typed_key k2 -> (key_eqb k1 k2 = true <-> k1 = k2).
Proof.
  destruct k1 as [h1 a1], k2 as [h2 a2].
  intros (V1 & T1 & s1 & E1) (V2 & T2 & s2 & E2). cbn [fst snd] in *. subst a1 a2.
  unfold key_eqb. cbn [fst snd atom_eqb].
  rewrite andb_true_iff, String.eqb_eq, (datetime_eqb_eq h1 h2 V1 V2) by congruence.
  split; [intros [-> ->]; reflexivity | intros [= -> ->]; split; reflexivity].
Qed.

Lemma event_key_well_typed e :
  well_typed_event e -> exists k, event_key e = Some k /\ well_typed_key k.
Proof.
  intros (V & T & s & E). unfold event_key. rewrite E. cbn [atom_of_json].
  eexists. split; [reflexivity|]. repeat split; cbn [fst snd]; eauto.
Qed.

Lemma record_eqb_eq r1 r2 :
  well_typed_key (record_key r1) -> well_typed_key (record_key r2) ->
  (record_eqb r1 r2 = true <-> r1 = r2).
Proof.
  intros W1 W2. unfold record_eqb.
  rewrite andb_true_iff, Z.eqb_eq, (key_eqb_eq _ _ W1 W2).
  destruct r1 as [h1 a1 n1], r2 as [h2 a2 n2]. unfold record_key.
  cbn [ar_hour ar_event_type ar_total_events].
  split; [intros [[= -> ->] ->]; reflexivity | intros [= -> -> ->]; split; reflexivity].
Qed.

(** ** The aggregation dictionary *)

Lemma total_for_increment k key aggregation :
  total_for k (increment key aggregation)
  = total_for k aggregation + (if key_eqb key k then 1 else 0).
Proof.
  induction aggregation as [|[k' n] rest IH]; cbn [increment total_for].
  - destruct (key_eqb key k); lia.
  - destruct (key_eqb k' key) eqn:E; cbn [total_for].
    + rewrite (key_eqb_compat _ _ k E). destruct (key_eqb key k); lia.
    + rewrite IH. lia.
Qed.

Lemma sum_totals_increment key aggregation :
  sum_totals (increment key aggregation) = sum_totals aggregation + 1.
Proof.
  induction aggregation as [|[k' n] rest IH]; cbn [increment sum_totals]; [lia|].
  destruct (key_eqb k' key); cbn [sum_totals]; lia.
Qed.

(** Every key of the incremented dictionary was a key before, or is the
    key just counted and equals no earlier key. *)
Lemma increment_keys key aggregation e :
  In e (increment key aggregation) ->
  (exists n, In (fst e, n) aggregation) \/
  (e = (key, 1) /\ Forall (fun a => key_eqb (fst a) key = false) aggregation).
Proof.
  induction aggregation as [|[k' n] rest IH]; cbn [increment].
  - intros [<-|[]]. right. split; [reflexivity | constructor].
  - destruct (key_eqb k' key) eqn:E.
    + intros [<-|Hin]; left.
      * exists n. left. reflexivity.
      * destruct e as [k m]. exists m. right. exact Hin.
    + intros [<-|Hin].
      * left. exists n. left. reflexivity.
      * destruct (IH Hin) as [[m Hm]|[-> Hall]].
        -- left. exists m. right. exact Hm.
        -- right. split; [reflexivity|]. constructor; assumption.
Qed.

Lemma increment_keeps_keys key aggregation k n :
  In (k, n) aggregation -> exists m, In (k, m) (increment key aggregation).
Proof.
  induction aggregation as [|[k' n'] rest IH]; cbn [increment]; [intros []|].
  intros [H|H].
  - injection H as -> ->. destruct (key_eqb k key); eexists; left; reflexivity.
  - destruct (key_eqb k' key).
    + exists n. right. exact H.
    + destruct (IH H) as [m Hm]. exists m. right. exact Hm.
Qed.

Lemma increment_has_key key aggregation :
  exists k n, In (k, n) (increment key aggregation) /\ key_eqb k key = true.
Proof.
  induction aggregation as [|[k' n'] rest IH]; cbn [increment].
  - exists key, (0 + 1). split; [left; reflexivity | apply key_eqb_refl].
  - destruct (key_eqb k' key) eqn:E.
    + exists k', (n' + 1). split; [left; reflexivity | exact E].
    + destruct IH as (k & n & Hin & Hk). exists k, n. split; [right|]; assumption.
Qed.

Lemma increment_distinct key aggregation :
  distinct_keys aggregation -> distinct_keys (increment key aggregation).
Proof.
  unfold distinct_keys.
  induction 1 as [|[k' n'] rest Hhd Htl IH]; cbn [increment].
  - constructor; constructor.
  - destruct (key_eqb k' key) eqn:E.
    + constructor; assumption.
    + constructor; [|exact IH].
      apply Forall_forall. intros e He. cbn [fst].
      destruct (increment_keys _ _ _ He) as [[m Hm]|[-> _]].
      * rewrite Forall_forall in Hhd. apply (Hhd _ Hm).
      * exact E.
Qed.

Lemma increment_positive key aggregation :
  Forall (fun e : entry => 1 <= snd e) aggregation ->
  Forall (fun e : entry => 1 <= snd e) (increment key aggregation).
Proof.
  induction 1 as [|[k' n'] rest Hhd Htl IH]; cbn [increment].
  - constructor; [cbn; lia | constructor].
  - cbn [snd] in Hhd. destruct (key_eqb k' key); constructor; cbn [snd];
      try lia; assumption.
Qed.

(** With distinct keys, the total under a key is the total of its class. *)
Lemma total_for_entry aggregation k n :
  distinct_keys aggregation -> In (k, n) aggregation -> total_for k aggregation = n.
Proof.
  unfold distinct_keys.
  induction 1 as [|[k' n'] rest Hhd Htl IH]; [intros []|].
  cbn [total_for]. intros [H|H].
  - injection H as -> ->. rewrite key_eqb_refl.
    assert (total_for k rest = 0) as ->; [|lia].
    clear -Hhd. induction Hhd as [|[k2 n2] r H2 _ IH2]; [reflexivity|].
    cbn [total_for fst] in *. rewrite key_eqb_sym, H2, IH2. reflexivity.
  - rewrite Forall_forall in Hhd. pose proof (Hhd _ H) as Hne. cbn [fst] in Hne.
    rewrite Hne, (IH H). reflexivity.
Qed.

(** ** The aggregator *)

Lemma aggregate_loop_total events :
  Forall (fun e => hashable (ne_event_type e) = true) events ->
  forall aggregation, exists res, aggregate_loop events aggregation = Ok res.
Proof.
  induction 1 as [|e rest He _ IH]; intros aggregation; cbn [aggregate_loop].
  - eexists; reflexivity.
  - unfold hashable in He.
    destruct (atom_of_json (ne_event_type e)); [apply IH | cbn in He; discriminate].
Qed.

Ltac aggregate_step e a :=
  cbn [aggregate_loop];
  destruct (atom_of_json (ne_event_type e)) as [a|] eqn:?; [|discriminate].

Lemma aggregate_loop_total_for events :
  forall aggregation res k,
    aggregate_loop events aggregation = Ok res ->
    total_for k res = total_for k aggregation + events_with_key k events.
Proof.
  unfold events_with_key.
  induction events as [|e rest IH]; intros aggregation res k.
  - intros [= <-]. cbn. lia.
  - aggregate_step e a. cbn [filter]. unfold shares_key at 1, event_key.
    intros H. rewrite (IH _ _ k H), total_for_increment.
    match goal with E : atom_of_json _ = Some _ |- _ => rewrite E end.
    destruct (key_eqb (ne_hour e, a) k); cbn [List.length]; lia.
Qed.

Lemma aggregate_loop_sum events :
  forall aggregation res,
    aggregate_loop events aggregation = Ok res ->
    sum_totals res = sum_totals aggregation + Z.of_nat (List.length events).
Proof.
  induction events as [|e rest IH]; intros aggregation res.
  - intros [= <-]. cbn. lia.
  - aggregate_step e a.
    intros H. rewrite (IH _ _ H), sum_totals_increment. cbn [List.length]. lia.
Qed.

Lemma aggregate_loop_distinct events :
  forall aggregation res,
    aggregate_loop events aggregation = Ok res ->
    distinct_keys aggregation -> distinct_keys res.
Proof.
  induction events as [|e rest IH]; intros aggregation res.
  - intros [= <-]. trivial.
  - aggregate_step e a. intros H D. apply (IH _ _ H). apply increment_distinct, D.
Qed.

Lemma aggregate_loop_positive events :
  forall aggregation res,
    aggregate_loop events aggregation = Ok res ->
    Forall (fun e : entry => 1 <= snd e) aggregation ->
    Forall (fun e : entry => 1 <= snd e) res.
Proof.
  induction events as [|e rest IH]; intros aggregation res.
  - intros [= <-]. trivial.
  - aggregate_step e a. intros H D. apply (IH _ _ H). apply increment_positive, D.
Qed.

Lemma aggregate_loop_keeps_keys events :
  forall aggregation res k n,
    aggregate_loop events aggregation = Ok res ->
    In (k, n) aggregation -> exists m, In (k, m) res.
Proof.
  induction events as [|e rest IH]; intros aggregation res k n.
  - intros [= <-]. eauto.
  - aggregate_step e a.
    intros H Hin. destruct (increment_keeps_keys (ne_hour e, a) _ _ _ Hin) as [m Hm].
    apply (IH _ _ _ _ H Hm).
Qed.

(** Every event is counted under some key of the result. *)
Lemma aggregate_loop_covers events :
  forall aggregation res e,
    aggregate_loop events aggregation = Ok res ->
    In e events -> exists k n, In (k, n) res /\ shares_key k e = true.
Proof.
  induction events as [|e0 rest IH]; intros aggregation res e; [intros _ []|].
  aggregate_step e0 a. intros H [<-|Hin].
  - destruct (increment_has_key (ne_hour e0, a) aggregation) as (k & n & Hk & Heq).
    destruct (aggregate_loop_keeps_keys _ _ _ _ _ H Hk) as [m Hm].
    exists k, m. split; [exact Hm|].
    unfold shares_key, event_key.
    match goal with E : atom_of_json _ = Some _ |- _ => rewrite E end.
    rewrite key_eqb_sym. exact Heq.
  - apply (IH _ _ _ H Hin).
Qed.

(** Every key of the result is the key of an event (or was there
    before). *)
Lemma aggregate_loop_keys_from events :
  forall aggregation res k n,
    aggregate_loop events aggregation = Ok res ->
    In (k, n) res ->
    (exists m, In (k, m) aggregation) \/ (exists e, In e events /\ event_key e = Some k).
Proof.
  induction events as [|e0 rest IH]; intros aggregation res k n.
  - intros [= <-] Hin. left. eauto.
  - aggregate_step e0 a. intros H Hin.
    destruct (IH _ _ _ _ H Hin) as [[m Hm]|(e & He & Hk)].
    + destruct (increment_keys _ _ _ Hm) as [[m' Hm']|[Heq _]].
      * left. eauto.
      * right. exists e0. split; [left; reflexivity|].
        unfold event_key.
        match goal with E : atom_of_json _ = Some _ |- _ => rewrite E end.
        cbn in Heq. congruence.
    + right. exists e. split; [right|]; assumption.
Qed.

Lemma events_with_key_equiv k1 k2 events :
  key_eqb k1 k2 = true -> events_with_key k1 events = events_with_key k2 events.
Proof.
  intros H. unfold events_with_key. f_equal. f_equal.
  apply filter_ext. intros e. unfold shares_key.
  destruct (event_key e) as [k|]; [|reflexivity].
  rewrite (key_eqb_sym k k1), (key_eqb_sym k k2). apply key_eqb_compat, H.
Qed.

Lemma events_with_key_perm k events1 events2 :
  Permutation events1 events2 ->
  events_with_key k events1 = events_with_key k events2.
Proof.
  unfold events_with_key. intros P. f_equal.
  induction P as [|x l l' _ IH|x y l|l l' l'' _ IH1 _ IH2]; cbn [filter].
  - reflexivity.
  - destruct (shares_key k x); cbn [List.length]; congruence.
  - destruct (shares_key k x), (shares_key k y); reflexivity.
  - congruence.
Qed.

Lemma events_with_key_pos k events :
  1 <= events_with_key k events ->
  exists e, In e events /\ shares_key k e = true.
Proof.
  unfold events_with_key. intros H.
  destruct (filter (shares_key k) events) as [|e rest] eqn:E; [cbn in H; lia|].
  exists e. apply filter_In. rewrite E. left. reflexivity.
Qed.

(** What [aggregate_events] returns and does, given what its loop
    computes: the records in dictionary order, and one log line. *)
Lemma aggregate_events_run events res w :
  aggregate_loop events [] = Ok res ->
  aggregate_events events w
  = (Ok (map record_of_entry res),
     mkworld (w_log w ++ [mklog INFO "Aggregated into %d hourly records"
                                [LInt (Z.of_nat (List.length (map record_of_entry res)))]])
             (w_downloads w) (w_uploads w)).
Proof. intros H. unfold aggregate_events, bind, lift. rewrite H. reflexivity. Qed.

Lemma sum_total_events_entries res :
  sum_total_events (map record_of_entry res) = sum_totals res.
Proof.
  unfold sum_total_events.
  induction res as [|[k n] rest IH]; cbn in *; [reflexivity | rewrite IH; reflexivity].
Qed.

Lemma In_record_of_entry r res :
  In r (map record_of_entry res) <-> In (record_key r, ar_total_events r) res.
Proof.
  rewrite in_map_iff. split.
  - intros ([[h a] n] & <- & Hin). exact Hin.
  - intros Hin. exists (record_key r, ar_total_events r). split; [|exact Hin].
    destruct r; reflexivity.
Qed.

(** The facts about the records of one run that the theorems below
    share. *)
Lemma aggregate_events_facts events w :
  Forall (fun e => hashable (ne_event_type e) = true) events ->
  exists res,
    fst (aggregate_events events w) = Ok (map record_of_entry res)
    /\ snd (aggregate_events events w)
       = mkworld (w_log w ++ [mklog INFO "Aggregated into %d hourly records"
                                [LInt (Z.of_nat (List.length (map record_of_entry res)))]])
                 (w_downloads w) (w_uploads w)
    /\ distinct_keys res
    /\ sum_totals res = Z.of_nat (List.length events)
    /\ (forall k n, In (k, n) res -> n = events_with_key k events /\ 1 <= n)
    /\ (forall e, In e events -> exists k n, In (k, n) res /\ shares_key k e = true)
    /\ (forall k n, In (k, n) res -> exists e, In e events /\ event_key e = Some k).
Proof.
  intros Hh. destruct (aggregate_loop_total _ Hh []) as [res Hres].
  exists res.
  assert (D : distinct_keys res)
    by (apply (aggregate_loop_distinct _ _ _ Hres); constructor).
  rewrite (aggregate_events_run _ _ w Hres). cbn [fst snd].
  split; [reflexivity|]. split; [reflexivity|]. split; [exact D|].
  split; [apply (aggregate_loop_sum _ _ _ Hres)|].
  split; [|split].
  - intros k n Hin. split.
    + rewrite <- (total_for_entry _ _ _ D Hin), (aggregate_loop_total_for _ _ _ k Hres).
      reflexivity.
    + pose proof (aggregate_loop_positive _ _ _ Hres (Forall_nil _)) as P.
      rewrite Forall_forall in P. apply (P _ Hin).
  - intros e He. apply (aggregate_loop_covers _ _ _ _ Hres He).
  - intros k n Hin.
    destruct (aggregate_loop_keys_from _ _ _ _ _ Hres Hin) as [[m []]|H]; exact H.
Qed.

Lemma records_distinct res :
  distinct_keys res ->
  ForallOrdPairs (fun r1 r2 => key_eqb (record_key r1) (record_key r2) = false)
                 (map record_of_entry res).
Proof.
  unfold distinct_keys.
  induction 1 as [|[k n] rest Hhd _ IH]; cbn [map]; constructor; [|exact IH].
  rewrite Forall_map. eapply Forall_impl; [|exact Hhd].
  intros [k' n'] H. exact H.
Qed.

Lemma records_NoDup records :
  ForallOrdPairs (fun r1 r2 => key_eqb (record_key r1) (record_key r2) = false) records ->
  NoDup (map record_key records).
Proof.
  induction 1 as [|r rest Hhd _ IH]; cbn [map]; constructor; [|exact IH].
  rewrite in_map_iff. intros (r' & Hk & Hin).
  rewrite Forall_forall in Hhd. specialize (Hhd _ Hin).
  rewrite Hk, key_eqb_refl in Hhd. discriminate.
Qed.

Lemma records_well_typed events res r :
  Forall well_typed_event events ->
  (forall k n, In (k, n) res -> exists e, In e events /\ event_key e = Some k) ->
  In r (map record_of_entry res) -> well_typed_key (record_key r).
Proof.
  intros Hwt Hfrom Hin. apply In_record_of_entry in Hin.
  destruct (Hfrom _ _ Hin) as (e & He & Hk).
  rewrite Forall_forall in Hwt.
  destruct (event_key_well_typed e (Hwt _ He)) as (k & Hk' & W). congruence.
Qed.

(** A record of one run has its equal among the records of a run on a
    permutation of the input. *)
Lemma records_match events1 events2 res1 res2 :
  Permutation events1 events2 ->
  (forall k n, In (k, n) res1 -> n = events_with_key k events1 /\ 1 <= n) ->
  (forall k n, In (k, n) res2 -> n = events_with_key k events2 /\ 1 <= n) ->
  (forall e, In e events2 -> exists k n, In (k, n) res2 /\ shares_key k e = true) ->
  forall r1, In r1 (map record_of_entry res1) ->
    exists r2, In r2 (map record_of_entry res2) /\ record_eqb r1 r2 = true.
Proof.
  intros P H1 H2 Hcov r1 Hin. apply In_record_of_entry in Hin.
  destruct (H1 _ _ Hin) as [Hn Hpos].
  rewrite (events_with_key_perm _ _ _ P) in Hn.
  destruct (events_with_key_pos (record_key r1) events2) as (e & He & Hk); [lia|].
  destruct (Hcov e He) as ([h' a'] & n' & Hin' & Hk').
  assert (Hkk : key_eqb (record_key r1) (h', a') = true).
  { unfold shares_key in Hk, Hk'. destruct (event_key e) as [ke|]; [|discriminate].
    rewrite key_eqb_sym in Hk. apply (key_eqb_trans _ _ _ Hk Hk'). }
  exists (record_of_entry ((h', a'), n')). split; [apply in_map, Hin'|].
  unfold record_eqb.
  change (record_key (record_of_entry ((h', a'), n'))) with (h', a').
  change (ar_total_events (record_of_entry ((h', a'), n'))) with n'.
  rewrite Hkk, Hn. destruct (H2 _ _ Hin') as [-> _].
  rewrite (events_with_key_equiv _ _ _ Hkk), Z.eqb_refl. reflexivity.
Qed.

(** C3. For every list of normalized events (with hashable event types,
    as strings are), [aggregate_events] returns records no two of which
    have the same [(hour, event_type)] key; the [total_events] of each
    record is the exact number of input events with that key, hence at
    least 1; every event is counted in some record; and the totals add
    up to the number of input events.  Keys are compared as the
    dictionary compares them, with [==]; on events typed as the data
    model types them (a UTC hour, a string event type) that is equality
    of hour and event type. *)
Theorem aggregate_events_counts (events : list NormalizedEvent) (w : world) :
  Forall (fun e => hashable (ne_event_type e) = true) events ->
  exists records,
    fst (aggregate_events events w) = Ok records
    /\ ForallOrdPairs
         (fun r1 r2 => key_eqb (record_key r1) (record_key r2) = false) records
    /\ NoDup (map record_key records)
    /\ (forall r, In r records ->
          ar_total_events r = events_with_key (record_key r) events
          /\ 1 <= ar_total_events r)
    /\ (forall e, In e events ->
          exists r, In r records /\ shares_key (record_key r) e = true)
    /\ sum_total_events records = Z.of_nat (List.length events)
    /\ (Forall well_typed_event events ->
        forall r e, In r records -> In e events ->
          (shares_key (record_key r) e = true <-> event_key e = Some (record_key r))).
Proof.
  intros Hh.
  destruct (aggregate_events_facts events w Hh)
    as (res & Hrun & _ & D & Hsum & Hcount & Hcov & Hfrom).
  exists (map record_of_entry res).
  pose proof (records_distinct _ D) as FOP.
  split; [exact Hrun|]. split; [exact FOP|]. split; [apply records_NoDup, FOP|].
  split; [|split; [|split]].
  - intros r Hr. apply In_record_of_entry in Hr. apply (Hcount _ _ Hr).
  - intros e He. destruct (Hcov e He) as (k & n & Hin & Hk).
    exists (record_of_entry (k, n)). split; [apply in_map, Hin | exact Hk].
  - rewrite sum_total_events_entries. exact Hsum.
  - intros Hwt r e Hr He.
    pose proof (records_well_typed _ _ _ Hwt Hfrom Hr) as Wr.
    rewrite Forall_forall in Hwt.
    destruct (event_key_well_typed e (Hwt _ He)) as (k & Hk & Wk).
    unfold shares_key. rewrite Hk, (key_eqb_eq _ _ Wk Wr).
    split; congruence.
Qed.

(** C8. [aggregate_events] is a function of the multiset of its input:
    on two lists that are permutations of each other it returns the same
    set of records, whatever the order (each record of one run equals,
    as Python compares the dicts, a record of the other run; on events
    typed as the data model types them the two results are permutations
    of each other); and it reads and writes nothing in the store. *)
Theorem aggregate_events_permutation
  (events1 events2 : list NormalizedEvent) (w1 w2 : world) :
  Permutation events1 events2 ->
  Forall (fun e => hashable (ne_event_type e) = true) events1 ->
  exists records1 records2,
    fst (aggregate_events events1 w1) = Ok records1
    /\ fst (aggregate_events events2 w2) = Ok records2
    /\ (forall r1, In r1 records1 ->
          exists r2, In r2 records2 /\ record_eqb r1 r2 = true)
    /\ (forall r2, In r2 records2 ->
          exists r1, In r1 records1 /\ record_eqb r2 r1 = true)
    /\ (Forall well_typed_event events1 -> Permutation records1 records2)
    /\ w_downloads (snd (aggregate_events events1 w1)) = w_downloads w1
    /\ w_uploads (snd (aggregate_events events1 w1)) = w_uploads w1.
Proof.
  intros P Hh1.
  assert (Hh2 := Permutation_Forall P Hh1).
  destruct (aggregate_events_facts events1 w1 Hh1)
    as (res1 & Hrun1 & Hw1 & D1 & _ & Hc1 & Hcov1 & Hfrom1).
  destruct (aggregate_events_facts events2 w2 Hh2)
    as (res2 & Hrun2 & _ & D2 & _ & Hc2 & Hcov2 & Hfrom2).
  exists (map record_of_entry res1), (map record_of_entry res2).
  pose proof (records_match _ _ _ _ P Hc1 Hc2 Hcov2) as H12.
  pose proof (records_match _ _ _ _ (Permutation_sym P) Hc2 Hc1 Hcov1) as H21.
  split; [exact Hrun1|]. split; [exact Hrun2|]. split; [exact H12|]. split; [exact H21|].
  split; [|rewrite Hw1; split; reflexivity].
  intros Hwt1. assert (Hwt2 := Permutation_Forall P Hwt1).
  apply NoDup_Permutation.
  - apply (NoDup_map_inv record_key), records_NoDup, records_distinct, D1.
  - apply (NoDup_map_inv record_key), records_NoDup, records_distinct, D2.
  - intros r. split; intros Hr.
    + destruct (H12 r Hr) as (r2 & Hr2 & Heq).
      apply record_eqb_eq in Heq;
        [subst; exact Hr2
        | exact (records_well_typed _ _ _ Hwt1 Hfrom1 Hr)
        | exact (records_well_typed _ _ _ Hwt2 Hfrom2 Hr2)].
    + destruct (H21 r Hr) as (r1 & Hr1 & Heq).
      apply record_eqb_eq in Heq;
        [subst; exact Hr1
        | exact (records_well_typed _ _ _ Hwt2 Hfrom2 Hr)
        | exact (records_well_typed _ _ _ Hwt1 Hfrom1 Hr1)].
Qed.

(** ** The eligibility filter *)

Lemma endswith_iff s suffix :
  endswith s suffix = true <-> exists stem, s = (stem ++ suffix)%string.
Proof.
  induction s as [|c t IH]; cbn [endswith].
  - rewrite orb_false_r, String.eqb_eq. split.
    + intros <-. exists "". reflexivity.
    + intros [[|c' stem] H]; [exact H | discriminate].
  - rewrite orb_true_iff, String.eqb_eq, IH. split.
    + intros [H|[stem ->]]; [exists ""; exact H | exists (String c stem); reflexivity].
    + intros [[|c' stem] H]; [left; exact H |].
      injection H as -> ->. right. exists stem. reflexivity.
Qed.

(** The loop returns the eligible blobs in listing order, after those it
    was given; it logs each [.json] blob and touches nothing else. *)
Lemma eligible_loop_run cutoff_time blobs :
  forall eligible_files w,
    eligible_loop cutoff_time blobs eligible_files w
    = (Ok (eligible_files ++ filter (eligible cutoff_time) blobs),
       mkworld (w_log w ++ map found_file
                  (filter (fun b => endswith (blob_name b) ".json") blobs))
               (w_downloads w) (w_uploads w)).
Proof.
  induction blobs as [|b rest IH]; intros acc w; cbn [eligible_loop filter map].
  - unfold ret. rewrite !app_nil_r. destruct w; reflexivity.
  - unfold eligible at 1.
    destruct (endswith (blob_name b) ".json") eqn:E; cbn [negb andb].
    + unfold bind, logging_info, emit. rewrite Z.leb_antisym.
      destruct (blob_updated b <? cutoff_time); cbn [negb]; rewrite IH;
        cbn [w_log w_downloads w_uploads map]; rewrite <- ?app_assoc; reflexivity.
    + apply IH.
Qed.

Section Eligibility.

Variable now_utc : Z.
Variable bucket_objects : string -> list blob.

Lemma list_eligible_json_files_run bucket_name pre lookback_hours cutoff_time w :
  minus_hours now_utc lookback_hours = Ok cutoff_time ->
  let listed := list_blobs bucket_objects bucket_name pre in
  let found := filter (eligible cutoff_time) listed in
  list_eligible_json_files now_utc bucket_objects bucket_name pre lookback_hours w
  = (Ok found,
     mkworld (w_log w
              ++ [mklog INFO "Connecting to GCS..." [];
                  mklog INFO "Filtering files updated before: %s" [LInstant cutoff_time]]
              ++ map found_file (filter (fun b => endswith (blob_name b) ".json") listed)
              ++ [mklog INFO "Total eligible files: %d"
                        [LInt (Z.of_nat (List.length found))]])
             (w_downloads w) (w_uploads w)).
Proof.
  intros H. cbv zeta.
  unfold list_eligible_json_files, bind, lift, logging_info, emit, ret.
  cbn [w_log w_downloads w_uploads]. rewrite H, eligible_loop_run.
  cbn [w_log w_downloads w_uploads app]. rewrite <- !app_assoc. reflexivity.
Qed.

(** When the cutoff is out of the range of [datetime], the function
    raises before it lists anything. *)
Lemma list_eligible_json_files_overflow bucket_name pre lookback_hours w :
  minus_hours now_utc lookback_hours = Raise OverflowError ->
  fst (list_eligible_json_files now_utc bucket_objects bucket_name pre lookback_hours w)
  = Raise OverflowError.
Proof.
  intros H. unfold list_eligible_json_files, bind, lift, logging_info, emit.
  rewrite H. reflexivity.
Qed.

(** C4. Given the cutoff [now(UTC) - lookback_hours] hours, the filter
    returns exactly the listed objects whose name ends with [.json]
    (compared character by character, so case matters) and whose
    last-modified instant is strictly before the cutoff, in listing
    order; an object modified exactly at the cutoff is left out, and an
    empty listing gives an empty result, no error. *)
Theorem list_eligible_json_files_spec bucket_name pre lookback_hours cutoff_time w :
  minus_hours now_utc lookback_hours = Ok cutoff_time ->
  exists eligible_files,
    fst (list_eligible_json_files now_utc bucket_objects bucket_name pre lookback_hours w)
    = Ok eligible_files
    /\ cutoff_time = now_utc - lookback_hours * 3600000000
    /\ eligible_files
       = filter (fun b => endswith (blob_name b) ".json" && (blob_updated b <? cutoff_time))
                (list_blobs bucket_objects bucket_name pre)
    /\ (forall b, In b eligible_files <->
          In b (list_blobs bucket_objects bucket_name pre)
          /\ (exists stem, blob_name b = (stem ++ ".json")%string)
          /\ blob_updated b < cutoff_time)
    /\ (forall b, blob_updated b = cutoff_time -> ~ In b eligible_files)
    /\ (list_blobs bucket_objects bucket_name pre = [] -> eligible_files = []).
Proof.
  intros H. eexists.
  split; [rewrite (list_eligible_json_files_run _ _ _ _ w H); reflexivity|].
  assert (Hin : forall b,
             In b (filter (eligible cutoff_time)
                          (list_blobs bucket_objects bucket_name pre)) <->
             In b (list_blobs bucket_objects bucket_name pre)
             /\ (exists stem, blob_name b = (stem ++ ".json")%string)
             /\ blob_updated b < cutoff_time).
  { intros b. unfold eligible.
    rewrite filter_In, andb_true_iff, endswith_iff, Z.ltb_lt. reflexivity. }
  split; [|split; [|split; [|split]]].
  - unfold minus_hours in H.
    destruct ((MIN_INSTANT <=? now_utc - lookback_hours * 3600000000)
              && (now_utc - lookback_hours * 3600000000 <=? MAX_INSTANT));
      [injection H as <-; reflexivity | discriminate].
  - reflexivity.
  - exact Hin.
  - intros b Hb Hin'. apply Hin in Hin'. lia.
  - intros ->. reflexivity.
Qed.

End Eligibility.

(** ** The event parser *)

Section Parser.

Variable bytes_decode_utf8 : list byte -> option string.
Variable json_loads : string -> option json.

Lemma holds_array_parse_blob b events :
  holds_array bytes_decode_utf8 json_loads b events ->
  parse_blob bytes_decode_utf8 json_loads b = Ok events.
Proof. intros (content & Hd & Hl). unfold parse_blob. rewrite Hd, Hl. reflexivity. Qed.

Lemma parse_blob_holds_array b events :
  parse_blob bytes_decode_utf8 json_loads b = Ok events ->
  holds_array bytes_decode_utf8 json_loads b events.
Proof.
  unfold parse_blob, holds_array.
  destruct (bytes_decode_utf8 (blob_bytes b)) as [content|]; [|discriminate].
  destruct (json_loads content) as [[| | | |items|]|] eqn:E; try discriminate.
  intros [= ->]. exists content. split; [reflexivity | exact E].
Qed.

Lemma append_each (events all_events : list json) :
  fold_left (fun all_events event => all_events ++ [event]) events all_events
  = all_events ++ events.
Proof.
  revert all_events. induction events as [|e rest IH]; intros acc; cbn [fold_left].
  - rewrite app_nil_r. reflexivity.
  - rewrite IH, <- app_assoc. reflexivity.
Qed.

(** A file that holds an array adds its elements, in order, and the loop
    goes on with the next file. *)
Lemma parse_loop_step b events rest all_events w :
  parse_blob bytes_decode_utf8 json_loads b = Ok events ->
  parse_loop bytes_decode_utf8 json_loads (b :: rest) all_events w
  = parse_loop bytes_decode_utf8 json_loads rest (all_events ++ events)
      (mkworld
         (w_log w ++
          [mklog INFO "Downloading file: %s" [LStr (blob_name b)];
           mklog INFO "Parsed %d events from %s"
                 [LInt (Z.of_nat (List.length events)); LStr (blob_name b)]])
         (w_downloads w ++ [blob_name b]) (w_uploads w)).
Proof.
  unfold parse_blob. cbn [parse_loop].
  unfold bind, logging_info, emit, download_as_bytes. cbn [w_log w_downloads w_uploads].
  destruct (bytes_decode_utf8 (blob_bytes b)) as [content|]; [|discriminate].
  destruct (json_loads content) as [[| | | |items|]|]; try discriminate.
  intros [= ->]. cbn [w_log w_downloads w_uploads].
  rewrite append_each, <- app_assoc. reflexivity.
Qed.

(** A file that does not hold an array stops the loop with its
    exception; the files after it are not downloaded. *)
Lemma parse_loop_stop b e rest all_events w :
  parse_blob bytes_decode_utf8 json_loads b = Raise e ->
  fst (parse_loop bytes_decode_utf8 json_loads (b :: rest) all_events w) = Raise e
  /\ w_downloads (snd (parse_loop bytes_decode_utf8 json_loads (b :: rest) all_events w))
     = w_downloads w ++ [blob_name b].
Proof.
  unfold parse_blob. cbn [parse_loop].
  unfold bind, logging_info, logging_error, emit, download_as_bytes, raise.
  cbn [w_log w_downloads w_uploads].
  destruct (bytes_decode_utf8 (blob_bytes b)) as [content|];
    [|intros [= <-]; split; reflexivity].
  destruct (json_loads content) as [[| | | |items|]|]; intros [= <-]; split; reflexivity.
Qed.

Lemma parse_loop_all_arrays blobs arrays :
  Forall2 (holds_array bytes_decode_utf8 json_loads) blobs arrays ->
  forall all_events w,
    fst (parse_loop bytes_decode_utf8 json_loads blobs all_events w)
    = Ok (all_events ++ List.concat arrays)
    /\ w_downloads (snd (parse_loop bytes_decode_utf8 json_loads blobs all_events w))
       = w_downloads w ++ map blob_name blobs
    /\ w_uploads (snd (parse_loop bytes_decode_utf8 json_loads blobs all_events w))
       = w_uploads w.
Proof.
  induction 1 as [|b events blobs arrays Hb _ IH]; intros acc w.
  - cbn. rewrite !app_nil_r. repeat split; reflexivity.
  - rewrite (parse_loop_step _ _ _ _ _ (holds_array_parse_blob _ _ Hb)).
    destruct (IH (acc ++ events)
                 (mkworld
                    (w_log w ++
                     [mklog INFO "Downloading file: %s" [LStr (blob_name b)];
                      mklog INFO "Parsed %d events from %s"
                            [LInt (Z.of_nat (List.length events));
                             LStr (blob_name b)]])
                    (w_downloads w ++ [blob_name b]) (w_uploads w)))
      as (-> & -> & ->).
    cbn [List.concat map w_downloads w_uploads]. rewrite <- !app_assoc.
    repeat split; reflexivity.
Qed.

Lemma parse_loop_first_failure good arrays bad e rest :
  Forall2 (holds_array bytes_decode_utf8 json_loads) good arrays ->
  parse_blob bytes_decode_utf8 json_loads bad = Raise e ->
  forall all_events w,
    fst (parse_loop bytes_decode_utf8 json_loads (good ++ bad :: rest) all_events w)
    = Raise e
    /\ w_downloads (snd (parse_loop bytes_decode_utf8 json_loads
                                    (good ++ bad :: rest) all_events w))
       = w_downloads w ++ map blob_name good ++ [blob_name bad].
Proof.
  intros Hgood Hbad.
  induction Hgood as [|b events blobs arrays Hb _ IH]; intros acc w; cbn [app].
  - apply (parse_loop_stop _ _ _ _ _ Hbad).
  - rewrite (parse_loop_step _ _ _ _ _ (holds_array_parse_blob _ _ Hb)).
    destruct (IH (acc ++ events)
                 (mkworld
                    (w_log w ++
                     [mklog INFO "Downloading file: %s" [LStr (blob_name b)];
                      mklog INFO "Parsed %d events from %s"
                            [LInt (Z.of_nat (List.length events));
                             LStr (blob_name b)]])
                    (w_downloads w ++ [blob_name b]) (w_uploads w)))
      as (-> & ->).
    cbn [map w_downloads app]. rewrite <- !app_assoc. split; reflexivity.
Qed.

Lemma download_and_parse_events_fst blobs w :
  fst (download_and_parse_events bytes_decode_utf8 json_loads blobs w)
  = fst (parse_loop bytes_decode_utf8 json_loads blobs [] w).
Proof.
  unfold download_and_parse_events, bind.
  destruct (parse_loop bytes_decode_utf8 json_loads blobs [] w) as [[events|e] w'];
    reflexivity.
Qed.

Lemma download_and_parse_events_downloads blobs w :
  w_downloads (snd (download_and_parse_events bytes_decode_utf8 json_loads blobs w))
  = w_downloads (snd (parse_loop bytes_decode_utf8 json_loads blobs [] w)).
Proof.
  unfold download_and_parse_events, bind.
  destruct (parse_loop bytes_decode_utf8 json_loads blobs [] w) as [[events|e] w'];
    reflexivity.
Qed.

(** C7. When every input file holds a JSON array, the parser returns the
    concatenation of the arrays: the files in the order given, the
    elements of each file in their order, no element added or lost; and
    it downloads each file once, in that order. *)
Theorem download_and_parse_events_concat (blobs : list blob) (arrays : list (list json))
  (w : world) :
  Forall2 (holds_array bytes_decode_utf8 json_loads) blobs arrays ->
  fst (download_and_parse_events bytes_decode_utf8 json_loads blobs w)
  = Ok (List.concat arrays)
  /\ w_downloads (snd (download_and_parse_events bytes_decode_utf8 json_loads blobs w))
     = w_downloads w ++ map blob_name blobs.
Proof.
  intros H. rewrite download_and_parse_events_fst, download_and_parse_events_downloads.
  destruct (parse_loop_all_arrays _ _ H [] w) as (-> & -> & _). split; reflexivity.
Qed.


End Parser.

(** ** The normalizer *)

Section Normalizer.

Variable datetime_fromisoformat : string -> option datetime.

Lemma normalize_events_fst events w :
  fst (normalize_events datetime_fromisoformat events w)
  = normalize_loop datetime_fromisoformat events [].
Proof.
  unfold normalize_events, bind, lift.
  destruct (normalize_loop datetime_fromisoformat events []); reflexivity.
Qed.

(** The loop maps [normalize_event] over the events and stops at the
    first one that raises. *)
Lemma normalize_loop_all_ok events records :
  Forall2 (fun event record =>
             normalize_event datetime_fromisoformat event = Ok record)
          events records ->
  forall normalized,
    normalize_loop datetime_fromisoformat events normalized
    = Ok (normalized ++ records).
Proof.
  induction 1 as [|event record events records H _ IH]; intros acc;
    cbn [normalize_loop].
  - rewrite app_nil_r. reflexivity.
  - rewrite H, IH, <- app_assoc. reflexivity.
Qed.

Lemma normalize_loop_first_failure good records bad e rest :
  Forall2 (fun event record =>
             normalize_event datetime_fromisoformat event = Ok record)
          good records ->
  normalize_event datetime_fromisoformat bad = Raise e ->
  forall normalized,
    normalize_loop datetime_fromisoformat (good ++ bad :: rest) normalized = Raise e.
Proof.
  intros Hgood Hbad.
  induction Hgood as [|event record events records H _ IH]; intros acc;
    cbn [normalize_loop app].
  - rewrite Hbad. reflexivity.
  - rewrite H. apply IH.
Qed.

(** What [normalize_event] returns for an event whose timestamp parses:
    the timestamp with minute, second and microsecond set to zero, its
    other fields and its [tzinfo] as they were. *)
Lemma normalize_event_ok event ts event_type :
  parse_event_timestamp datetime_fromisoformat event = Ok ts ->
  subscript event "event_type" = Ok event_type ->
  normalize_event datetime_fromisoformat event
  = Ok (mkne (mkdt (dt_year ts) (dt_month ts) (dt_day ts) (dt_hour ts) 0 0 0 (dt_tzinfo ts))
             event_type).
Proof.
  intros Ht He. unfold normalize_event. rewrite Ht, He. reflexivity.
Qed.

(** The amended C2. The normalizer returns no partial result: it raises
    at the first event that is not valid.  The exception is the
    [ValueError] "Invalid timestamp format", naming the event, when that
    event has no [event_timestamp] key or a timestamp that does not
    parse; it is [KeyError], not that [ValueError], when the timestamp
    parses and only the [event_type] key is missing. *)
Theorem normalize_events_first_invalid
  (good : list json) (records : list NormalizedEvent)
  (items : list (string * json)) (rest : list json) (w : world) :
  Forall2 (fun event record =>
             normalize_event datetime_fromisoformat event = Ok record)
          good records ->
  let bad := JObj items in
  let outcome :=
    fst (normalize_events datetime_fromisoformat (good ++ bad :: rest) w) in
  (dict_lookup "event_timestamp" items = None ->
     outcome = Raise (ValueError_invalid_timestamp bad))
  /\ (forall text,
        dict_lookup "event_timestamp" items = Some (JStr text) ->
        datetime_fromisoformat (replace_char "Z" "+00:00" text) = None ->
        outcome = Raise (ValueError_invalid_timestamp bad))
  /\ (forall text ts,
        dict_lookup "event_timestamp" items = Some (JStr text) ->
        datetime_fromisoformat (replace_char "Z" "+00:00" text) = Some ts ->
        dict_lookup "event_type" items = None ->
        outcome = Raise (KeyError "event_type")).
Proof.
  intros Hgood. cbv zeta. rewrite normalize_events_fst.
  assert (Hfail : forall e,
             normalize_event datetime_fromisoformat (JObj items) = Raise e ->
             normalize_loop datetime_fromisoformat (good ++ JObj items :: rest) []
             = Raise e).
  { intros e He. apply (normalize_loop_first_failure _ _ _ _ rest Hgood He). }
  split; [|split].
  - intros Hts. apply Hfail.
    unfold normalize_event, parse_event_timestamp, subscript.
    rewrite Hts. reflexivity.
  - intros text Hts Hiso. apply Hfail.
    unfold normalize_event, parse_event_timestamp, subscript.
    rewrite Hts, Hiso. reflexivity.
  - intros text ts Hts Hiso Hty. apply Hfail.
    unfold normalize_event, parse_event_timestamp, subscript.
    rewrite Hts, Hiso, Hty. reflexivity.
Qed.

(** Any failure of the [try] body becomes the [ValueError]: also an
    event that is no object, and a timestamp that is no string. *)
Lemma normalize_event_invalid_timestamp event e :
  parse_event_timestamp datetime_fromisoformat event = Raise e ->
  normalize_event datetime_fromisoformat event
  = Raise (ValueError_invalid_timestamp event).
Proof. intros H. unfold normalize_event. rewrite H. reflexivity. Qed.

(** X1. Every hour the normalizer emits has minute, second and
    microsecond zero, whatever the offset of the timestamp. *)
Theorem normalize_events_truncated events records w :
  fst (normalize_events datetime_fromisoformat events w) = Ok records ->
  Forall (fun r => dt_minute (ne_hour r) = 0 /\ dt_second (ne_hour r) = 0
                   /\ dt_microsecond (ne_hour r) = 0) records.
Proof.
  rewrite normalize_events_fst.
  assert (H : forall acc,
             Forall (fun r => dt_minute (ne_hour r) = 0 /\ dt_second (ne_hour r) = 0
                              /\ dt_microsecond (ne_hour r) = 0) acc ->
             normalize_loop datetime_fromisoformat events acc = Ok records ->
             Forall (fun r => dt_minute (ne_hour r) = 0 /\ dt_second (ne_hour r) = 0
                              /\ dt_microsecond (ne_hour r) = 0) records).
  { induction events as [|event rest IH]; intros acc Hacc; cbn [normalize_loop].
    - intros [= <-]. exact Hacc.
    - destruct (normalize_event datetime_fromisoformat event) as [record|e] eqn:E;
        [|discriminate].
      apply IH. apply Forall_app. split; [exact Hacc|]. constructor; [|constructor].
      unfold normalize_event in E.
      destruct (parse_event_timestamp datetime_fromisoformat event) as [ts|];
        [|discriminate].
      destruct (subscript event "event_type"); [|discriminate].
      injection E as <-. cbn. repeat split; reflexivity. }
  apply H. constructor.
Qed.

(** On a valid timestamp, zeroing minute, second and microsecond moves
    the wall-clock reading back to the start of its hour. *)
Lemma replace_hour_start ts :
  valid_datetime ts = true ->
  wall_micros (replace_minute_second_microsecond ts)
  = wall_micros ts - wall_micros ts mod 3600000000.
Proof.
  intros V. apply valid_datetime_bounds in V.
  unfold wall_micros, replace_minute_second_microsecond.
  cbn [dt_year dt_month dt_day dt_hour dt_minute dt_second dt_microsecond].
  destruct V as (_ & _ & _ & Hh & Hm & Hs & Hu).
  generalize (ymd2ord (dt_year ts) (dt_month ts) (dt_day ts)). intros ord.
  Z.div_mod_to_equations. lia.
Qed.

(** X2. For an event whose timestamp is in UTC (written with [Z] or
    [+00:00]), the hour the normalizer emits is a UTC datetime, and its
    instant is the start of the UTC hour of the timestamp. *)
Theorem normalize_event_utc event ts record :
  parse_event_timestamp datetime_fromisoformat event = Ok ts ->
  valid_datetime ts = true ->
  dt_tzinfo ts = UTC ->
  normalize_event datetime_fromisoformat event = Ok record ->
  dt_tzinfo (ne_hour record) = UTC
  /\ exists t, utc_micros ts = Some t
               /\ utc_micros (ne_hour record) = Some (t - t mod 3600000000).
Proof.
  intros Hts V Htz. unfold normalize_event. rewrite Hts.
  destruct (subscript event "event_type") as [event_type|e]; [|discriminate].
  intros [= <-]. cbn [ne_hour]. split; [exact Htz|].
  exists (wall_micros ts). unfold utc_micros.
  cbn [replace_minute_second_microsecond dt_tzinfo]. rewrite Htz. unfold UTC.
  rewrite !Z.sub_0_r. split; [reflexivity|].
  rewrite <- (replace_hour_start ts V). reflexivity.
Qed.

End Normalizer.

(** ** The partitioned writer *)

Lemma records_for_setdefault h hour record groups :
  records_for h (setdefault_append hour record groups)
  = records_for h groups ++ (if datetime_eqb hour h then [record] else []).
Proof.
  induction groups as [|[h' rs] rest IH]; cbn [setdefault_append records_for].
  - destruct (datetime_eqb hour h); reflexivity.
  - destruct (datetime_eqb h' hour) eqn:E; cbn [records_for].
    + rewrite <- (datetime_eqb_compat _ _ h E).
      destruct (datetime_eqb h' h); [reflexivity | rewrite app_nil_r; reflexivity].
    + destruct (datetime_eqb h' h) eqn:F; [|exact IH].
      destruct (datetime_eqb hour h) eqn:G; [|rewrite app_nil_r; reflexivity].
      rewrite datetime_eqb_sym in G.
      rewrite (datetime_eqb_trans _ _ _ F G) in E. discriminate.
Qed.

Lemma setdefault_hours hour record groups g :
  In g (setdefault_append hour record groups) ->
  (exists rs, In (fst g, rs) groups) \/
  (g = (hour, [record])
   /\ Forall (fun a : group => datetime_eqb (fst a) hour = false) groups).
Proof.
  induction groups as [|[h' rs] rest IH]; cbn [setdefault_append].
  - intros [<-|[]]. right. split; [reflexivity | constructor].
  - destruct (datetime_eqb h' hour) eqn:E.
    + intros [<-|Hin]; left.
      * exists rs. left. reflexivity.
      * destruct g as [h x]. exists x. right. exact Hin.
    + intros [<-|Hin].
      * left. exists rs. left. reflexivity.
      * destruct (IH Hin) as [[x Hx]|[-> Hall]].
        -- left. exists x. right. exact Hx.
        -- right. split; [reflexivity|]. constructor; assumption.
Qed.



Lemma setdefault_distinct hour record groups :
  hours_distinct groups -> hours_distinct (setdefault_append hour record groups).
Proof.
  unfold hours_distinct.
  induction 1 as [|[h' x] rest Hhd Htl IH]; cbn [setdefault_append].
  - constructor; constructor.
  - destruct (datetime_eqb h' hour) eqn:E.
    + constructor; assumption.
    + constructor; [|exact IH].
      apply Forall_forall. intros g Hg. cbn [fst].
      destruct (setdefault_hours _ _ _ _ Hg) as [[rs Hrs]|[-> _]].
      * rewrite Forall_forall in Hhd. apply (Hhd _ Hrs).
      * exact E.
Qed.

Lemma records_for_group groups h rs :
  hours_distinct groups -> In (h, rs) groups -> records_for h groups = rs.
Proof.
  unfold hours_distinct.
  induction 1 as [|[h' x] rest Hhd Htl IH]; [intros []|].
  cbn [records_for]. intros [H|H].
  - injection H as -> ->. rewrite datetime_eqb_refl. reflexivity.
  - rewrite Forall_forall in Hhd. pose proof (Hhd _ H) as Hne. cbn [fst] in Hne.
    rewrite Hne. apply (IH H).
Qed.

Lemma group_fold_records_for records :
  forall acc h,
    records_for h (fold_left group_step records acc)
    = records_for h acc ++ filter (fun r => datetime_eqb (ar_hour r) h) records.
Proof.
  induction records as [|r rest IH]; intros acc h; cbn [fold_left filter].
  - rewrite app_nil_r. reflexivity.
  - rewrite IH. unfold group_step. rewrite records_for_setdefault, <- app_assoc.
    destruct (datetime_eqb (ar_hour r) h); reflexivity.
Qed.

Lemma group_fold_distinct records :
  forall acc, hours_distinct acc -> hours_distinct (fold_left group_step records acc).
Proof.
  induction records as [|r rest IH]; intros acc D; cbn [fold_left]; [exact D|].
  apply IH, setdefault_distinct, D.
Qed.



Lemma group_fold_hours_from records :
  forall acc h rs,
    In (h, rs) (fold_left group_step records acc) ->
    (exists rs', In (h, rs') acc) \/ (exists r, In r records /\ ar_hour r = h).
Proof.
  induction records as [|r0 rest IH]; intros acc h rs; cbn [fold_left].
  - intros Hin. left. eauto.
  - intros Hin. destruct (IH _ _ _ Hin) as [[rs' Hrs']|(r & Hr & Hh)].
    + destruct (setdefault_hours _ _ _ _ Hrs') as [[x Hx]|[Heq _]].
      * left. eauto.
      * right. exists r0. split; [left; reflexivity|]. cbn in Heq. congruence.
    + right. exists r. split; [right|]; assumption.
Qed.

(** The loop uploads one document per group, in order, and logs each. *)
Lemma write_loop_run output_bucket groups :
  forall w,
    write_loop output_bucket groups w
    = (Ok tt,
       mkworld (w_log w ++ map writing_csv groups) (w_downloads w)
               (w_uploads w ++ map (upload_of_group output_bucket) groups)).
Proof.
  induction groups as [|[hour records] rest IH]; intros w; cbn [write_loop map].
  - unfold ret. rewrite !app_nil_r. destruct w; reflexivity.
  - unfold bind, logging_info, emit, upload_from_string.
    cbn [w_log w_downloads w_uploads]. rewrite IH.
    cbn [w_log w_downloads w_uploads]. rewrite <- !app_assoc. reflexivity.
Qed.

Lemma write_hourly_csv_summaries_run aggregated_results output_bucket w :
  write_hourly_csv_summaries aggregated_results output_bucket w
  = (Ok tt,
     mkworld (w_log w ++ map writing_csv (group_by_hour aggregated_results)
              ++ [mklog INFO "Finished writing CSV summaries" []])
             (w_downloads w)
             (w_uploads w
              ++ map (upload_of_group output_bucket) (group_by_hour aggregated_results))).
Proof.
  unfold write_hourly_csv_summaries, bind. rewrite write_loop_run.
  unfold logging_info, emit. cbn [w_log w_downloads w_uploads].
  rewrite <- app_assoc. reflexivity.
Qed.

(** The fields the writer emits for the hour and the count need no quoting. *)








Lemma string_app_assoc (a b c : string) : ((a ++ b) ++ c = a ++ (b ++ c))%string.
Proof. induction a as [|x t IH]; cbn [append]; [reflexivity | rewrite IH; reflexivity]. Qed.




Lemma group_by_hour_fold records :
  group_by_hour records = fold_left group_step records [].
Proof. reflexivity. Qed.

(** Each group holds the records whose hour equals its key, in input
    order. *)
Lemma group_by_hour_groups records g :
  In g (group_by_hour records) ->
  g = (fst g, filter (fun r => datetime_eqb (ar_hour r) (fst g)) records)
  /\ exists r, In r records /\ ar_hour r = fst g.
Proof.
  rewrite group_by_hour_fold. intros Hin. destruct g as [h rs]. cbn [fst]. split.
  - f_equal.
    rewrite <- (records_for_group _ _ _ (group_fold_distinct records [] (FOP_nil _)) Hin).
    rewrite group_fold_records_for. reflexivity.
  - destruct (group_fold_hours_from _ _ _ _ Hin) as [[rs' []]|H]; exact H.
Qed.


(** Distinct hours are written to distinct paths. *)

Lemma string_length_app (a b : string) :
  String.length (a ++ b) = (String.length a + String.length b)%nat.
Proof. induction a as [|c t IH]; cbn; [reflexivity | rewrite IH; reflexivity]. Qed.

Lemma pad_digits_length width : forall n, String.length (pad_digits width n) = width.
Proof.
  induction width as [|w IH]; intros n; cbn [pad_digits]; [reflexivity|].
  rewrite string_length_app, IH. cbn. lia.
Qed.

Lemma string_app_inj (a a' b b' : string) :
  String.length a = String.length a' ->
  (a ++ b = a' ++ b')%string -> a = a' /\ b = b'.
Proof.
  revert a'. induction a as [|c t IH]; intros [|c' t']; cbn; try discriminate.
  - intros _ H. split; [reflexivity | exact H].
  - intros [= Hl] [= -> H]. destruct (IH _ Hl H) as [-> ->]. split; reflexivity.
Qed.

Lemma digit_cases n : 0 <= n mod 10 < 10 ->
  n mod 10 = 0 \/ n mod 10 = 1 \/ n mod 10 = 2 \/ n mod 10 = 3 \/ n mod 10 = 4 \/
  n mod 10 = 5 \/ n mod 10 = 6 \/ n mod 10 = 7 \/ n mod 10 = 8 \/ n mod 10 = 9.
Proof. lia. Qed.

Lemma digit_char_inj a b : digit_char a = digit_char b -> a mod 10 = b mod 10.
Proof.
  unfold digit_char.
  destruct (digit_cases a (Z.mod_pos_bound a 10 ltac:(lia)))
    as [->|[->|[->|[->|[->|[->|[->|[->|[->| ->]]]]]]]]];
  destruct (digit_cases b (Z.mod_pos_bound b 10 ltac:(lia)))
    as [->|[->|[->|[->|[->|[->|[->|[->|[->| ->]]]]]]]]];
  cbn; intros H; try reflexivity; discriminate H.
Qed.

Lemma pad_digits_inj width : forall a b,
  0 <= a < 10 ^ Z.of_nat width -> 0 <= b < 10 ^ Z.of_nat width ->
  pad_digits width a = pad_digits width b -> a = b.
Proof.
  induction width as [|w IH]; intros a b Ha Hb; cbn [pad_digits].
  - cbn in Ha, Hb. lia.
  - intros H. apply string_app_inj in H; [|rewrite !pad_digits_length; reflexivity].
    destruct H as [Hq Hr]. injection Hr as Hr. apply digit_char_inj in Hr.
    rewrite Nat2Z.inj_succ, Z.pow_succ_r in Ha, Hb by lia.
    assert (a / 10 = b / 10).
    { apply IH; [| |exact Hq]; Z.div_mod_to_equations; nia. }
    Z.div_mod_to_equations. lia.
Qed.

Lemma zero_pad_in_range width n :
  0 <= n < 10 ^ Z.of_nat width -> zero_pad width n = pad_digits width n.
Proof.
  intros H. unfold zero_pad.
  destruct (Z.leb_spec 0 n); [|lia]. destruct (Z.ltb_spec n (10 ^ Z.of_nat width)); [|lia].
  reflexivity.
Qed.

(** [str(n)] determines [n]. *)
Lemma to_int_not_nil n :
  Z.to_int n <> Decimal.Pos Decimal.Nil /\ Z.to_int n <> Decimal.Neg Decimal.Nil.
Proof.
  split; intros H; pose proof (DecimalZ.of_to n) as Hn; rewrite H in Hn;
    cbn in Hn; subst n; discriminate H.
Qed.

Lemma str_of_int_inj a b : str_of_int a = str_of_int b -> a = b.
Proof.
  unfold str_of_int. intros H.
  destruct (to_int_not_nil a) as [Ha1 Ha2], (to_int_not_nil b) as [Hb1 Hb2].
  pose proof (NilZero.isi _ Ha1 Ha2) as Ia. pose proof (NilZero.isi _ Hb1 Hb2) as Ib.
  rewrite H, Ib in Ia. injection Ia as Ia.
  rewrite <- (DecimalZ.of_to a), <- (DecimalZ.of_to b), Ia. reflexivity.
Qed.

Lemma string_of_uint_no_slash d :
  contains_char is_slash (NilEmpty.string_of_uint d) = false.
Proof.
  induction d; cbn [NilEmpty.string_of_uint contains_char]; try rewrite IHd;
    reflexivity.
Qed.

Lemma str_of_int_no_slash n : contains_char is_slash (str_of_int n) = false.
Proof.
  unfold str_of_int, NilZero.string_of_int, NilZero.string_of_uint.
  destruct (Z.to_int n) as [d|d]; destruct d; try reflexivity;
    cbn [contains_char orb]; rewrite ?string_of_uint_no_slash;
    try (change (NilEmpty.string_of_uint (?f d))
           with (String "0" (NilEmpty.string_of_uint d)));
    cbn; rewrite ?string_of_uint_no_slash; reflexivity.
Qed.

(** Two texts without [/], each followed by [/]: the first [/] tells
    where they end. *)
Lemma until_slash_inj (a b r r' : string) :
  contains_char is_slash a = false -> contains_char is_slash b = false ->
  (a ++ String "/" r = b ++ String "/" r')%string -> a = b /\ r = r'.
Proof.
  revert b. induction a as [|x a IH]; intros [|y b]; cbn [append contains_char];
    intros Ha Hb H.
  - injection H as ->. split; reflexivity.
  - injection H as <- _. discriminate Hb.
  - injection H as -> _. discriminate Ha.
  - injection H as -> H.
    apply orb_false_iff in Ha, Hb.
    destruct (IH b (proj2 Ha) (proj2 Hb) H) as [-> ->]. split; reflexivity.
Qed.



Lemma output_path_inj h1 h2 :
  valid_datetime h1 = true -> valid_datetime h2 = true ->
  output_path h1 = output_path h2 ->
  dt_year h1 = dt_year h2 /\ dt_month h1 = dt_month h2
  /\ dt_day h1 = dt_day h2 /\ dt_hour h1 = dt_hour h2.
Proof.
  intros V1 V2.
  pose proof (valid_datetime_bounds _ V1) as (Y1 & M1 & D1 & H1 & _).
  pose proof (valid_datetime_bounds _ V2) as (Y2 & M2 & D2 & H2 & _).
  pose proof (days_in_month_max (dt_year h1) _ M1) as Dm1.
  pose proof (days_in_month_max (dt_year h2) _ M2) as Dm2.
  unfold output_path, strftime_Y, strftime_m, strftime_d, strftime_H.
  rewrite !(zero_pad_in_range 2) by (cbn; lia).
  intros H.
  apply string_app_inj in H; [|reflexivity]. destruct H as [_ H].
  apply until_slash_inj in H; try apply str_of_int_no_slash.
  destruct H as [Hy H]. apply str_of_int_inj in Hy.
  repeat match type of H with
         | (_ ++ _)%string = (_ ++ _)%string =>
             apply string_app_inj in H;
             [|first [reflexivity | rewrite !pad_digits_length; reflexivity]];
             let K := fresh "K" in destruct H as [K H]
         end.
  split; [exact Hy|].
  repeat split; (eapply pad_digits_inj; [| |eassumption]; cbn; lia).
Qed.


(** ** Configuration and the run as a whole *)

Section Run.

Variable bytes_decode_utf8 : list byte -> option string.
Variable json_loads : string -> option json.
Variable datetime_fromisoformat : string -> option datetime.
Variable int_of_str : string -> option Z.
Variable os_getenv : string -> option string.
Variable now_utc : Z.
Variable bucket_objects : string -> list blob.

(** A required variable that is set, or has a default, is returned; one
    that is neither raises. *)
Lemma get_env_var_required name default :
  get_env_var os_getenv name true default
  = match os_getenv name, default with
    | Some v, _ => Ok (Some v)
    | None, Some d => Ok (Some d)
    | None, None => Raise (RuntimeError_missing_env name)
    end.
Proof.
  unfold get_env_var. destruct (os_getenv name), default; reflexivity.
Qed.

(** [load_configuration], case by case. *)
Lemma load_configuration_cases :
  load_configuration int_of_str os_getenv
  = match os_getenv "INPUT_BUCKET", os_getenv "OUTPUT_BUCKET" with
    | None, _ => Raise (RuntimeError_missing_env "INPUT_BUCKET")
    | Some _, None => Raise (RuntimeError_missing_env "OUTPUT_BUCKET")
    | Some input, Some output =>
        match int_of_str (lookback_text os_getenv) with
        | None => Raise (ValueError_int_literal (lookback_text os_getenv))
        | Some n =>
            Ok (mkconfig input output
                  (match os_getenv "INPUT_PREFIX" with Some p => p | None => "events/" end)
                  n)
        end
    end.
Proof.
  unfold load_configuration, lookback_text. rewrite !get_env_var_required.
  destruct (os_getenv "INPUT_BUCKET"); [|reflexivity].
  destruct (os_getenv "OUTPUT_BUCKET"); [|reflexivity].
  destruct (os_getenv "INPUT_PREFIX"), (os_getenv "LOOKBACK_HOURS");
    cbn [int_of_value]; match goal with |- context [int_of_str ?t] =>
                                 destruct (int_of_str t) end; reflexivity.
Qed.

(** The amended C9. Loading the configuration raises the [RuntimeError]
    "Missing required environment variable" exactly when [INPUT_BUCKET]
    or [OUTPUT_BUCKET] is not set.  The lookback window is [int] of the
    variable [LOOKBACK_HOURS], or of ["24"] when it is not set; a text
    [int] does not accept is rejected with [int]'s [ValueError]; every
    integer [int] returns is accepted as it is, a negative one too. *)
Theorem load_configuration_spec :
  ((exists name,
       load_configuration int_of_str os_getenv = Raise (RuntimeError_missing_env name))
   <-> os_getenv "INPUT_BUCKET" = None \/ os_getenv "OUTPUT_BUCKET" = None)
  /\ (os_getenv "LOOKBACK_HOURS" = None -> int_of_str "24" = Some 24 ->
      forall cfg, load_configuration int_of_str os_getenv = Ok cfg ->
                  lookback_hours cfg = 24)
  /\ (forall cfg, load_configuration int_of_str os_getenv = Ok cfg ->
                  int_of_str (lookback_text os_getenv) = Some (lookback_hours cfg))
  /\ (forall input output,
        os_getenv "INPUT_BUCKET" = Some input ->
        os_getenv "OUTPUT_BUCKET" = Some output ->
        (int_of_str (lookback_text os_getenv) = None ->
         load_configuration int_of_str os_getenv
         = Raise (ValueError_int_literal (lookback_text os_getenv)))
        /\ (forall n, int_of_str (lookback_text os_getenv) = Some n ->
              exists cfg, load_configuration int_of_str os_getenv = Ok cfg
                          /\ input_bucket cfg = input /\ output_bucket cfg = output
                          /\ lookback_hours cfg = n)).
Proof.
  rewrite load_configuration_cases.
  split; [|split; [|split]].
  - destruct (os_getenv "INPUT_BUCKET") as [input|].
    + destruct (os_getenv "OUTPUT_BUCKET") as [output|].
      * split; [|intros [H|H]; discriminate].
        intros [name H]. destruct (int_of_str (lookback_text os_getenv)); discriminate.
      * split; [right; reflexivity | eexists; reflexivity].
    + split; [left; reflexivity | eexists; reflexivity].
  - intros Hlb H24 cfg. unfold lookback_text. rewrite Hlb, H24.
    destruct (os_getenv "INPUT_BUCKET"); [|discriminate].
    destruct (os_getenv "OUTPUT_BUCKET"); [|discriminate].
    intros [= <-]. reflexivity.
  - intros cfg.
    destruct (os_getenv "INPUT_BUCKET"); [|discriminate].
    destruct (os_getenv "OUTPUT_BUCKET"); [|discriminate].
    destruct (int_of_str (lookback_text os_getenv)); [|discriminate].
    intros [= <-]. reflexivity.
  - intros input output -> ->. split.
    + intros ->. reflexivity.
    + intros n ->. eexists. split; [reflexivity|]. repeat split.
Qed.

Lemma list_eligible_json_files_empty bucket_name pre lookback w0 :
  fst (list_eligible_json_files now_utc bucket_objects bucket_name pre lookback w0)
  = Ok [] ->
  exists cutoff_time,
    minus_hours now_utc lookback = Ok cutoff_time
    /\ filter (eligible cutoff_time) (list_blobs bucket_objects bucket_name pre) = [].
Proof.
  destruct (minus_hours now_utc lookback) as [cutoff_time|e] eqn:E.
  - rewrite (list_eligible_json_files_run _ _ _ _ _ _ w0 E). cbn [fst].
    intros [= H]. exists cutoff_time. split; [reflexivity | exact H].
  - unfold list_eligible_json_files, bind, lift, logging_info, emit.
    rewrite E. discriminate.
Qed.

(** What [main] does when the filter finds nothing. *)
Lemma main_run_no_eligible_files (cfg : configuration) (cutoff_time : Z) (w : world) :
  load_configuration int_of_str os_getenv = Ok cfg ->
  minus_hours now_utc (lookback_hours cfg) = Ok cutoff_time ->
  filter (eligible cutoff_time)
         (list_blobs bucket_objects (input_bucket cfg) (input_prefix cfg)) = [] ->
  main bytes_decode_utf8 json_loads datetime_fromisoformat int_of_str
       os_getenv now_utc bucket_objects w
  = (Ok tt,
     mkworld
       (w_log w ++
        [mklog INFO "Cloud Run Job started" [];
         mklog INFO "Configuration loaded:" [];
         mklog INFO "INPUT_BUCKET=%s" [LStr (input_bucket cfg)];
         mklog INFO "OUTPUT_BUCKET=%s" [LStr (output_bucket cfg)];
         mklog INFO "INPUT_PREFIX=%s" [LStr (input_prefix cfg)];
         mklog INFO "LOOKBACK_HOURS=%d" [LInt (lookback_hours cfg)];
         mklog INFO "Connecting to GCS..." [];
         mklog INFO "Filtering files updated before: %s" [LInstant cutoff_time]]
        ++ map found_file
             (filter (fun b => endswith (blob_name b) ".json")
                     (list_blobs bucket_objects (input_bucket cfg) (input_prefix cfg)))
        ++ [mklog INFO "Total eligible files: %d" [LInt 0];
            mklog INFO "Job finished file discovery phase" [];
            mklog INFO "No eligible files to process. Exiting job." []])
       (w_downloads w) (w_uploads w)).
Proof.
  intros Hcfg Hcut Hnone.
  unfold main, lift, logging_info, emit.
  unfold bind at 1 2 3 4 5 6 7. rewrite Hcfg. cbn [w_log w_downloads w_uploads].
  unfold bind at 1. rewrite (list_eligible_json_files_run _ _ _ _ _ _ _ Hcut), Hnone.
  unfold bind. cbn [w_log w_downloads w_uploads List.length Z.of_nat].
  rewrite <- !app_assoc. reflexivity.
Qed.

(** C10. When the configuration loads and the eligibility filter returns
    no file, [main] ends successfully right after discovery: nothing is
    downloaded, no document is uploaded, and the log ends with the
    discovery lines and "No eligible files to process. Exiting job.",
    without a line of the parser, the normalizer, the aggregator or the
    writer. *)
Theorem main_no_eligible_files (cfg : configuration) (w0 w : world) :
  load_configuration int_of_str os_getenv = Ok cfg ->
  fst (list_eligible_json_files now_utc bucket_objects
         (input_bucket cfg) (input_prefix cfg) (lookback_hours cfg) w0) = Ok [] ->
  let run := main bytes_decode_utf8 json_loads datetime_fromisoformat int_of_str
                  os_getenv now_utc bucket_objects w in
  fst run = Ok tt
  /\ w_uploads (snd run) = w_uploads w
  /\ w_downloads (snd run) = w_downloads w
  /\ exists discovery,
       w_log (snd run)
       = w_log w ++ discovery ++
         [mklog INFO "Job finished file discovery phase" [];
          mklog INFO "No eligible files to process. Exiting job." []]
       /\ Forall (fun r => is_later_stage r = false) discovery.
Proof.
  intros Hcfg Hempty. cbv zeta.
  destruct (list_eligible_json_files_empty _ _ _ _ Hempty) as (cutoff_time & Hcut & Hnone).
  rewrite (main_run_no_eligible_files _ _ w Hcfg Hcut Hnone).
  cbn [fst snd w_log w_downloads w_uploads].
  split; [reflexivity | split; [reflexivity | split; [reflexivity|]]].
  eexists. split.
  - f_equal. rewrite app_assoc.
    change [mklog INFO "Total eligible files: %d" [LInt 0];
            mklog INFO "Job finished file discovery phase" [];
            mklog INFO "No eligible files to process. Exiting job." []]
      with ([mklog INFO "Total eligible files: %d" [LInt 0]]
            ++ [mklog INFO "Job finished file discovery phase" [];
                mklog INFO "No eligible files to process. Exiting job." []]).
    rewrite app_assoc. reflexivity.
  - apply Forall_app. split; [|repeat constructor].
    apply Forall_app. split; [repeat constructor|].
    apply Forall_map, Forall_forall. intros b _. reflexivity.
Qed.

End Run.

(** ** The theorems at concrete inputs *)

(** C1 on an input with an offset that is not UTC.  The timestamp
    13:47:22+05:30 is 08:17:22 UTC, so its UTC hour starts at 08:00 UTC.
    The normalizer returns 13:00:00+05:30, which is 07:30 UTC: it zeroes
    minute, second and microsecond of the local reading and keeps the
    offset; it does not convert to UTC. *)
Theorem normalize_events_keeps_offset :
  let hour := mkdt 2024 3 1 13 0 0 0 (Some 19800000000) in
  fst (normalize_events Std.datetime_fromisoformat
         [Examples.click_event "2024-03-01T13:47:22+05:30"] Examples.w0)
  = Ok [mkne hour (JStr "click")]
  /\ isoformat hour = "2024-03-01T13:00:00+05:30"
  /\ Std.datetime_fromisoformat "2024-03-01T13:47:22+05:30"
     = Some (mkdt 2024 3 1 13 47 22 0 (Some 19800000000))
  /\ utc_micros (mkdt 2024 3 1 13 47 22 0 (Some 19800000000))
     = utc_micros (mkdt 2024 3 1 8 17 22 0 UTC)
  /\ utc_micros hour = utc_micros (mkdt 2024 3 1 7 30 0 0 UTC)
  /\ utc_micros hour <> utc_micros (mkdt 2024 3 1 8 0 0 0 UTC)
  /\ datetime_eqb hour (mkdt 2024 3 1 8 0 0 0 UTC) = false
  /\ dt_tzinfo hour <> UTC.
Proof.
  cbv zeta. repeat split; try reflexivity; vm_compute; discriminate.
Qed.

(** C2 as stated fails: an event with a valid timestamp and no
    [event_type] key raises [KeyError], not the [ValueError]. *)
Lemma normalize_events_missing_event_type :
  fst (normalize_events Std.datetime_fromisoformat [Examples.no_event_type] Examples.w0)
  = Raise (KeyError "event_type")
  /\ (forall event,
        fst (normalize_events Std.datetime_fromisoformat
               [Examples.no_event_type] Examples.w0)
        <> Raise (ValueError_invalid_timestamp event)).
Proof.
  split; [reflexivity|]. intros event. vm_compute. discriminate.
Qed.

Lemma normalize_events_first_invalid_witness :
  Forall2 (fun event record =>
             normalize_event Std.datetime_fromisoformat event = Ok record)
          [Examples.click_event "2024-03-01T13:47:22Z"]
          [mkne Examples.hour13 (JStr "click")]
  /\ fst (normalize_events Std.datetime_fromisoformat
            [Examples.click_event "2024-03-01T13:47:22Z";
             Examples.bad_timestamp; Examples.no_event_type] Examples.w0)
     = Raise (ValueError_invalid_timestamp Examples.bad_timestamp)
  /\ fst (normalize_events Std.datetime_fromisoformat
            [Examples.click_event "2024-03-01T13:47:22Z";
             Examples.no_event_type; Examples.bad_timestamp] Examples.w0)
     = Raise (KeyError "event_type").
Proof.
  assert (H : Forall2 (fun event record =>
                         normalize_event Std.datetime_fromisoformat event = Ok record)
                      [Examples.click_event "2024-03-01T13:47:22Z"]
                      [mkne Examples.hour13 (JStr "click")])
    by repeat constructor.
  split; [exact H|]. split.
  - exact (proj1 (proj2 (normalize_events_first_invalid
                           Std.datetime_fromisoformat _ _
                           [("event_timestamp", JStr "yesterday");
                            ("event_type", JStr "click")]
                           [Examples.no_event_type] Examples.w0 H))
                 "yesterday" eq_refl eq_refl).
  - exact (proj2 (proj2 (normalize_events_first_invalid
                           Std.datetime_fromisoformat _ _
                           [("event_timestamp", JStr "2024-03-01T13:47:22Z")]
                           [Examples.bad_timestamp] Examples.w0 H))
                 "2024-03-01T13:47:22Z" (mkdt 2024 3 1 13 47 22 0 UTC)
                 eq_refl eq_refl eq_refl).
Defined.

Lemma aggregate_events_counts_witness :
  Forall (fun e => hashable (ne_event_type e) = true) Examples.normalized
  /\ exists records,
       fst (aggregate_events Examples.normalized Examples.w0) = Ok records
       /\ NoDup (map record_key records)
       /\ sum_total_events records = 4.
Proof.
  split; [repeat constructor|].
  destruct (aggregate_events_counts Examples.normalized Examples.w0)
    as (records & Hrun & _ & Hnodup & _ & _ & Hsum & _); [repeat constructor|].
  exists records. split; [exact Hrun | split; [exact Hnodup | exact Hsum]].
Defined.

Lemma aggregate_events_permutation_witness :
  Permutation Examples.normalized Examples.normalized_reordered
  /\ Forall (fun e => hashable (ne_event_type e) = true) Examples.normalized
  /\ exists records1 records2,
       fst (aggregate_events Examples.normalized Examples.w0) = Ok records1
       /\ fst (aggregate_events Examples.normalized_reordered Examples.w0) = Ok records2
       /\ Permutation records1 records2.
Proof.
  assert (P : Permutation Examples.normalized Examples.normalized_reordered).
  { unfold Examples.normalized, Examples.normalized_reordered.
    eapply perm_trans; [apply perm_swap|]. apply perm_skip.
    eapply perm_trans; [apply perm_skip, perm_swap|]. apply perm_swap. }
  split; [exact P|]. split; [repeat constructor|].
  destruct (aggregate_events_permutation _ _ Examples.w0 Examples.w0 P)
    as (records1 & records2 & H1 & H2 & _ & _ & Hperm & _); [repeat constructor|].
  exists records1, records2. split; [exact H1 | split; [exact H2|]].
  apply Hperm. repeat constructor; eexists; reflexivity.
Defined.

Lemma list_eligible_json_files_spec_witness :
  minus_hours Examples.now_utc 24 = Ok Examples.cutoff_24h
  /\ exists eligible_files,
       fst (list_eligible_json_files Examples.now_utc Examples.bucket_objects
              "raw-events" "events/" 24 Examples.w0)
       = Ok eligible_files
       /\ eligible_files = [Examples.clicks; Examples.views]
       /\ ~ In Examples.at_cutoff eligible_files.
Proof.
  split; [reflexivity|].
  destruct (list_eligible_json_files_spec Examples.now_utc Examples.bucket_objects
              "raw-events" "events/" 24 Examples.cutoff_24h Examples.w0)
    as (eligible_files & Hrun & _ & Hfilter & _ & Hcut & _); [reflexivity|].
  exists eligible_files. split; [exact Hrun|]. split.
  - rewrite Hfilter. reflexivity.
  - apply Hcut. reflexivity.
Defined.

Lemma download_and_parse_events_concat_witness :
  Forall2 (holds_array Std.bytes_decode_utf8 Std.json_loads)
          [Examples.views; Examples.at_cutoff]
          [[JObj [("event_timestamp", JStr "2024-03-01T13:10:00Z");
                  ("event_type", JStr "view")];
            JObj [("event_timestamp", JStr "2024-03-01T13:20:00Z");
                  ("event_type", JStr "view")]];
           [JObj [("event_timestamp", JStr "2024-03-01T09:00:00Z");
                  ("event_type", JStr "late")]]]
  /\ fst (download_and_parse_events Std.bytes_decode_utf8 Std.json_loads
            [Examples.views; Examples.at_cutoff] Examples.w0)
     = Ok [JObj [("event_timestamp", JStr "2024-03-01T13:10:00Z");
                 ("event_type", JStr "view")];
           JObj [("event_timestamp", JStr "2024-03-01T13:20:00Z");
                 ("event_type", JStr "view")];
           JObj [("event_timestamp", JStr "2024-03-01T09:00:00Z");
                 ("event_type", JStr "late")]].
Proof.
  assert (H : Forall2 (holds_array Std.bytes_decode_utf8 Std.json_loads)
          [Examples.views; Examples.at_cutoff]
          [[JObj [("event_timestamp", JStr "2024-03-01T13:10:00Z");
                  ("event_type", JStr "view")];
            JObj [("event_timestamp", JStr "2024-03-01T13:20:00Z");
                  ("event_type", JStr "view")]];
           [JObj [("event_timestamp", JStr "2024-03-01T09:00:00Z");
                  ("event_type", JStr "late")]]]).
  { repeat constructor; apply parse_blob_holds_array; vm_compute; reflexivity. }
  split; [exact H|].
  exact (proj1 (download_and_parse_events_concat
                  Std.bytes_decode_utf8 Std.json_loads _ _ Examples.w0 H)).
Defined.




(** C9 as stated fails: a negative lookback window is accepted. *)
Lemma load_configuration_accepts_negative :
  load_configuration Std.int_of_str Examples.environ_negative
  = Ok (mkconfig "raw-events" "summaries-out" "events/" (-5))
  /\ -5 < 0.
Proof. split; [reflexivity | lia]. Qed.

Example load_configuration_examples :
  load_configuration Std.int_of_str Examples.environ
  = Ok (mkconfig "raw-events" "summaries-out" "events/" 24)
  /\ load_configuration Std.int_of_str (fun _ => None)
     = Raise (RuntimeError_missing_env "INPUT_BUCKET")
  /\ load_configuration Std.int_of_str
       (fun name => if (name =? "INPUT_BUCKET")%string then Some "raw-events" else None)
     = Raise (RuntimeError_missing_env "OUTPUT_BUCKET")
  /\ load_configuration Std.int_of_str
       (fun name => if (name =? "LOOKBACK_HOURS")%string then Some "2.5"
                    else Examples.environ name)
     = Raise (ValueError_int_literal "2.5").
Proof. repeat split; reflexivity. Qed.

Lemma main_no_eligible_files_witness :
  load_configuration Std.int_of_str Examples.environ_quiet
  = Ok (mkconfig "quiet" "summaries-out" "events/" 24)
  /\ fst (list_eligible_json_files Examples.now_utc Examples.bucket_objects
            "quiet" "events/" 24 Examples.w0) = Ok []
  /\ fst (Examples.run_job Examples.environ_quiet) = Ok tt
  /\ w_uploads (snd (Examples.run_job Examples.environ_quiet)) = []
  /\ w_downloads (snd (Examples.run_job Examples.environ_quiet)) = [].
Proof.
  split; [reflexivity|]. split; [reflexivity|].
  destruct (main_no_eligible_files
              Std.bytes_decode_utf8 Std.json_loads Std.datetime_fromisoformat
              Std.int_of_str Examples.environ_quiet Examples.now_utc
              Examples.bucket_objects
              (mkconfig "quiet" "summaries-out" "events/" 24) Examples.w0 Examples.w0)
    as (Hok & Hup & Hdown & _); [reflexivity | reflexivity |].
  split; [exact Hok | split; [exact Hup | exact Hdown]].
Defined.

(** ** Further properties of the run, on the examples of the specification *)

Lemma normalize_events_truncated_witness :
  fst (normalize_events Std.datetime_fromisoformat
         [Examples.click_event "2024-03-01T13:47:22.250+05:30"] Examples.w0)
  = Ok [mkne (mkdt 2024 3 1 13 0 0 0 (Some 19800000000)) (JStr "click")]
  /\ Forall (fun r => dt_minute (ne_hour r) = 0 /\ dt_second (ne_hour r) = 0
                      /\ dt_microsecond (ne_hour r) = 0)
            [mkne (mkdt 2024 3 1 13 0 0 0 (Some 19800000000)) (JStr "click")].
Proof.
  split; [reflexivity|].
  apply (normalize_events_truncated Std.datetime_fromisoformat
           [Examples.click_event "2024-03-01T13:47:22.250+05:30"] _ Examples.w0).
  reflexivity.
Defined.

Lemma normalize_event_utc_witness :
  parse_event_timestamp Std.datetime_fromisoformat
    (Examples.click_event "2024-03-01T13:47:22Z")
  = Ok (mkdt 2024 3 1 13 47 22 0 UTC)
  /\ normalize_event Std.datetime_fromisoformat
       (Examples.click_event "2024-03-01T13:47:22Z")
     = Ok (mkne Examples.hour13 (JStr "click"))
  /\ dt_tzinfo Examples.hour13 = UTC
  /\ exists t, utc_micros (mkdt 2024 3 1 13 47 22 0 UTC) = Some t
               /\ utc_micros Examples.hour13 = Some (t - t mod 3600000000).
Proof.
  split; [reflexivity|]. split; [reflexivity|].
  apply (normalize_event_utc Std.datetime_fromisoformat
           (Examples.click_event "2024-03-01T13:47:22Z")
           (mkdt 2024 3 1 13 47 22 0 UTC) (mkne Examples.hour13 (JStr "click")));
    reflexivity.
Defined.

(** The normalizer examples of the specification: 13:47:22Z falls in
    the bucket 2024-03-01T13:00:00+00:00, and a timestamp already on the
    hour is unchanged. *)
Theorem normalize_events_examples :
  fst (normalize_events Std.datetime_fromisoformat
         [Examples.click_event "2024-03-01T13:47:22Z";
          Examples.click_event "2024-03-01T13:00:00+00:00"] Examples.w0)
  = Ok [mkne Examples.hour13 (JStr "click"); mkne Examples.hour13 (JStr "click")]
  /\ isoformat Examples.hour13 = "2024-03-01T13:00:00+00:00"
  /\ Std.datetime_fromisoformat "2024-03-01T13:00:00+00:00" = Some Examples.hour13.
Proof. repeat split; reflexivity. Qed.

(** The writer example of the specification: two documents, at
    hour=13 and hour=14, each with the header and one data row. *)
Theorem write_hourly_csv_summaries_example :
  w_uploads (snd (write_hourly_csv_summaries Examples.aggregated "summaries-out"
                    Examples.w0))
  = [mkupload "summaries-out" "summaries/2024/03/01/hour=13/summary.csv"
       ("hour,event_type,total_events" ++ CRLF ++
        "2024-03-01T13:00:00+00:00,click,5" ++ CRLF)%string "text/csv";
     mkupload "summaries-out" "summaries/2024/03/01/hour=14/summary.csv"
       ("hour,event_type,total_events" ++ CRLF ++
        "2024-03-01T14:00:00+00:00,click,2" ++ CRLF)%string "text/csv"].
Proof. reflexivity. Qed.

(** The end-to-end example of the specification: three clicks and
    two views at 13:xx in two eligible files, a third file inside the
    lookback window (and one modified exactly at the cutoff); the run
    downloads the two eligible files and writes one document, for hour
    13, with the rows [click,3] and [view,2]. *)
Theorem end_to_end :
  fst (Examples.run_job Examples.environ) = Ok tt
  /\ w_downloads (snd (Examples.run_job Examples.environ))
     = ["events/clicks.json"; "events/views.json"]
  /\ w_uploads (snd (Examples.run_job Examples.environ))
     = [mkupload "summaries-out" "summaries/2024/03/01/hour=13/summary.csv"
          ("hour,event_type,total_events" ++ CRLF ++
           "2024-03-01T13:00:00+00:00,click,3" ++ CRLF ++
           "2024-03-01T13:00:00+00:00,view,2" ++ CRLF)%string
          "text/csv"].
Proof. vm_compute. repeat split; reflexivity. Qed.

(* ================================================================== *)
(** * Part V: further properties of the code *)

(** ** The eligibility filter *)

Lemma filter_eligible_earlier cutoff1 cutoff2 blobs :
  cutoff2 <= cutoff1 ->
  filter (eligible cutoff2) blobs
  = filter (fun b => blob_updated b <? cutoff2) (filter (eligible cutoff1) blobs).
Proof.
  intros Hle. induction blobs as [|b rest IH]; [reflexivity|].
  cbn [filter]. rewrite IH. unfold eligible.
  destruct (endswith (blob_name b) ".json"); cbn [andb]; [|reflexivity].
  destruct (Z.ltb_spec (blob_updated b) cutoff1) as [H1|H1];
    destruct (Z.ltb_spec (blob_updated b) cutoff2) as [H2|H2];
    cbn [filter]; try reflexivity; try lia.
  - destruct (Z.ltb_spec (blob_updated b) cutoff2); [reflexivity | lia].
  - destruct (Z.ltb_spec (blob_updated b) cutoff2); [lia | reflexivity].
Qed.

Lemma minus_hours_value now hours cutoff_time :
  minus_hours now hours = Ok cutoff_time -> cutoff_time = now - hours * 3600000000.
Proof.
  unfold minus_hours.
  destruct ((MIN_INSTANT <=? now - hours * 3600000000)
            && (now - hours * 3600000000 <=? MAX_INSTANT)); [|discriminate].
  intros [= <-]. reflexivity.
Qed.

Lemma minus_hours_cases now hours :
  (MIN_INSTANT <= now - hours * 3600000000 <= MAX_INSTANT
   /\ minus_hours now hours = Ok (now - hours * 3600000000))
  \/ ((now - hours * 3600000000 < MIN_INSTANT \/ MAX_INSTANT < now - hours * 3600000000)
      /\ minus_hours now hours = Raise OverflowError).
Proof.
  unfold minus_hours.
  destruct (Z.leb_spec MIN_INSTANT (now - hours * 3600000000));
    destruct (Z.leb_spec (now - hours * 3600000000) MAX_INSTANT); cbn [andb];
    [left | right | right | right]; split; try reflexivity; lia.
Qed.

Section FilterProperties.

Variable now_utc : Z.
Variable bucket_objects : string -> list blob.

Lemma list_eligible_json_files_raise bucket_name pre lookback_hours e w :
  minus_hours now_utc lookback_hours = Raise e ->
  list_eligible_json_files now_utc bucket_objects bucket_name pre lookback_hours w
  = (Raise e,
     mkworld (w_log w ++ [mklog INFO "Connecting to GCS..." []])
             (w_downloads w) (w_uploads w)).
Proof.
  intros H. unfold list_eligible_json_files, bind, lift, logging_info, emit.
  rewrite H. reflexivity.
Qed.

Lemma list_eligible_json_files_fst bucket_name pre lookback_hours w :
  fst (list_eligible_json_files now_utc bucket_objects bucket_name pre lookback_hours w)
  = match minus_hours now_utc lookback_hours with
    | Ok cutoff_time =>
        Ok (filter (eligible cutoff_time) (list_blobs bucket_objects bucket_name pre))
    | Raise e => Raise e
    end.
Proof.
  destruct (minus_hours now_utc lookback_hours) as [cutoff_time|e] eqn:E.
  - rewrite (list_eligible_json_files_run _ _ _ _ _ _ w E). reflexivity.
  - rewrite (list_eligible_json_files_raise _ _ _ _ w E). reflexivity.
Qed.

(** X3. On the same listing and clock, a longer lookback window never
    adds a file: the files returned for [hours2 >= hours1] are those
    returned for [hours1] that were modified before the cutoff of
    [hours2], in the same order. *)
Theorem list_eligible_json_files_monotone
  bucket_name pre (hours1 hours2 : Z) (files1 files2 : list blob) (w1 w2 : world) :
  hours1 <= hours2 ->
  fst (list_eligible_json_files now_utc bucket_objects bucket_name pre hours1 w1)
  = Ok files1 ->
  fst (list_eligible_json_files now_utc bucket_objects bucket_name pre hours2 w2)
  = Ok files2 ->
  files2 = filter (fun b => blob_updated b <? now_utc - hours2 * 3600000000) files1
  /\ incl files2 files1.
Proof.
  intros Hle. rewrite !list_eligible_json_files_fst.
  destruct (minus_hours now_utc hours1) as [c1|] eqn:E1; [|discriminate].
  destruct (minus_hours now_utc hours2) as [c2|] eqn:E2; [|discriminate].
  intros [= <-] [= <-].
  apply minus_hours_value in E1, E2. subst c1 c2.
  assert (Heq := filter_eligible_earlier
                   (now_utc - hours1 * 3600000000) (now_utc - hours2 * 3600000000)
                   (list_blobs bucket_objects bucket_name pre) ltac:(lia)).
  split; [exact Heq|].
  rewrite Heq. intros b Hb. apply filter_In in Hb. apply Hb.
Qed.

(** X4. The filter reads metadata only: it downloads and uploads
    nothing, whatever its outcome.  When it returns, it has logged the
    cutoff, one "Found file" line for every listed object whose name ends
    in [.json] (the recent ones it skips included, the other objects
    not), and the number of files it returns. *)
Theorem list_eligible_json_files_reads_metadata bucket_name pre lookback_hours w :
  let run :=
    list_eligible_json_files now_utc bucket_objects bucket_name pre lookback_hours w in
  let listed := list_blobs bucket_objects bucket_name pre in
  w_downloads (snd run) = w_downloads w
  /\ w_uploads (snd run) = w_uploads w
  /\ (forall eligible_files,
        fst run = Ok eligible_files ->
        w_log (snd run)
        = w_log w
          ++ [mklog INFO "Connecting to GCS..." [];
              mklog INFO "Filtering files updated before: %s"
                    [LInstant (now_utc - lookback_hours * 3600000000)]]
          ++ map (fun b => mklog INFO "Found file: %s | updated: %s"
                                 [LStr (blob_name b); LInstant (blob_updated b)])
                 (filter (fun b => endswith (blob_name b) ".json") listed)
          ++ [mklog INFO "Total eligible files: %d"
                    [LInt (Z.of_nat (List.length eligible_files))]]).
Proof.
  cbv zeta.
  destruct (minus_hours now_utc lookback_hours) as [cutoff_time|e] eqn:E.
  - rewrite (list_eligible_json_files_run _ _ _ _ _ _ w E).
    cbn [fst snd w_log w_downloads w_uploads].
    split; [reflexivity | split; [reflexivity|]].
    intros files [= <-]. rewrite (minus_hours_value _ _ _ E). reflexivity.
  - rewrite (list_eligible_json_files_raise _ _ _ _ w E).
    cbn [fst snd w_log w_downloads w_uploads].
    split; [reflexivity | split; [reflexivity | discriminate]].
Qed.

(** X5. The filter raises exactly when [now - lookback_hours] hours
    leaves the range of [datetime] (years 1 to 9999): the exception is
    [OverflowError], raised before the bucket is listed, when only
    "Connecting to GCS..." has been logged. *)
Theorem list_eligible_json_files_out_of_range bucket_name pre lookback_hours w :
  let run :=
    list_eligible_json_files now_utc bucket_objects bucket_name pre lookback_hours w in
  let cutoff_time := now_utc - lookback_hours * 3600000000 in
  ((exists e, fst run = Raise e)
   <-> cutoff_time < MIN_INSTANT \/ MAX_INSTANT < cutoff_time)
  /\ (forall e, fst run = Raise e ->
        e = OverflowError
        /\ w_log (snd run) = w_log w ++ [mklog INFO "Connecting to GCS..." []]).
Proof.
  cbv zeta.
  destruct (minus_hours_cases now_utc lookback_hours) as [[Hin E]|[Hout E]].
  - rewrite (list_eligible_json_files_run _ _ _ _ _ _ w E). cbn [fst snd w_log].
    split; [split; [intros [e H]; discriminate | lia] | discriminate].
  - rewrite (list_eligible_json_files_raise _ _ _ _ w E). cbn [fst snd w_log].
    split; [split; [intros _; exact Hout | intros _; eexists; reflexivity]|].
    intros e [= <-]. split; reflexivity.
Qed.

End FilterProperties.

(** ** The event parser *)

Section ParserProperties.

Variable bytes_decode_utf8 : list byte -> option string.
Variable json_loads : string -> option json.

Lemma parse_blobs_all_arrays blobs events :
  parse_blobs bytes_decode_utf8 json_loads blobs = Ok events <->
  exists arrays,
    Forall2 (holds_array bytes_decode_utf8 json_loads) blobs arrays
    /\ events = List.concat arrays.
Proof.
  revert events. induction blobs as [|b rest IH]; intros events; cbn [parse_blobs].
  - split.
    + intros [= <-]. exists []. split; [constructor | reflexivity].
    + intros (arrays & H & ->). inversion H. reflexivity.
  - split.
    + destruct (parse_blob bytes_decode_utf8 json_loads b) as [array|] eqn:Eb;
        [|discriminate].
      destruct (parse_blobs bytes_decode_utf8 json_loads rest) as [more|] eqn:Er;
        [|discriminate].
      intros [= <-]. destruct (proj1 (IH more) eq_refl) as (arrays & H & ->).
      exists (array :: arrays). split; [|reflexivity].
      constructor; [apply parse_blob_holds_array, Eb | exact H].
    + intros (arrays & H & ->). inversion H as [|b' array rest' arrays' Hb Hrest]; subst.
      rewrite (holds_array_parse_blob _ _ _ _ Hb).
      rewrite (proj2 (IH (List.concat arrays')))
        by (exists arrays'; split; [exact Hrest | reflexivity]).
      reflexivity.
Qed.

Lemma parse_blobs_first_failure blobs e :
  parse_blobs bytes_decode_utf8 json_loads blobs = Raise e ->
  exists good arrays bad rest,
    blobs = good ++ bad :: rest
    /\ Forall2 (holds_array bytes_decode_utf8 json_loads) good arrays
    /\ parse_blob bytes_decode_utf8 json_loads bad = Raise e
    /\ files_read bytes_decode_utf8 json_loads blobs = good ++ [bad].
Proof.
  induction blobs as [|b rest IH]; cbn [parse_blobs files_read]; [discriminate|].
  destruct (parse_blob bytes_decode_utf8 json_loads b) as [array|e'] eqn:Eb.
  - destruct (parse_blobs bytes_decode_utf8 json_loads rest) as [more|e''] eqn:Er;
      [discriminate|].
    intros [= ->].
    destruct (IH eq_refl) as (good & arrays & bad & rest' & -> & H & Hb & Hr).
    exists (b :: good), (array :: arrays), bad, rest'.
    split; [reflexivity|].
    split; [constructor; [apply parse_blob_holds_array, Eb | exact H]|].
    split; [exact Hb|]. rewrite Hr. reflexivity.
  - intros [= ->]. exists [], [], b, rest.
    split; [reflexivity|]. split; [constructor|]. split; [exact Eb | reflexivity].
Qed.

Lemma files_read_all blobs events :
  parse_blobs bytes_decode_utf8 json_loads blobs = Ok events ->
  files_read bytes_decode_utf8 json_loads blobs = blobs.
Proof.
  revert events. induction blobs as [|b rest IH]; intros events;
    cbn [parse_blobs files_read]; [reflexivity|].
  destruct (parse_blob bytes_decode_utf8 json_loads b) as [array|]; [|discriminate].
  destruct (parse_blobs bytes_decode_utf8 json_loads rest) as [more|] eqn:Er;
    [|discriminate].
  intros _. rewrite (IH more eq_refl). reflexivity.
Qed.

(** What the loop does to the world, whatever the outcome. *)
Lemma parse_loop_run blobs :
  forall all_events w,
  exists lines,
    parse_loop bytes_decode_utf8 json_loads blobs all_events w
    = (match parse_blobs bytes_decode_utf8 json_loads blobs with
       | Ok events => Ok (all_events ++ events)
       | Raise e => Raise e
       end,
       mkworld (w_log w ++ lines)
               (w_downloads w
                ++ map blob_name (files_read bytes_decode_utf8 json_loads blobs))
               (w_uploads w)).
Proof.
  induction blobs as [|b rest IH]; intros acc w.
  - exists []. cbn. rewrite !app_nil_r. destruct w; reflexivity.
  - cbn [parse_blobs files_read].
    destruct (parse_blob bytes_decode_utf8 json_loads b) as [array|e'] eqn:Eb.
    + rewrite (parse_loop_step _ _ _ _ _ _ _ Eb).
      match goal with |- context [parse_loop _ _ rest ?a ?w'] =>
        destruct (IH a w') as (lines & ->) end.
      cbn [w_log w_downloads w_uploads].
      exists ([mklog INFO "Downloading file: %s" [LStr (blob_name b)];
               mklog INFO "Parsed %d events from %s"
                     [LInt (Z.of_nat (List.length array)); LStr (blob_name b)]]
              ++ lines).
      rewrite <- !app_assoc. cbn [map app].
      destruct (parse_blobs bytes_decode_utf8 json_loads rest);
        rewrite <- ?app_assoc; reflexivity.
    + exists (mklog INFO "Downloading file: %s" [LStr (blob_name b)]
              :: error_line bytes_decode_utf8 json_loads b).
      unfold parse_blob in Eb. unfold error_line. cbn [parse_loop].
      unfold bind, logging_info, logging_error, emit, download_as_bytes, raise.
      cbn [w_log w_downloads w_uploads map].
      destruct (bytes_decode_utf8 (blob_bytes b)) as [content|].
      * destruct (json_loads content) as [[| | | |items|]|]; try discriminate;
          injection Eb as <-; cbn [w_log w_downloads w_uploads];
          rewrite <- ?app_assoc; reflexivity.
      * injection Eb as <-. cbn [w_log w_downloads w_uploads].
        rewrite <- ?app_assoc. reflexivity.
Qed.

(** The log of a run that fails ends with the download line of the file
    that failed and the error line, when that file has one. *)
Lemma parse_loop_failure_log good arrays bad e rest :
  Forall2 (holds_array bytes_decode_utf8 json_loads) good arrays ->
  parse_blob bytes_decode_utf8 json_loads bad = Raise e ->
  forall all_events w,
  exists earlier,
    w_log (snd (parse_loop bytes_decode_utf8 json_loads (good ++ bad :: rest)
                           all_events w))
    = w_log w ++ earlier
      ++ mklog INFO "Downloading file: %s" [LStr (blob_name bad)]
         :: error_line bytes_decode_utf8 json_loads bad.
Proof.
  intros Hgood Hbad.
  induction Hgood as [|b events blobs arrays Hb _ IH]; intros acc w; cbn [app].
  - exists []. unfold parse_blob in Hbad. unfold error_line. cbn [parse_loop].
    unfold bind, logging_info, logging_error, emit, download_as_bytes, raise.
    cbn [w_log w_downloads w_uploads map app].
    destruct (bytes_decode_utf8 (blob_bytes bad)) as [content|].
    + destruct (json_loads content) as [[| | | |items|]|]; try discriminate;
        cbn [snd w_log]; rewrite <- ?app_assoc; reflexivity.
    + cbn [snd w_log]. rewrite <- ?app_assoc. reflexivity.
  - rewrite (parse_loop_step _ _ _ _ _ _ _ (holds_array_parse_blob _ _ _ _ Hb)).
    match goal with |- context [parse_loop _ _ _ ?a ?w'] =>
      destruct (IH a w') as (earlier & ->) end.
    cbn [w_log].
    exists ([mklog INFO "Downloading file: %s" [LStr (blob_name b)];
             mklog INFO "Parsed %d events from %s"
                   [LInt (Z.of_nat (List.length events)); LStr (blob_name b)]]
            ++ earlier).
    rewrite <- !app_assoc. reflexivity.
Qed.

Lemma download_and_parse_events_run blobs w :
  exists lines,
    download_and_parse_events bytes_decode_utf8 json_loads blobs w
    = (parse_blobs bytes_decode_utf8 json_loads blobs,
       mkworld (w_log w ++ lines)
               (w_downloads w
                ++ map blob_name (files_read bytes_decode_utf8 json_loads blobs))
               (w_uploads w)).
Proof.
  unfold download_and_parse_events, bind.
  destruct (parse_loop_run blobs [] w) as (lines & ->).
  destruct (parse_blobs bytes_decode_utf8 json_loads blobs) as [events|e].
  - unfold logging_info, emit, ret. cbn [w_log w_downloads w_uploads app].
    exists (lines ++ [mklog INFO "Total events parsed across all files: %d"
                            [LInt (Z.of_nat (List.length events))]]).
    rewrite <- app_assoc. reflexivity.
  - exists lines. reflexivity.
Qed.

(** X6. The parser returns events exactly when every file decodes,
    parses and holds a JSON array; the events are then the elements of
    the arrays, file after file.  The elements are not inspected: they
    need not be objects. *)
Theorem download_and_parse_events_ok_iff
  (blobs : list blob) (events : list json) (w : world) :
  fst (download_and_parse_events bytes_decode_utf8 json_loads blobs w) = Ok events
  <-> exists arrays,
        Forall2 (holds_array bytes_decode_utf8 json_loads) blobs arrays
        /\ events = List.concat arrays.
Proof.
  destruct (download_and_parse_events_run blobs w) as (lines & ->). cbn [fst].
  apply parse_blobs_all_arrays.
Qed.

(** What a run that stops at a file has done. *)
Lemma download_and_parse_events_stops good arrays bad e rest w :
  Forall2 (holds_array bytes_decode_utf8 json_loads) good arrays ->
  parse_blob bytes_decode_utf8 json_loads bad = Raise e ->
  let run :=
    download_and_parse_events bytes_decode_utf8 json_loads (good ++ bad :: rest) w in
  fst run = Raise e
  /\ w_downloads (snd run) = w_downloads w ++ map blob_name good ++ [blob_name bad]
  /\ w_uploads (snd run) = w_uploads w
  /\ exists earlier,
       w_log (snd run)
       = w_log w ++ earlier
         ++ mklog INFO "Downloading file: %s" [LStr (blob_name bad)]
            :: error_line bytes_decode_utf8 json_loads bad.
Proof.
  intros Hgood Hbad. cbv zeta.
  destruct (parse_loop_first_failure _ _ _ _ _ _ rest Hgood Hbad [] w) as [Hfst Hdl].
  destruct (parse_loop_failure_log _ _ _ _ rest Hgood Hbad [] w) as (earlier & Hlog).
  split; [rewrite download_and_parse_events_fst; exact Hfst|].
  split; [rewrite download_and_parse_events_downloads; exact Hdl|].
  split.
  - destruct (download_and_parse_events_run (good ++ bad :: rest) w) as (lines & ->).
    reflexivity.
  - exists earlier. rewrite <- Hlog.
    unfold download_and_parse_events, bind.
    destruct (parse_loop bytes_decode_utf8 json_loads (good ++ bad :: rest) [] w)
      as [[events|e'] w'] eqn:E; cbn [fst snd] in *; [discriminate | reflexivity].
Qed.

(** X7. What a parser run that fails has done, for the three failures of
    a file the model has (another exception of [json.loads], such as
    [RecursionError], is outside it).  After files that hold arrays, a
    file that does not decode, or for which [json.loads] raises
    [JSONDecodeError], or whose JSON value is no array, ends the run with
    its exception.  The files before it and that file have been
    downloaded, in order, and no file after it; nothing is uploaded.
    The log ends with the "Downloading file" line of that file, followed
    by the ERROR line in the first two cases and by nothing in the
    third. *)
Theorem download_and_parse_events_failure_effects
  (good : list blob) (arrays : list (list json)) (bad : blob) (rest : list blob)
  (w : world) :
  Forall2 (holds_array bytes_decode_utf8 json_loads) good arrays ->
  let run :=
    download_and_parse_events bytes_decode_utf8 json_loads (good ++ bad :: rest) w in
  let stopped (e : exn) (last : list log_record) :=
    fst run = Raise e
    /\ w_downloads (snd run) = w_downloads w ++ map blob_name good ++ [blob_name bad]
    /\ w_uploads (snd run) = w_uploads w
    /\ exists earlier,
         w_log (snd run)
         = w_log w ++ earlier
           ++ mklog INFO "Downloading file: %s" [LStr (blob_name bad)] :: last in
  (bytes_decode_utf8 (blob_bytes bad) = None ->
   stopped UnicodeDecodeError
           [mklog ERROR "Failed to decode file %s as UTF-8" [LStr (blob_name bad)]])
  /\ (forall content,
        bytes_decode_utf8 (blob_bytes bad) = Some content ->
        json_loads content = None ->
        stopped JSONDecodeError
                [mklog ERROR "Invalid JSON in file %s" [LStr (blob_name bad)]])
  /\ (forall content value,
        bytes_decode_utf8 (blob_bytes bad) = Some content ->
        json_loads content = Some value ->
        (forall events, value <> JArr events) ->
        stopped (ValueError_expected_array (blob_name bad)) []).
Proof.
  intros Hgood. cbv zeta.
  pose proof (fun e => download_and_parse_events_stops good arrays bad e rest w Hgood)
    as Hstop. cbv zeta in Hstop.
  split; [|split].
  - intros Hd.
    assert (Hbad : parse_blob bytes_decode_utf8 json_loads bad = Raise UnicodeDecodeError)
      by (unfold parse_blob; rewrite Hd; reflexivity).
    specialize (Hstop _ Hbad). unfold error_line in Hstop. rewrite Hd in Hstop.
    exact Hstop.
  - intros content Hd Hj.
    assert (Hbad : parse_blob bytes_decode_utf8 json_loads bad = Raise JSONDecodeError)
      by (unfold parse_blob; rewrite Hd, Hj; reflexivity).
    specialize (Hstop _ Hbad). unfold error_line in Hstop. rewrite Hd, Hj in Hstop.
    exact Hstop.
  - intros content value Hd Hj Hv.
    assert (Hbad : parse_blob bytes_decode_utf8 json_loads bad
                   = Raise (ValueError_expected_array (blob_name bad))).
    { unfold parse_blob. rewrite Hd, Hj.
      destruct value as [| | | |items|]; try reflexivity.
      destruct (Hv items eq_refl). }
    specialize (Hstop _ Hbad). unfold error_line in Hstop. rewrite Hd, Hj in Hstop.
    exact Hstop.
Qed.

End ParserProperties.

(** ** The normalizer *)

Lemma replace_char_app old new (a b : string) :
  replace_char old new (a ++ b) = (replace_char old new a ++ replace_char old new b)%string.
Proof.
  induction a as [|c t IH]; cbn [append replace_char]; [reflexivity|].
  rewrite IH. destruct (Ascii.eqb c old); [|reflexivity].
  rewrite string_app_assoc. reflexivity.
Qed.

Section NormalizerProperties.

Variable datetime_fromisoformat : string -> option datetime.

Lemma normalize_event_ok_iff event record :
  normalize_event datetime_fromisoformat event = Ok record
  <-> exists items text ts,
        event = JObj items
        /\ dict_lookup "event_timestamp" items = Some (JStr text)
        /\ datetime_fromisoformat (replace_char "Z" "+00:00" text) = Some ts
        /\ dict_lookup "event_type" items = Some (ne_event_type record)
        /\ ne_hour record = replace_minute_second_microsecond ts.
Proof.
  unfold normalize_event, parse_event_timestamp, subscript. split.
  - destruct event as [| | | | |items]; try discriminate.
    destruct (dict_lookup "event_timestamp" items) as [[| | |text| |]|] eqn:Ev;
      try discriminate.
    destruct (datetime_fromisoformat (replace_char "Z" "+00:00" text)) as [ts|] eqn:Ets;
      [|discriminate].
    destruct (dict_lookup "event_type" items) as [event_type|] eqn:Ety; [|discriminate].
    intros [= <-]. exists items, text, ts. repeat split; try reflexivity; assumption.
  - intros (items & text & ts & -> & -> & -> & -> & Hh).
    destruct record as [hour event_type]. cbn [ne_hour ne_event_type] in *.
    rewrite Hh. reflexivity.
Qed.

Lemma normalize_loop_ok_inv events :
  forall normalized result,
    normalize_loop datetime_fromisoformat events normalized = Ok result ->
    exists records,
      result = normalized ++ records
      /\ Forall2 (fun event record =>
                    normalize_event datetime_fromisoformat event = Ok record)
                 events records.
Proof.
  induction events as [|event rest IH]; intros normalized result; cbn [normalize_loop].
  - intros [= <-]. exists []. split; [rewrite app_nil_r; reflexivity | constructor].
  - destruct (normalize_event datetime_fromisoformat event) as [record|] eqn:E;
      [|discriminate].
    intros H. destruct (IH _ _ H) as (records & -> & HF).
    exists (record :: records). split; [rewrite <- app_assoc; reflexivity|].
    constructor; assumption.
Qed.

Lemma normalize_loop_raise_inv events :
  forall normalized e,
    normalize_loop datetime_fromisoformat events normalized = Raise e ->
    exists good records bad rest,
      events = good ++ bad :: rest
      /\ Forall2 (fun event record =>
                    normalize_event datetime_fromisoformat event = Ok record)
                 good records
      /\ normalize_event datetime_fromisoformat bad = Raise e.
Proof.
  induction events as [|event rest IH]; intros normalized e; cbn [normalize_loop];
    [discriminate|].
  destruct (normalize_event datetime_fromisoformat event) as [record|e'] eqn:E.
  - intros H. destruct (IH _ _ H) as (good & records & bad & rest' & -> & HF & Hbad).
    exists (event :: good), (record :: records), bad, rest'.
    split; [reflexivity|]. split; [constructor; assumption | exact Hbad].
  - intros [= ->]. exists [], [], event, rest.
    split; [reflexivity|]. split; [constructor | exact E].
Qed.

(** X8. The normalizer returns records exactly when every event is an
    object whose [event_timestamp] is a string that [fromisoformat]
    accepts once each [Z] is replaced by [+00:00], and which has an
    [event_type] key.  There is then one record per event, in order: its
    hour is the parsed timestamp with minute, second and microsecond set
    to zero (date, hour and offset kept), its event type the value under
    [event_type], of whatever type, unchanged. *)
Theorem normalize_events_ok_iff
  (events : list json) (records : list NormalizedEvent) (w : world) :
  fst (normalize_events datetime_fromisoformat events w) = Ok records
  <-> Forall2
        (fun event record =>
           exists items text ts,
             event = JObj items
             /\ dict_lookup "event_timestamp" items = Some (JStr text)
             /\ datetime_fromisoformat (replace_char "Z" "+00:00" text) = Some ts
             /\ dict_lookup "event_type" items = Some (ne_event_type record)
             /\ ne_hour record
                = mkdt (dt_year ts) (dt_month ts) (dt_day ts) (dt_hour ts) 0 0 0
                       (dt_tzinfo ts))
        events records.
Proof.
  rewrite normalize_events_fst. split.
  - intros H. destruct (normalize_loop_ok_inv _ _ _ H) as (records' & -> & HF).
    cbn [app]. eapply Forall2_impl; [|exact HF].
    intros event record Hr. apply normalize_event_ok_iff in Hr. exact Hr.
  - intros HF.
    rewrite (normalize_loop_all_ok datetime_fromisoformat events records); [reflexivity|].
    eapply Forall2_impl; [|exact HF].
    intros event record Hr. apply normalize_event_ok_iff. exact Hr.
Qed.

(** X9. When the normalizer raises, it has logged nothing, and the
    exception is that of the first event that cannot be normalized: the
    [ValueError] "Invalid timestamp format" naming that event when its
    timestamp cannot be read, [KeyError] for [event_type] when the
    timestamp is read and the key [event_type] is missing.  No other
    exception leaves the function. *)
Theorem normalize_events_raises (events : list json) (e : exn) (w : world) :
  fst (normalize_events datetime_fromisoformat events w) = Raise e ->
  snd (normalize_events datetime_fromisoformat events w) = w
  /\ exists good records bad rest,
       events = good ++ bad :: rest
       /\ Forall2 (fun event record =>
                     normalize_event datetime_fromisoformat event = Ok record)
                  good records
       /\ ((e = ValueError_invalid_timestamp bad
            /\ forall ts, parse_event_timestamp datetime_fromisoformat bad <> Ok ts)
           \/ (e = KeyError "event_type"
               /\ exists items ts,
                    bad = JObj items
                    /\ parse_event_timestamp datetime_fromisoformat bad = Ok ts
                    /\ dict_lookup "event_type" items = None)).
Proof.
  rewrite normalize_events_fst. intros H. split.
  - unfold normalize_events, bind, lift. rewrite H. reflexivity.
  - destruct (normalize_loop_raise_inv _ _ _ H)
      as (good & records & bad & rest & -> & HF & Hbad).
    exists good, records, bad, rest. split; [reflexivity|]. split; [exact HF|].
    unfold normalize_event in Hbad.
    destruct (parse_event_timestamp datetime_fromisoformat bad) as [ts|e'] eqn:Ets.
    + right. unfold subscript in Hbad.
      destruct bad as [| | | | |items]; try discriminate.
      destruct (dict_lookup "event_type" items) as [v|] eqn:Ety; [discriminate|].
      injection Hbad as <-. split; [reflexivity|].
      exists items, ts. repeat split; assumption.
    + left. injection Hbad as <-. split; [reflexivity | discriminate].
Qed.

(** X10. An event that is no object (a string, a number, a list,
    [null]), and an object whose [event_timestamp] is no string, are
    rejected with the [ValueError] "Invalid timestamp format" naming the
    event: the [except Exception] clause covers the [TypeError] and the
    [AttributeError] as well. *)
Theorem normalize_events_malformed_event
  (good : list json) (records : list NormalizedEvent) (bad : json) (rest : list json)
  (w : world) :
  Forall2 (fun event record =>
             normalize_event datetime_fromisoformat event = Ok record)
          good records ->
  (forall items, bad <> JObj items)
  \/ (exists items value,
        bad = JObj items
        /\ dict_lookup "event_timestamp" items = Some value
        /\ forall text, value <> JStr text) ->
  fst (normalize_events datetime_fromisoformat (good ++ bad :: rest) w)
  = Raise (ValueError_invalid_timestamp bad).
Proof.
  intros HF Hbad. rewrite normalize_events_fst.
  apply (normalize_loop_first_failure datetime_fromisoformat _ _ _ _ _ HF).
  unfold normalize_event.
  assert (Hts : exists e, parse_event_timestamp datetime_fromisoformat bad = Raise e).
  { unfold parse_event_timestamp, subscript. destruct Hbad as [Hno|Hval].
    - destruct bad as [| | | | |items]; try (eexists; reflexivity).
      exfalso. apply (Hno items). reflexivity.
    - destruct Hval as (items & value & -> & -> & Hv).
      destruct value as [| | |text| |]; try (eexists; reflexivity).
      exfalso. apply (Hv text). reflexivity. }
  destruct Hts as [e ->]. reflexivity.
Qed.

(** X11. For a timestamp with a UTC offset, whatever it is, the hour the
    normalizer emits keeps the offset, and its instant is the instant [t]
    of the timestamp moved back by [(t + offset) mod 1 hour].  That is
    the start of the UTC hour of the timestamp exactly when the offset
    is a whole number of hours. *)
Theorem normalize_event_offset event ts off record :
  parse_event_timestamp datetime_fromisoformat event = Ok ts ->
  valid_datetime ts = true ->
  dt_tzinfo ts = Some off ->
  normalize_event datetime_fromisoformat event = Ok record ->
  dt_tzinfo (ne_hour record) = Some off
  /\ exists t,
       utc_micros ts = Some t
       /\ utc_micros (ne_hour record) = Some (t - (t + off) mod 3600000000)
       /\ (utc_micros (ne_hour record) = Some (t - t mod 3600000000)
           <-> off mod 3600000000 = 0).
Proof.
  intros Hts V Htz. unfold normalize_event. rewrite Hts.
  destruct (subscript event "event_type") as [event_type|e]; [|discriminate].
  intros [= <-]. cbn [ne_hour]. split; [exact Htz|].
  exists (wall_micros ts - off). unfold utc_micros.
  cbn [replace_minute_second_microsecond dt_tzinfo].
  pose proof (replace_hour_start ts V) as Hh.
  rewrite Hh, Htz.
  split; [reflexivity|].
  replace (wall_micros ts - off + off) with (wall_micros ts) by lia.
  split; [f_equal; lia|].
  generalize (wall_micros ts). intros wall. split.
  - intros [= H]. Z.div_mod_to_equations. lia.
  - intros H. f_equal. Z.div_mod_to_equations. lia.
Qed.

(** X12. A timestamp that ends in [Z] is read exactly as the same text
    ending in [+00:00], whatever [fromisoformat] accepts: two events that
    differ only in this give the same record, or fail alike. *)
Theorem normalize_event_Z_suffix
  (text : string) (items1 items2 : list (string * json)) :
  dict_lookup "event_timestamp" items1 = Some (JStr (text ++ "Z")) ->
  dict_lookup "event_timestamp" items2 = Some (JStr (text ++ "+00:00")) ->
  dict_lookup "event_type" items1 = dict_lookup "event_type" items2 ->
  parse_event_timestamp datetime_fromisoformat (JObj items1)
  = parse_event_timestamp datetime_fromisoformat (JObj items2)
  /\ forall record,
       normalize_event datetime_fromisoformat (JObj items1) = Ok record
       <-> normalize_event datetime_fromisoformat (JObj items2) = Ok record.
Proof.
  intros H1 H2 Hty.
  assert (Hts : parse_event_timestamp datetime_fromisoformat (JObj items1)
                = parse_event_timestamp datetime_fromisoformat (JObj items2)).
  { unfold parse_event_timestamp, subscript. rewrite H1, H2, !replace_char_app.
    reflexivity. }
  split; [exact Hts|].
  intros record. unfold normalize_event. rewrite Hts.
  unfold subscript. rewrite Hty.
  destruct (parse_event_timestamp datetime_fromisoformat (JObj items2)) as [ts|e].
  - reflexivity.
  - split; discriminate.
Qed.

End NormalizerProperties.

(** ** The aggregator *)

Lemma aggregate_loop_app events1 events2 :
  forall aggregation,
    aggregate_loop (events1 ++ events2) aggregation
    = match aggregate_loop events1 aggregation with
      | Ok aggregation' => aggregate_loop events2 aggregation'
      | Raise e => Raise e
      end.
Proof.
  induction events1 as [|e rest IH]; intros aggregation; cbn [app aggregate_loop];
    [reflexivity|].
  destruct (atom_of_json (ne_event_type e)); [apply IH | reflexivity].
Qed.

Lemma aggregate_loop_raise events :
  forall aggregation e,
    aggregate_loop events aggregation = Raise e ->
    e = TypeError_unhashable
    /\ Exists (fun ev => hashable (ne_event_type ev) = false) events.
Proof.
  induction events as [|ev rest IH]; intros aggregation e; cbn [aggregate_loop];
    [discriminate|].
  destruct (atom_of_json (ne_event_type ev)) eqn:E.
  - intros H. destruct (IH _ _ H) as [-> Hex]. split; [reflexivity|].
    apply Exists_cons_tl, Hex.
  - intros [= <-]. split; [reflexivity|]. apply Exists_cons_hd.
    unfold hashable. rewrite E. reflexivity.
Qed.

Lemma aggregate_events_fst events w :
  fst (aggregate_events events w)
  = match aggregate_loop events [] with
    | Ok aggregation => Ok (map record_of_entry aggregation)
    | Raise e => Raise e
    end.
Proof.
  unfold aggregate_events, bind, lift.
  destruct (aggregate_loop events []); reflexivity.
Qed.

(** X13. The aggregator returns records exactly when every event type
    is hashable.  An event type that is a list or a dict (the normalizer
    lets them through) makes it raise [TypeError]; it raises nothing
    else, and when it raises it has logged nothing. *)
Theorem aggregate_events_unhashable (events : list NormalizedEvent) (w : world) :
  let run := aggregate_events events w in
  ((exists records, fst run = Ok records)
   <-> Forall (fun e => hashable (ne_event_type e) = true) events)
  /\ (fst run = Raise TypeError_unhashable
      <-> Exists (fun e => hashable (ne_event_type e) = false) events)
  /\ (forall e, fst run = Raise e -> e = TypeError_unhashable /\ snd run = w).
Proof.
  cbv zeta. rewrite aggregate_events_fst.
  assert (Hno : Forall (fun e => hashable (ne_event_type e) = true) events ->
                Exists (fun e => hashable (ne_event_type e) = false) events -> False).
  { intros HF HE. apply Exists_exists in HE. destruct HE as (e & He & Hf).
    rewrite Forall_forall in HF. rewrite (HF e He) in Hf. discriminate. }
  destruct (aggregate_loop events []) as [res|e] eqn:E.
  - assert (HF : Forall (fun e => hashable (ne_event_type e) = true) events).
    { clear Hno. revert E. generalize (@nil entry). revert res.
      induction events as [|ev rest IH]; intros res acc; [constructor|].
      cbn [aggregate_loop].
      destruct (atom_of_json (ne_event_type ev)) eqn:Ea; [|discriminate].
      intros H. constructor; [unfold hashable; rewrite Ea; reflexivity|].
      apply (IH _ _ H). }
    split; [split; [intros _; exact HF | intros _; eexists; reflexivity]|].
    split; [split; [discriminate | intros HE; destruct (Hno HF HE)]|].
    discriminate.
  - destruct (aggregate_loop_raise _ _ _ E) as [-> HE].
    split; [split; [intros [records H]; discriminate
                   | intros HF; destruct (Hno HF HE)]|].
    split; [split; [intros _; exact HE | reflexivity]|].
    intros e [= <-]. split; [reflexivity|].
    unfold aggregate_events, bind, lift. rewrite E. reflexivity.
Qed.

Lemma increment_new key aggregation :
  Forall (fun a : entry => key_eqb (fst a) key = false) aggregation ->
  increment key aggregation = aggregation ++ [(key, 1)].
Proof.
  induction 1 as [|[k n] rest Hk _ IH]; [reflexivity|].
  cbn [increment app]. cbn [fst] in Hk. rewrite Hk, IH. reflexivity.
Qed.

Lemma increment_found key before k n after :
  Forall (fun a : entry => key_eqb (fst a) key = false) before ->
  key_eqb k key = true ->
  increment key (before ++ (k, n) :: after) = before ++ (k, n + 1) :: after.
Proof.
  intros HF Hk. induction HF as [|[k' n'] rest Hk' _ IH]; cbn [increment app].
  - rewrite Hk. reflexivity.
  - cbn [fst] in Hk'. rewrite Hk', IH. reflexivity.
Qed.

Lemma distinct_keys_before before k n after key :
  distinct_keys (before ++ (k, n) :: after) ->
  key_eqb k key = true ->
  Forall (fun a : entry => key_eqb (fst a) key = false) before.
Proof.
  unfold distinct_keys. intros HD Hk.
  induction before as [|a rest IH]; [constructor|].
  cbn [app] in HD. inversion HD as [|a' l' Ha Hrest]; subst.
  constructor; [|apply IH, Hrest].
  rewrite Forall_forall in Ha.
  specialize (Ha (k, n) ltac:(apply in_or_app; right; left; reflexivity)).
  cbn [fst] in Ha.
  rewrite key_eqb_sym, <- (key_eqb_compat k key (fst a) Hk), key_eqb_sym.
  exact Ha.
Qed.

(** X14. One more event at the end of the input leaves the records
    already there in place.  When no record has its key, a record with
    total 1 is added last; otherwise the record with that key has its
    total raised by one and keeps its own hour and event type (those of
    the first event with the key).  So the records come in the order in
    which their keys first appear. *)
Theorem aggregate_events_next_event
  (events : list NormalizedEvent) (event : NormalizedEvent) (event_type : atom)
  (records : list AggregateRecord) (w w' : world) :
  fst (aggregate_events events w) = Ok records ->
  atom_of_json (ne_event_type event) = Some event_type ->
  let key := (ne_hour event, event_type) in
  let outcome := fst (aggregate_events (events ++ [event]) w') in
  (Forall (fun r => key_eqb (record_key r) key = false) records ->
   outcome = Ok (records ++ [mkar (ne_hour event) event_type 1]))
  /\ (forall before r after,
        records = before ++ r :: after ->
        key_eqb (record_key r) key = true ->
        outcome
        = Ok (before
              ++ mkar (ar_hour r) (ar_event_type r) (ar_total_events r + 1) :: after)).
Proof.
  rewrite !aggregate_events_fst, aggregate_loop_app.
  destruct (aggregate_loop events []) as [res|] eqn:E; [|discriminate].
  intros [= <-] Ha. cbv zeta. cbn [aggregate_loop]. rewrite Ha.
  split.
  - intros HF. rewrite increment_new.
    + rewrite map_app. reflexivity.
    + rewrite Forall_map in HF. eapply Forall_impl; [|exact HF].
      intros [[h a] n] H. exact H.
  - intros before r after Hsplit Hk.
    apply map_eq_app in Hsplit. destruct Hsplit as (b & rest & -> & <- & Hrest).
    destruct rest as [|[[h a] n] a']; [discriminate|].
    cbn [map] in Hrest. injection Hrest as <- <-.
    cbn [record_key record_of_entry ar_hour ar_event_type ar_total_events fst snd] in *.
    pose proof (aggregate_loop_distinct _ _ _ E ltac:(constructor)) as HD.
    rewrite (increment_found _ _ _ _ _ (distinct_keys_before _ _ _ _ _ HD Hk) Hk).
    rewrite map_app. reflexivity.
Qed.

(** ** The partitioned writer *)

Lemma setdefault_append_records hour record groups :
  Permutation (List.concat (map snd (setdefault_append hour record groups)))
              (record :: List.concat (map snd groups)).
Proof.
  induction groups as [|[h rs] rest IH]; cbn [setdefault_append map List.concat snd].
  - reflexivity.
  - destruct (datetime_eqb h hour); cbn [map List.concat snd].
    + rewrite <- app_assoc. cbn [app]. symmetry. apply Permutation_middle.
    + rewrite IH. symmetry. apply Permutation_middle.
Qed.

Lemma group_fold_records records :
  forall acc,
    Permutation (List.concat (map snd (fold_left group_step records acc)))
                (List.concat (map snd acc) ++ records).
Proof.
  induction records as [|r rest IH]; intros acc; cbn [fold_left].
  - rewrite app_nil_r. reflexivity.
  - rewrite IH. unfold group_step. rewrite setdefault_append_records.
    cbn [app]. apply Permutation_middle.
Qed.

(** X15. Whatever the hours of the records, the writer does not raise
    and downloads nothing; it uploads one document per group of
    [records_by_hour], in the order of the groups; the groups have
    pairwise different hours; every record is in exactly one group, that
    of the records whose hour equals the group's, in input order; no
    group is empty. *)
Theorem write_hourly_csv_summaries_partition
  (aggregated_results : list AggregateRecord) (output_bucket : string) (w : world) :
  let run := write_hourly_csv_summaries aggregated_results output_bucket w in
  let records_by_hour := group_by_hour aggregated_results in
  fst run = Ok tt
  /\ w_downloads (snd run) = w_downloads w
  /\ w_uploads (snd run)
     = w_uploads w
       ++ map (fun g => mkupload output_bucket (output_path (fst g))
                                 (csv_document (snd g)) "text/csv")
              records_by_hour
  /\ Permutation (List.concat (map snd records_by_hour)) aggregated_results
  /\ ForallOrdPairs (fun g1 g2 => datetime_eqb (fst g1) (fst g2) = false)
                    records_by_hour
  /\ Forall (fun g =>
               snd g = filter (fun r => datetime_eqb (ar_hour r) (fst g))
                              aggregated_results
               /\ snd g <> [])
            records_by_hour.
Proof.
  cbv zeta. rewrite write_hourly_csv_summaries_run. cbn [fst snd w_downloads w_uploads].
  split; [reflexivity|]. split; [reflexivity|]. split; [reflexivity|].
  split; [|split].
  - rewrite group_by_hour_fold. apply (group_fold_records aggregated_results []).
  - rewrite group_by_hour_fold. apply group_fold_distinct. constructor.
  - apply Forall_forall. intros g Hg.
    destruct (group_by_hour_groups _ _ Hg) as [Hgr (r & Hr & Hh)].
    assert (Hs : snd g = filter (fun r => datetime_eqb (ar_hour r) (fst g))
                                aggregated_results)
      by (rewrite Hgr at 1; reflexivity).
    split; [exact Hs|].
    assert (Hin : In r (snd g)).
    { rewrite Hs. apply filter_In. split; [exact Hr|].
      rewrite Hh. apply datetime_eqb_refl. }
    intros Hnil. rewrite Hnil in Hin. destruct Hin.
Qed.

Lemma output_path_fields h1 h2 : same_clock_hour h1 h2 -> output_path h1 = output_path h2.
Proof.
  intros (Hy & Hm & Hd & Hh).
  unfold output_path, strftime_Y, strftime_m, strftime_d, strftime_H.
  rewrite Hy, Hm, Hd, Hh. reflexivity.
Qed.

(** X16. Two valid hours are written to the same path exactly when
    they agree on year, month, day and hour of the day: the offset and
    the minutes play no part in the path. *)
Theorem output_path_same_iff (h1 h2 : datetime) :
  valid_datetime h1 = true -> valid_datetime h2 = true ->
  (output_path h1 = output_path h2 <-> same_clock_hour h1 h2).
Proof.
  intros V1 V2. split; [apply (output_path_inj _ _ V1 V2) | apply output_path_fields].
Qed.

(** X17. Two records whose hours are different instants with the same
    calendar date and hour of the day (as the hours of timestamps with
    different offsets are) make two groups, and both documents are
    uploaded to the same path: the second upload replaces the first. *)
Theorem write_hourly_csv_summaries_same_path
  (r1 r2 : AggregateRecord) (output_bucket : string) (w : world) :
  same_clock_hour (ar_hour r1) (ar_hour r2) ->
  datetime_eqb (ar_hour r1) (ar_hour r2) = false ->
  w_uploads (snd (write_hourly_csv_summaries [r1; r2] output_bucket w))
  = w_uploads w
    ++ [mkupload output_bucket (output_path (ar_hour r1)) (csv_document [r1]) "text/csv";
        mkupload output_bucket (output_path (ar_hour r1)) (csv_document [r2]) "text/csv"].
Proof.
  intros Hsame Hne. rewrite write_hourly_csv_summaries_run. cbn [snd w_uploads].
  unfold group_by_hour, group_step. cbn [fold_left setdefault_append].
  rewrite Hne. cbn [map]. unfold upload_of_group. cbn [fst snd].
  rewrite (output_path_fields _ _ Hsame). reflexivity.
Qed.

(** ** From the events to the rows *)

Lemma aggregate_loop_ok_hashable events :
  forall aggregation res,
    aggregate_loop events aggregation = Ok res ->
    Forall (fun e => hashable (ne_event_type e) = true) events.
Proof.
  induction events as [|ev rest IH]; intros aggregation res; [constructor|].
  cbn [aggregate_loop].
  destruct (atom_of_json (ne_event_type ev)) eqn:Ea; [|discriminate].
  intros H. constructor; [unfold hashable; rewrite Ea; reflexivity|].
  apply (IH _ _ H).
Qed.

Lemma sum_total_events_app records1 records2 :
  sum_total_events (records1 ++ records2)
  = sum_total_events records1 + sum_total_events records2.
Proof.
  unfold sum_total_events. induction records1 as [|r rest IH]; cbn [app map fold_right].
  - reflexivity.
  - rewrite IH. lia.
Qed.

Lemma sum_total_events_perm records1 records2 :
  Permutation records1 records2 ->
  sum_total_events records1 = sum_total_events records2.
Proof.
  unfold sum_total_events.
  induction 1; cbn [map fold_right]; lia.
Qed.

Section Counting.

Variable datetime_fromisoformat : string -> option datetime.

(** X18. No event is lost or counted twice on the way to the rows: when
    the normalizer and the aggregator succeed, there are as many
    normalized events as events, the totals of the aggregate records add
    up to the number of events, and so do the totals of the records the
    writer puts in its documents. *)
Theorem pipeline_counts_every_event
  (events : list json) (normalized_events : list NormalizedEvent)
  (aggregated_results : list AggregateRecord) (w1 w2 : world) :
  fst (normalize_events datetime_fromisoformat events w1) = Ok normalized_events ->
  fst (aggregate_events normalized_events w2) = Ok aggregated_results ->
  List.length normalized_events = List.length events
  /\ sum_total_events aggregated_results = Z.of_nat (List.length events)
  /\ fold_right Z.add 0
       (map (fun g => sum_total_events (snd g)) (group_by_hour aggregated_results))
     = Z.of_nat (List.length events).
Proof.
  rewrite normalize_events_fst, aggregate_events_fst.
  intros Hn Ha.
  destruct (normalize_loop_ok_inv _ _ _ _ Hn) as (records & -> & HF).
  cbn [app] in *.
  assert (Hlen : List.length records = List.length events)
    by (symmetry; apply (Forall2_length HF)).
  destruct (aggregate_loop records []) as [res|] eqn:E; [|discriminate].
  injection Ha as <-.
  assert (Hsum : sum_total_events (map record_of_entry res)
                 = Z.of_nat (List.length events)).
  { rewrite sum_total_events_entries, (aggregate_loop_sum _ _ _ E), <- Hlen.
    reflexivity. }
  split; [exact Hlen|]. split; [exact Hsum|].
  rewrite <- Hsum.
  pose proof (sum_total_events_perm _ _
                (group_fold_records (map record_of_entry res) [])) as Hp.
  cbn [map List.concat app] in Hp. rewrite <- Hp.
  rewrite group_by_hour_fold.
  generalize (fold_left group_step (map record_of_entry res) []). intros groups.
  induction groups as [|[h rs] rest IH]; cbn [map fold_right List.concat snd].
  - reflexivity.
  - rewrite sum_total_events_app, IH. reflexivity.
Qed.

End Counting.

(** ** The run as a whole *)

(** The effects of the stages compose along [bind]. *)

Lemma effects_ret {A} (a : A) w : effects (ret a) w (Ok a) [] [].
Proof. exists []. unfold ret. rewrite !app_nil_r. destruct w; reflexivity. Qed.

Lemma effects_lift {A} (r : result A) w : effects (lift r) w r [] [].
Proof. exists []. unfold lift. rewrite !app_nil_r. destruct w; reflexivity. Qed.

Lemma effects_logging_info format args w :
  effects (logging_info format args) w (Ok tt) [] [].
Proof.
  exists [mklog INFO format args]. unfold logging_info, emit.
  rewrite !app_nil_r. reflexivity.
Qed.

Lemma effects_bind {A B} (c : M A) (k : A -> M B) w a outcome
  read1 written1 read2 written2 read written :
  effects c w (Ok a) read1 written1 ->
  (forall w', effects (k a) w' outcome read2 written2) ->
  read = read1 ++ read2 -> written = written1 ++ written2 ->
  effects (bind c k) w outcome read written.
Proof.
  intros [lines1 H1] Hk -> ->. unfold effects, bind. rewrite H1.
  destruct (Hk (mkworld (w_log w ++ lines1) (w_downloads w ++ read1)
                        (w_uploads w ++ written1))) as [lines2 H2].
  rewrite H2. cbn [w_log w_downloads w_uploads].
  exists (lines1 ++ lines2). rewrite <- !app_assoc. reflexivity.
Qed.

Lemma effects_bind_raise {A B} (c : M A) (k : A -> M B) w e read written :
  effects c w (Raise e) read written ->
  effects (bind c k) w (Raise e) read written.
Proof.
  intros [lines H]. unfold effects, bind. rewrite H. exists lines. reflexivity.
Qed.

Lemma effects_fst {A} (c : M A) w outcome read written :
  effects c w outcome read written ->
  fst (c w) = outcome
  /\ w_downloads (snd (c w)) = w_downloads w ++ read
  /\ w_uploads (snd (c w)) = w_uploads w ++ written.
Proof. intros [lines ->]. repeat split; reflexivity. Qed.

Lemma log_records_effects aggregated_results :
  forall w, effects (log_records aggregated_results) w (Ok tt) [] [].
Proof.
  induction aggregated_results as [|record rest IH]; intros w; cbn [log_records].
  - apply effects_ret.
  - eapply effects_bind; [apply effects_logging_info | intros w'; apply IH | |];
      reflexivity.
Qed.

Lemma write_hourly_csv_summaries_effects aggregated_results output_bucket w :
  effects (write_hourly_csv_summaries aggregated_results output_bucket) w (Ok tt) []
          (map (upload_of_group output_bucket) (group_by_hour aggregated_results)).
Proof.
  exists (map writing_csv (group_by_hour aggregated_results)
          ++ [mklog INFO "Finished writing CSV summaries" []]).
  rewrite write_hourly_csv_summaries_run, app_nil_r. reflexivity.
Qed.

Lemma files_read_incl bytes_decode_utf8 json_loads blobs b :
  In b (files_read bytes_decode_utf8 json_loads blobs) -> In b blobs.
Proof.
  induction blobs as [|b' rest IH]; cbn [files_read]; [intros []|].
  intros [->|H]; [left; reflexivity|]. right.
  destruct (parse_blob bytes_decode_utf8 json_loads b'); [apply IH, H | destruct H].
Qed.

Section RunProperties.

Variable bytes_decode_utf8 : list byte -> option string.
Variable json_loads : string -> option json.
Variable datetime_fromisoformat : string -> option datetime.
Variable int_of_str : string -> option Z.
Variable os_getenv : string -> option string.
Variable now_utc : Z.
Variable bucket_objects : string -> list blob.

Lemma list_eligible_json_files_quiet bucket_name pre lookback_hours w :
  effects (list_eligible_json_files now_utc bucket_objects bucket_name pre lookback_hours)
          w
          (match minus_hours now_utc lookback_hours with
           | Ok cutoff_time =>
               Ok (filter (eligible cutoff_time)
                          (list_blobs bucket_objects bucket_name pre))
           | Raise e => Raise e
           end) [] [].
Proof.
  unfold effects. rewrite !app_nil_r.
  destruct (minus_hours now_utc lookback_hours) as [cutoff_time|e] eqn:E.
  - rewrite (list_eligible_json_files_run _ _ _ _ _ _ w E). eexists. reflexivity.
  - rewrite (list_eligible_json_files_raise _ _ _ _ _ _ w E). eexists. reflexivity.
Qed.

Lemma download_and_parse_events_effects blobs w :
  effects (download_and_parse_events bytes_decode_utf8 json_loads blobs) w
          (parse_blobs bytes_decode_utf8 json_loads blobs)
          (map blob_name (files_read bytes_decode_utf8 json_loads blobs)) [].
Proof.
  unfold effects. rewrite app_nil_r.
  apply download_and_parse_events_run.
Qed.

Lemma normalize_events_effects events w :
  effects (normalize_events datetime_fromisoformat events) w
          (normalize_loop datetime_fromisoformat events []) [] [].
Proof.
  unfold normalize_events.
  destruct (normalize_loop datetime_fromisoformat events []) as [normalized|e].
  - eapply effects_bind; [apply effects_lift | intros w' | reflexivity | reflexivity].
    eapply effects_bind;
      [apply effects_logging_info | intros w''; apply effects_ret | |]; reflexivity.
  - apply effects_bind_raise, effects_lift.
Qed.

Lemma aggregate_events_effects events w :
  effects (aggregate_events events) w
          (match aggregate_loop events [] with
           | Ok aggregation => Ok (map record_of_entry aggregation)
           | Raise e => Raise e
           end) [] [].
Proof.
  unfold aggregate_events.
  destruct (aggregate_loop events []) as [aggregation|e].
  - eapply effects_bind; [apply effects_lift | intros w' | reflexivity | reflexivity].
    cbv zeta.
    eapply effects_bind;
      [apply effects_logging_info | intros w''; apply effects_ret | |]; reflexivity.
  - apply effects_bind_raise, effects_lift.
Qed.

Ltac quiet_step lemma :=
  eapply effects_bind; [apply lemma | intros ? | reflexivity | reflexivity].
Ltac lift_step :=
  eapply effects_bind; [apply effects_lift | intros ? | reflexivity | reflexivity].

(** What [main] does on a loaded configuration or without one. *)
Lemma main_effects w :
  let '(outcome, read, written) :=
    match load_configuration int_of_str os_getenv with
    | Raise e => (Raise e, [], [])
    | Ok cfg =>
        run_stages bytes_decode_utf8 json_loads datetime_fromisoformat
                   now_utc bucket_objects cfg
    end in
  effects (main bytes_decode_utf8 json_loads datetime_fromisoformat int_of_str
                os_getenv now_utc bucket_objects)
          w outcome (map blob_name read) written.
Proof.
  unfold main.
  destruct (load_configuration int_of_str os_getenv) as [cfg|e].
  2:{ quiet_step effects_logging_info. apply effects_bind_raise, effects_lift. }
  unfold run_stages.
  pose proof (fun w => list_eligible_json_files_quiet
                         (input_bucket cfg) (input_prefix cfg) (lookback_hours cfg) w)
    as Hlist.
  destruct (minus_hours now_utc (lookback_hours cfg)) as [cutoff_time|e].
  2:{ quiet_step effects_logging_info. lift_step.
      do 5 quiet_step effects_logging_info.
      apply effects_bind_raise, Hlist. }
  destruct (filter (eligible cutoff_time)
              (list_blobs bucket_objects (input_bucket cfg) (input_prefix cfg)))
    as [|b files] eqn:Efound.
  { quiet_step effects_logging_info. lift_step.
    do 5 quiet_step effects_logging_info.
    quiet_step Hlist. quiet_step effects_logging_info.
    apply effects_logging_info. }
  pose proof (fun w => download_and_parse_events_effects (b :: files) w) as Hparse.
  destruct (parse_blobs bytes_decode_utf8 json_loads (b :: files)) as [events|e].
  2:{ quiet_step effects_logging_info. lift_step.
      do 5 quiet_step effects_logging_info.
      quiet_step Hlist. quiet_step effects_logging_info.
      apply effects_bind_raise, Hparse. }
  pose proof (fun w => normalize_events_effects events w) as Hnorm.
  destruct (normalize_loop datetime_fromisoformat events []) as [normalized|e].
  2:{ quiet_step effects_logging_info. lift_step.
      do 5 quiet_step effects_logging_info.
      quiet_step Hlist. quiet_step effects_logging_info.
      eapply effects_bind; [apply Hparse | intros ? | symmetry; apply app_nil_r
                           | reflexivity].
      quiet_step effects_logging_info.
      apply effects_bind_raise, Hnorm. }
  pose proof (fun w => aggregate_events_effects normalized w) as Hagg.
  destruct (aggregate_loop normalized []) as [aggregation|e].
  2:{ quiet_step effects_logging_info. lift_step.
      do 5 quiet_step effects_logging_info.
      quiet_step Hlist. quiet_step effects_logging_info.
      eapply effects_bind; [apply Hparse | intros ? | symmetry; apply app_nil_r
                           | reflexivity].
      quiet_step effects_logging_info. quiet_step Hnorm.
      quiet_step effects_logging_info.
      apply effects_bind_raise, Hagg. }
  quiet_step effects_logging_info. lift_step.
  do 5 quiet_step effects_logging_info.
  quiet_step Hlist. quiet_step effects_logging_info.
  eapply effects_bind; [apply Hparse | intros ? | symmetry; apply app_nil_r
                       | reflexivity].
  quiet_step effects_logging_info. quiet_step Hnorm.
  quiet_step effects_logging_info. quiet_step Hagg.
  quiet_step log_records_effects. quiet_step effects_logging_info.
  eapply effects_bind; [apply write_hourly_csv_summaries_effects | intros ?
                       | reflexivity | symmetry; apply app_nil_r].
  quiet_step effects_logging_info. apply effects_logging_info.
Qed.

Lemma main_outcome w :
  let run := main bytes_decode_utf8 json_loads datetime_fromisoformat int_of_str
                  os_getenv now_utc bucket_objects w in
  let '(outcome, read, written) :=
    match load_configuration int_of_str os_getenv with
    | Raise e => (Raise e, [], [])
    | Ok cfg =>
        run_stages bytes_decode_utf8 json_loads datetime_fromisoformat
                   now_utc bucket_objects cfg
    end in
  fst run = outcome
  /\ w_downloads (snd run) = w_downloads w ++ map blob_name read
  /\ w_uploads (snd run) = w_uploads w ++ written.
Proof.
  cbv zeta.
  pose proof (main_effects w) as H.
  destruct (match load_configuration int_of_str os_getenv with
            | Raise e => (Raise e, [], [])
            | Ok cfg =>
                run_stages bytes_decode_utf8 json_loads datetime_fromisoformat
                           now_utc bucket_objects cfg
            end) as [[outcome read] written].
  apply effects_fst, H.
Qed.

(** X19. When every stage succeeds and the filter returns at least one
    file, [main] succeeds; it downloads exactly the eligible files, in
    the order of the filter; and the documents it uploads are those
    [write_hourly_csv_summaries] uploads for the aggregate of the
    normalized events of those files. *)
Theorem main_pipeline
  (cfg : configuration) (eligible_files : list blob) (events : list json)
  (normalized_events : list NormalizedEvent) (aggregated_results : list AggregateRecord)
  (w w1 w2 w3 w4 : world) :
  load_configuration int_of_str os_getenv = Ok cfg ->
  fst (list_eligible_json_files now_utc bucket_objects
         (input_bucket cfg) (input_prefix cfg) (lookback_hours cfg) w1)
  = Ok eligible_files ->
  eligible_files <> [] ->
  fst (download_and_parse_events bytes_decode_utf8 json_loads eligible_files w2)
  = Ok events ->
  fst (normalize_events datetime_fromisoformat events w3) = Ok normalized_events ->
  fst (aggregate_events normalized_events w4) = Ok aggregated_results ->
  let run := main bytes_decode_utf8 json_loads datetime_fromisoformat int_of_str
                  os_getenv now_utc bucket_objects w in
  fst run = Ok tt
  /\ w_downloads (snd run) = w_downloads w ++ map blob_name eligible_files
  /\ w_uploads (snd run)
     = w_uploads (snd (write_hourly_csv_summaries aggregated_results
                         (output_bucket cfg) w)).
Proof.
  intros Hcfg Hlist Hne Hparse Hnorm Hagg. cbv zeta.
  pose proof (main_outcome w) as H. cbv zeta in H. rewrite Hcfg in H.
  unfold run_stages in H.
  rewrite list_eligible_json_files_fst in Hlist.
  destruct (minus_hours now_utc (lookback_hours cfg)) as [cutoff_time|]; [|discriminate].
  injection Hlist as Hlist. rewrite Hlist in H.
  destruct eligible_files as [|b files]; [destruct Hne; reflexivity|].
  destruct (download_and_parse_events_run bytes_decode_utf8 json_loads (b :: files) w2)
    as (lines & Hrun).
  rewrite Hrun in Hparse. cbn [fst] in Hparse. cbv zeta in H.
  rewrite (files_read_all _ _ _ _ Hparse), Hparse in H.
  rewrite normalize_events_fst in Hnorm. rewrite Hnorm in H.
  rewrite aggregate_events_fst in Hagg.
  destruct (aggregate_loop normalized_events []) as [aggregation|]; [|discriminate].
  injection Hagg as <-.
  rewrite write_hourly_csv_summaries_run. cbn [snd w_uploads]. exact H.
Qed.

(** X20. When the eligible files hold no event at all (empty arrays),
    [main] still succeeds: it downloads every eligible file and uploads
    no document. *)
Theorem main_no_events
  (cfg : configuration) (eligible_files : list blob) (w w1 w2 : world) :
  load_configuration int_of_str os_getenv = Ok cfg ->
  fst (list_eligible_json_files now_utc bucket_objects
         (input_bucket cfg) (input_prefix cfg) (lookback_hours cfg) w1)
  = Ok eligible_files ->
  fst (download_and_parse_events bytes_decode_utf8 json_loads eligible_files w2)
  = Ok [] ->
  let run := main bytes_decode_utf8 json_loads datetime_fromisoformat int_of_str
                  os_getenv now_utc bucket_objects w in
  fst run = Ok tt
  /\ w_downloads (snd run) = w_downloads w ++ map blob_name eligible_files
  /\ w_uploads (snd run) = w_uploads w.
Proof.
  intros Hcfg Hlist Hparse. cbv zeta.
  pose proof (main_outcome w) as H. cbv zeta in H. rewrite Hcfg in H.
  unfold run_stages in H.
  rewrite list_eligible_json_files_fst in Hlist.
  destruct (minus_hours now_utc (lookback_hours cfg)) as [cutoff_time|]; [|discriminate].
  injection Hlist as Hlist. rewrite Hlist in H.
  destruct eligible_files as [|b files].
  - rewrite !app_nil_r in H. rewrite app_nil_r. exact H.
  - destruct (download_and_parse_events_run bytes_decode_utf8 json_loads (b :: files) w2)
      as (lines & Hrun).
    rewrite Hrun in Hparse. cbn [fst] in Hparse. cbv zeta in H.
    rewrite (files_read_all _ _ _ _ Hparse), Hparse in H.
    cbn [normalize_loop aggregate_loop map group_by_hour fold_left] in H.
    rewrite app_nil_r in H. exact H.
Qed.

(** X21. A run of [main] that raises has uploaded nothing: every
    exception of the job comes before the writer starts (the store's own
    operations do not fail in the model). *)
Theorem main_failure_uploads_nothing (e : exn) (w : world) :
  let run := main bytes_decode_utf8 json_loads datetime_fromisoformat int_of_str
                  os_getenv now_utc bucket_objects w in
  fst run = Raise e -> w_uploads (snd run) = w_uploads w.
Proof.
  cbv zeta. pose proof (main_outcome w) as H. cbv zeta in H.
  destruct (load_configuration int_of_str os_getenv) as [cfg|e0].
  2:{ destruct H as (_ & _ & ->). intros _. apply app_nil_r. }
  unfold run_stages in H.
  destruct (minus_hours now_utc (lookback_hours cfg)) as [cutoff_time|e0].
  2:{ destruct H as (_ & _ & ->). intros _. apply app_nil_r. }
  destruct (filter (eligible cutoff_time)
              (list_blobs bucket_objects (input_bucket cfg) (input_prefix cfg)))
    as [|b files].
  { destruct H as (_ & _ & ->). intros _. apply app_nil_r. }
  cbv zeta in H.
  destruct (parse_blobs bytes_decode_utf8 json_loads (b :: files)) as [events|e0].
  2:{ destruct H as (_ & _ & ->). intros _. apply app_nil_r. }
  destruct (normalize_loop datetime_fromisoformat events []) as [normalized|e0].
  2:{ destruct H as (_ & _ & ->). intros _. apply app_nil_r. }
  destruct (aggregate_loop normalized []) as [aggregation|e0].
  2:{ destruct H as (_ & _ & ->). intros _. apply app_nil_r. }
  destruct H as (-> & _). discriminate.
Qed.

(** X23. Whatever its outcome, [main] downloads only eligible files:
    every blob it reads is listed under the input prefix of the input
    bucket, has a name ending in [.json] and was modified before
    [now - lookback_hours] hours. *)
Theorem main_reads_only_eligible (w : world) :
  exists names,
    w_downloads (snd (main bytes_decode_utf8 json_loads datetime_fromisoformat int_of_str
                           os_getenv now_utc bucket_objects w))
    = w_downloads w ++ names
    /\ Forall
         (fun name =>
            exists cfg b,
              load_configuration int_of_str os_getenv = Ok cfg
              /\ In b (list_blobs bucket_objects (input_bucket cfg) (input_prefix cfg))
              /\ blob_name b = name
              /\ endswith (blob_name b) ".json" = true
              /\ blob_updated b < now_utc - lookback_hours cfg * 3600000000)
         names.
Proof.
  pose proof (main_outcome w) as H. cbv zeta in H.
  destruct (load_configuration int_of_str os_getenv) as [cfg|e0] eqn:Ecfg.
  2:{ exists []. split; [apply H | constructor]. }
  unfold run_stages in H.
  destruct (minus_hours_cases now_utc (lookback_hours cfg)) as [[_ Em]|[_ Em]];
    rewrite Em in H.
  2:{ exists []. split; [apply H | constructor]. }
  assert (Hel : forall b,
             In b (files_read bytes_decode_utf8 json_loads
                     (filter (eligible (now_utc - lookback_hours cfg * 3600000000))
                        (list_blobs bucket_objects (input_bucket cfg)
                                    (input_prefix cfg)))) ->
             exists cfg' b',
               Ok cfg = Ok cfg'
               /\ In b' (list_blobs bucket_objects (input_bucket cfg')
                                    (input_prefix cfg'))
               /\ blob_name b' = blob_name b
               /\ endswith (blob_name b') ".json" = true
               /\ blob_updated b' < now_utc - lookback_hours cfg' * 3600000000).
  { intros b Hb. apply files_read_incl, filter_In in Hb. destruct Hb as [Hin He].
    unfold eligible in He. apply andb_true_iff in He. destruct He as [Hj Hu].
    exists cfg, b. repeat split; try assumption. apply Z.ltb_lt, Hu. }
  destruct (filter (eligible (now_utc - lookback_hours cfg * 3600000000))
              (list_blobs bucket_objects (input_bucket cfg) (input_prefix cfg)))
    as [|b files].
  { exists []. split; [apply H | constructor]. }
  cbv zeta in H.
  exists (map blob_name (files_read bytes_decode_utf8 json_loads (b :: files))).
  split.
  - destruct (parse_blobs bytes_decode_utf8 json_loads (b :: files));
      [destruct (normalize_loop datetime_fromisoformat a []);
       [destruct (aggregate_loop a0 [])|]|]; apply H.
  - apply Forall_map, Forall_forall. exact Hel.
Qed.

(** X24. A configuration that loads holds the values of the
    environment as they are (a variable set to the empty string counts
    as set), with [events/] as prefix when [INPUT_PREFIX] is not set.
    [INPUT_BUCKET] is checked first, then [OUTPUT_BUCKET]: the error
    names the first of the two that is missing. *)
Theorem load_configuration_values :
  (forall cfg,
     load_configuration int_of_str os_getenv = Ok cfg ->
     os_getenv "INPUT_BUCKET" = Some (input_bucket cfg)
     /\ os_getenv "OUTPUT_BUCKET" = Some (output_bucket cfg)
     /\ input_prefix cfg
        = match os_getenv "INPUT_PREFIX" with Some pre => pre | None => "events/" end)
  /\ (os_getenv "INPUT_BUCKET" = None ->
      load_configuration int_of_str os_getenv
      = Raise (RuntimeError_missing_env "INPUT_BUCKET"))
  /\ (forall input,
        os_getenv "INPUT_BUCKET" = Some input ->
        os_getenv "OUTPUT_BUCKET" = None ->
        load_configuration int_of_str os_getenv
        = Raise (RuntimeError_missing_env "OUTPUT_BUCKET")).
Proof.
  rewrite load_configuration_cases. split; [|split].
  - intros cfg.
    destruct (os_getenv "INPUT_BUCKET"); [|discriminate].
    destruct (os_getenv "OUTPUT_BUCKET"); [|discriminate].
    destruct (int_of_str (lookback_text os_getenv)); [|discriminate].
    intros [= <-]. repeat split; reflexivity.
  - intros ->. reflexivity.
  - intros input -> ->. reflexivity.
Qed.

End RunProperties.

(** ** The further theorems at concrete inputs *)

Lemma list_eligible_json_files_monotone_witness :
  0 <= 24
  /\ fst (list_eligible_json_files Examples.now_utc Examples.bucket_objects
            "raw-events" "events/" 0 Examples.w0)
     = Ok [Examples.clicks; Examples.views; Examples.at_cutoff; Examples.recent]
  /\ fst (list_eligible_json_files Examples.now_utc Examples.bucket_objects
            "raw-events" "events/" 24 Examples.w0)
     = Ok [Examples.clicks; Examples.views]
  /\ incl [Examples.clicks; Examples.views]
          [Examples.clicks; Examples.views; Examples.at_cutoff; Examples.recent].
Proof.
  assert (H0 : 0 <= 24) by lia.
  assert (H1 : fst (list_eligible_json_files Examples.now_utc Examples.bucket_objects
                      "raw-events" "events/" 0 Examples.w0)
               = Ok [Examples.clicks; Examples.views; Examples.at_cutoff;
                     Examples.recent])
    by (vm_compute; reflexivity).
  assert (H2 : fst (list_eligible_json_files Examples.now_utc Examples.bucket_objects
                      "raw-events" "events/" 24 Examples.w0)
               = Ok [Examples.clicks; Examples.views])
    by (vm_compute; reflexivity).
  split; [exact H0|]. split; [exact H1|]. split; [exact H2|].
  exact (proj2 (list_eligible_json_files_monotone
                  Examples.now_utc Examples.bucket_objects "raw-events" "events/" 0 24
                  _ _ Examples.w0 Examples.w0 H0 H1 H2)).
Defined.

Lemma download_and_parse_events_failure_effects_witness :
  Forall2 (holds_array Std.bytes_decode_utf8 Std.json_loads) [Examples.upper_case] [[]]
  /\ w_downloads
       (snd (download_and_parse_events Std.bytes_decode_utf8 Std.json_loads
               [Examples.upper_case; Examples.object_file; Examples.views] Examples.w0))
     = ["events/old.JSON"; "events/object.json"]
  /\ exists earlier,
       w_log
         (snd (download_and_parse_events Std.bytes_decode_utf8 Std.json_loads
                 [Examples.upper_case; Examples.truncated_file; Examples.views]
                 Examples.w0))
       = earlier
         ++ [mklog INFO "Downloading file: %s" [LStr "events/truncated.json"];
             mklog ERROR "Invalid JSON in file %s" [LStr "events/truncated.json"]].
Proof.
  assert (H : Forall2 (holds_array Std.bytes_decode_utf8 Std.json_loads)
                      [Examples.upper_case] [[]]).
  { constructor; [|constructor]. apply parse_blob_holds_array. reflexivity. }
  split; [exact H|]. split.
  - refine (proj1 (proj2 (proj2 (proj2 (download_and_parse_events_failure_effects
               Std.bytes_decode_utf8 Std.json_loads _ _
               Examples.object_file [Examples.views] Examples.w0 H))
              (string_of_list_byte (blob_bytes Examples.object_file))
              (JObj [("event_timestamp", JStr "2024-03-01T13:47:22Z");
                     ("event_type", JStr "click")]) _ _ _)));
      [vm_compute; reflexivity | vm_compute; reflexivity | intros events; discriminate].
  - refine (proj2 (proj2 (proj2 (proj1 (proj2 (download_and_parse_events_failure_effects
               Std.bytes_decode_utf8 Std.json_loads _ _
               Examples.truncated_file [Examples.views] Examples.w0 H))
              (string_of_list_byte (blob_bytes Examples.truncated_file)) _ _))));
      vm_compute; reflexivity.
Defined.

Lemma normalize_events_raises_witness :
  fst (normalize_events Std.datetime_fromisoformat
         [Examples.click_event "2024-03-01T13:47:22Z"; Examples.bad_timestamp;
          Examples.no_event_type] Examples.w0)
  = Raise (ValueError_invalid_timestamp Examples.bad_timestamp)
  /\ snd (normalize_events Std.datetime_fromisoformat
            [Examples.click_event "2024-03-01T13:47:22Z"; Examples.bad_timestamp;
             Examples.no_event_type] Examples.w0)
     = Examples.w0.
Proof.
  assert (H : fst (normalize_events Std.datetime_fromisoformat
                     [Examples.click_event "2024-03-01T13:47:22Z";
                      Examples.bad_timestamp; Examples.no_event_type] Examples.w0)
              = Raise (ValueError_invalid_timestamp Examples.bad_timestamp))
    by (vm_compute; reflexivity).
  split; [exact H|].
  exact (proj1 (normalize_events_raises Std.datetime_fromisoformat _ _ Examples.w0 H)).
Defined.

Lemma normalize_events_malformed_event_witness :
  Forall2 (fun event record =>
             normalize_event Std.datetime_fromisoformat event = Ok record)
          [Examples.click_event "2024-03-01T13:47:22Z"]
          [mkne Examples.hour13 (JStr "click")]
  /\ fst (normalize_events Std.datetime_fromisoformat
            [Examples.click_event "2024-03-01T13:47:22Z"; JStr "click";
             Examples.no_event_type] Examples.w0)
     = Raise (ValueError_invalid_timestamp (JStr "click"))
  /\ fst (normalize_events Std.datetime_fromisoformat
            [Examples.click_event "2024-03-01T13:47:22Z";
             JObj [("event_timestamp", JInt 1709300842); ("event_type", JStr "click")]]
            Examples.w0)
     = Raise (ValueError_invalid_timestamp
                (JObj [("event_timestamp", JInt 1709300842);
                       ("event_type", JStr "click")])).
Proof.
  assert (H : Forall2 (fun event record =>
                         normalize_event Std.datetime_fromisoformat event = Ok record)
                      [Examples.click_event "2024-03-01T13:47:22Z"]
                      [mkne Examples.hour13 (JStr "click")])
    by (constructor; [vm_compute; reflexivity | constructor]).
  split; [exact H|]. split.
  - apply (normalize_events_malformed_event Std.datetime_fromisoformat _ _
             (JStr "click") [Examples.no_event_type] Examples.w0 H).
    left. intros items. discriminate.
  - apply (normalize_events_malformed_event Std.datetime_fromisoformat _ _
             (JObj [("event_timestamp", JInt 1709300842); ("event_type", JStr "click")])
             [] Examples.w0 H).
    right. eexists. exists (JInt 1709300842).
    split; [reflexivity|]. split; [reflexivity|]. intros text. discriminate.
Defined.

Lemma normalize_event_offset_witness :
  parse_event_timestamp Std.datetime_fromisoformat
    (Examples.click_event "2024-03-01T13:47:22+05:30")
  = Ok (mkdt 2024 3 1 13 47 22 0 (Some 19800000000))
  /\ normalize_event Std.datetime_fromisoformat
       (Examples.click_event "2024-03-01T13:47:22+05:30")
     = Ok (mkne Examples.hour13_ahead (JStr "click"))
  /\ exists t,
       utc_micros (mkdt 2024 3 1 13 47 22 0 (Some 19800000000)) = Some t
       /\ utc_micros Examples.hour13_ahead
          = Some (t - (t + 19800000000) mod 3600000000)
       /\ (utc_micros Examples.hour13_ahead = Some (t - t mod 3600000000)
           <-> 19800000000 mod 3600000000 = 0).
Proof.
  split; [reflexivity|]. split; [reflexivity|].
  apply (normalize_event_offset Std.datetime_fromisoformat
           (Examples.click_event "2024-03-01T13:47:22+05:30")
           (mkdt 2024 3 1 13 47 22 0 (Some 19800000000)) 19800000000
           (mkne Examples.hour13_ahead (JStr "click")));
    reflexivity.
Defined.

Lemma aggregate_events_next_event_witness :
  fst (aggregate_events Examples.normalized Examples.w0)
  = Ok [mkar Examples.hour13 (KStr "click") 2; mkar Examples.hour13 (KStr "view") 1;
        mkar Examples.hour14 (KStr "click") 1]
  /\ fst (aggregate_events (Examples.normalized ++ [mkne Examples.hour13 (JStr "view")])
            Examples.w0)
     = Ok [mkar Examples.hour13 (KStr "click") 2; mkar Examples.hour13 (KStr "view") 2;
           mkar Examples.hour14 (KStr "click") 1]
  /\ fst (aggregate_events (Examples.normalized ++ [mkne Examples.hour14 (JStr "view")])
            Examples.w0)
     = Ok [mkar Examples.hour13 (KStr "click") 2; mkar Examples.hour13 (KStr "view") 1;
           mkar Examples.hour14 (KStr "click") 1; mkar Examples.hour14 (KStr "view") 1].
Proof.
  assert (H : fst (aggregate_events Examples.normalized Examples.w0)
              = Ok [mkar Examples.hour13 (KStr "click") 2;
                    mkar Examples.hour13 (KStr "view") 1;
                    mkar Examples.hour14 (KStr "click") 1])
    by (vm_compute; reflexivity).
  split; [exact H|]. split.
  - apply (proj2 (aggregate_events_next_event
                    Examples.normalized (mkne Examples.hour13 (JStr "view")) (KStr "view")
                    _ Examples.w0 Examples.w0 H eq_refl)
             [mkar Examples.hour13 (KStr "click") 2]
             (mkar Examples.hour13 (KStr "view") 1)
             [mkar Examples.hour14 (KStr "click") 1]);
      reflexivity.
  - apply (proj1 (aggregate_events_next_event
                    Examples.normalized (mkne Examples.hour14 (JStr "view")) (KStr "view")
                    _ Examples.w0 Examples.w0 H eq_refl)).
    repeat constructor.
Defined.

Lemma output_path_same_iff_witness :
  valid_datetime Examples.hour13 = true
  /\ valid_datetime Examples.hour13_ahead = true
  /\ (output_path Examples.hour13 = output_path Examples.hour13_ahead
      <-> same_clock_hour Examples.hour13 Examples.hour13_ahead).
Proof.
  split; [reflexivity|]. split; [reflexivity|].
  apply (output_path_same_iff Examples.hour13 Examples.hour13_ahead); reflexivity.
Defined.

Lemma write_hourly_csv_summaries_same_path_witness :
  fst (normalize_events Std.datetime_fromisoformat
         [Examples.click_event "2024-03-01T13:10:00Z";
          Examples.click_event "2024-03-01T13:20:00+05:30"] Examples.w0)
  = Ok [mkne Examples.hour13 (JStr "click"); mkne Examples.hour13_ahead (JStr "click")]
  /\ fst (aggregate_events
            [mkne Examples.hour13 (JStr "click");
             mkne Examples.hour13_ahead (JStr "click")] Examples.w0)
     = Ok [mkar Examples.hour13 (KStr "click") 1;
           mkar Examples.hour13_ahead (KStr "click") 1]
  /\ same_clock_hour Examples.hour13 Examples.hour13_ahead
  /\ datetime_eqb Examples.hour13 Examples.hour13_ahead = false
  /\ w_uploads
       (snd (write_hourly_csv_summaries
               [mkar Examples.hour13 (KStr "click") 1;
                mkar Examples.hour13_ahead (KStr "click") 1]
               "summaries-out" Examples.w0))
     = [mkupload "summaries-out" "summaries/2024/03/01/hour=13/summary.csv"
          ("hour,event_type,total_events" ++ CRLF ++
           "2024-03-01T13:00:00+00:00,click,1" ++ CRLF)%string "text/csv";
        mkupload "summaries-out" "summaries/2024/03/01/hour=13/summary.csv"
          ("hour,event_type,total_events" ++ CRLF ++
           "2024-03-01T13:00:00+05:30,click,1" ++ CRLF)%string "text/csv"].
Proof.
  split; [vm_compute; reflexivity|]. split; [vm_compute; reflexivity|].
  assert (Hs : same_clock_hour Examples.hour13 Examples.hour13_ahead)
    by (repeat split).
  assert (Hd : datetime_eqb Examples.hour13 Examples.hour13_ahead = false)
    by (vm_compute; reflexivity).
  split; [exact Hs|]. split; [exact Hd|].
  exact (write_hourly_csv_summaries_same_path
           (mkar Examples.hour13 (KStr "click") 1)
           (mkar Examples.hour13_ahead (KStr "click") 1)
           "summaries-out" Examples.w0 Hs Hd).
Defined.

Lemma main_pipeline_witness :
  load_configuration Std.int_of_str Examples.environ
  = Ok (mkconfig "raw-events" "summaries-out" "events/" 24)
  /\ fst (list_eligible_json_files Examples.now_utc Examples.bucket_objects
            "raw-events" "events/" 24 Examples.w0)
     = Ok [Examples.clicks; Examples.views]
  /\ fst (aggregate_events Examples.parsed_normalized Examples.w0)
     = Ok [mkar Examples.hour13 (KStr "click") 3; mkar Examples.hour13 (KStr "view") 2]
  /\ fst (Examples.run_job Examples.environ) = Ok tt
  /\ w_downloads (snd (Examples.run_job Examples.environ))
     = ["events/clicks.json"; "events/views.json"]
  /\ w_uploads (snd (Examples.run_job Examples.environ))
     = w_uploads
         (snd (write_hourly_csv_summaries
                 [mkar Examples.hour13 (KStr "click") 3;
                  mkar Examples.hour13 (KStr "view") 2]
                 "summaries-out" Examples.w0)).
Proof.
  assert (Hcfg : load_configuration Std.int_of_str Examples.environ
                 = Ok (mkconfig "raw-events" "summaries-out" "events/" 24))
    by (vm_compute; reflexivity).
  assert (Hlist : fst (list_eligible_json_files Examples.now_utc Examples.bucket_objects
                         "raw-events" "events/" 24 Examples.w0)
                  = Ok [Examples.clicks; Examples.views])
    by (vm_compute; reflexivity).
  assert (Hagg : fst (aggregate_events Examples.parsed_normalized Examples.w0)
                 = Ok [mkar Examples.hour13 (KStr "click") 3;
                       mkar Examples.hour13 (KStr "view") 2])
    by (vm_compute; reflexivity).
  split; [exact Hcfg|]. split; [exact Hlist|]. split; [exact Hagg|].
  apply (main_pipeline Std.bytes_decode_utf8 Std.json_loads Std.datetime_fromisoformat
           Std.int_of_str Examples.environ Examples.now_utc Examples.bucket_objects
           (mkconfig "raw-events" "summaries-out" "events/" 24)
           [Examples.clicks; Examples.views] Examples.parsed Examples.parsed_normalized
           [mkar Examples.hour13 (KStr "click") 3; mkar Examples.hour13 (KStr "view") 2]
           Examples.w0 Examples.w0 Examples.w0 Examples.w0 Examples.w0 Hcfg Hlist).
  - discriminate.
  - vm_compute. reflexivity.
  - vm_compute. reflexivity.
  - exact Hagg.
Defined.

Lemma main_no_events_witness :
  load_configuration Std.int_of_str Examples.environ_idle
  = Ok (mkconfig "idle" "summaries-out" "events/" 24)
  /\ fst (list_eligible_json_files Examples.now_utc Examples.spare_buckets
            "idle" "events/" 24 Examples.w0)
     = Ok [Examples.empty_array]
  /\ fst (download_and_parse_events Std.bytes_decode_utf8 Std.json_loads
            [Examples.empty_array] Examples.w0)
     = Ok []
  /\ fst (Examples.run_job_in Examples.spare_buckets Examples.environ_idle) = Ok tt
  /\ w_downloads (snd (Examples.run_job_in Examples.spare_buckets
                         Examples.environ_idle))
     = ["events/empty.json"]
  /\ w_uploads (snd (Examples.run_job_in Examples.spare_buckets
                       Examples.environ_idle))
     = [].
Proof.
  assert (Hcfg : load_configuration Std.int_of_str Examples.environ_idle
                 = Ok (mkconfig "idle" "summaries-out" "events/" 24))
    by (vm_compute; reflexivity).
  assert (Hlist : fst (list_eligible_json_files Examples.now_utc Examples.spare_buckets
                         "idle" "events/" 24 Examples.w0)
                  = Ok [Examples.empty_array])
    by (vm_compute; reflexivity).
  assert (Hparse : fst (download_and_parse_events Std.bytes_decode_utf8 Std.json_loads
                          [Examples.empty_array] Examples.w0)
                   = Ok [])
    by (vm_compute; reflexivity).
  split; [exact Hcfg|]. split; [exact Hlist|]. split; [exact Hparse|].
  exact (main_no_events Std.bytes_decode_utf8 Std.json_loads Std.datetime_fromisoformat
           Std.int_of_str Examples.environ_idle Examples.now_utc Examples.spare_buckets
           (mkconfig "idle" "summaries-out" "events/" 24) [Examples.empty_array]
           Examples.w0 Examples.w0 Examples.w0 Hcfg Hlist Hparse).
Defined.

Lemma main_failure_uploads_nothing_witness :
  fst (Examples.run_job_in Examples.spare_buckets Examples.environ_broken)
  = Raise (ValueError_expected_array "events/object.json")
  /\ w_uploads (snd (Examples.run_job_in Examples.spare_buckets
                       Examples.environ_broken))
     = w_uploads Examples.w0.
Proof.
  unfold Examples.run_job_in.
  assert (H : fst (main Std.bytes_decode_utf8 Std.json_loads Std.datetime_fromisoformat
                        Std.int_of_str Examples.environ_broken Examples.now_utc
                        Examples.spare_buckets Examples.w0)
              = Raise (ValueError_expected_array "events/object.json"))
    by (vm_compute; reflexivity).
  split; [exact H|].
  exact (main_failure_uploads_nothing
           Std.bytes_decode_utf8 Std.json_loads Std.datetime_fromisoformat
           Std.int_of_str Examples.environ_broken Examples.now_utc
           Examples.spare_buckets (ValueError_expected_array "events/object.json")
           Examples.w0 H).
Defined.

Lemma normalize_event_Z_suffix_witness :
  dict_lookup "event_timestamp"
    [("event_timestamp", JStr ("2024-03-01T13:47:22" ++ "Z")); ("event_type", JStr "click")]
  = Some (JStr ("2024-03-01T13:47:22" ++ "Z"))
  /\ parse_event_timestamp Std.datetime_fromisoformat
       (Examples.click_event "2024-03-01T13:47:22Z")
     = parse_event_timestamp Std.datetime_fromisoformat
         (Examples.click_event "2024-03-01T13:47:22+00:00").
Proof.
  split; [reflexivity|].
  exact (proj1 (normalize_event_Z_suffix Std.datetime_fromisoformat
                  "2024-03-01T13:47:22"
                  [("event_timestamp", JStr "2024-03-01T13:47:22Z");
                   ("event_type", JStr "click")]
                  [("event_timestamp", JStr "2024-03-01T13:47:22+00:00");
                   ("event_type", JStr "click")]
                  eq_refl eq_refl eq_refl)).
Defined.

Lemma pipeline_counts_every_event_witness :
  fst (normalize_events Std.datetime_fromisoformat Examples.parsed Examples.w0)
  = Ok Examples.parsed_normalized
  /\ fst (aggregate_events Examples.parsed_normalized Examples.w0)
     = Ok [mkar Examples.hour13 (KStr "click") 3; mkar Examples.hour13 (KStr "view") 2]
  /\ sum_total_events
       [mkar Examples.hour13 (KStr "click") 3; mkar Examples.hour13 (KStr "view") 2]
     = Z.of_nat (List.length Examples.parsed).
Proof.
  assert (Hn : fst (normalize_events Std.datetime_fromisoformat Examples.parsed
                      Examples.w0)
               = Ok Examples.parsed_normalized)
    by (vm_compute; reflexivity).
  assert (Ha : fst (aggregate_events Examples.parsed_normalized Examples.w0)
               = Ok [mkar Examples.hour13 (KStr "click") 3;
                     mkar Examples.hour13 (KStr "view") 2])
    by (vm_compute; reflexivity).
  split; [exact Hn|]. split; [exact Ha|].
  exact (proj1 (proj2 (pipeline_counts_every_event Std.datetime_fromisoformat _ _ _
                         Examples.w0 Examples.w0 Hn Ha))).
Defined.
